(** * Quiz Royale: the round-based elimination engine of server.js

    A shallow embedding of the game server (the later source variant, the
    one with ghost players and parties) and the properties of its
    specification.

    Conventions of the embedding.
    - JavaScript numbers that the server only ever uses as counters or
      indices are integers ([Z]).
    - [Math.random()] is an input: a rational in the half-open unit
      interval, type [Rand]; what the server computes from a draw (an
      index, the pass rate of the ghosts) is computed on exact rationals
      ([Q]).
    - The percentage of votes is computed as the server computes it, in
      binary64 floating point: a division and a multiplication, each
      rounded to the nearest double, ties to even ([binary64]).  A double
      is the rational number it stands for.
    - A JavaScript [Map] iterates in insertion order.  The session registry
      [gameState.players] is iterated by the server, so it is a list of
      players in insertion order; [parties] and [todayPlayers.players] are
      only read and written by key, so they are finite maps.
    - Player objects are mutated through the reference that
      [gameState.players.get] returns: [players_update].
    - Fields that the source adds to a player object after its creation
      ([ready], [leftGame], [participatedInGame]) are [undefined] until
      then; every test the source makes on them is a truthiness test, so
      they are booleans that start at [false].
    - Socket payloads are restricted to the shapes the client sends: a
      display name and a party code are a string or absent, an answer is an
      integer or absent, an identity is a string or absent.
    - Timers: a handler that calls [setTimeout] returns the continuation it
      scheduled; the callback is a separate event.
    - Console output, broadcasts that no property reads, and the rewrite
      of today-players.json are left out: they do not feed back into the
      state. *)

From Stdlib Require Import ZArith QArith Qround Lqa Lia Ascii String Sorted.
From Stdlib Require PrimFloat FloatOps Uint63.
From stdpp Require Import gmap strings list fin_maps.

Local Open Scope string_scope.
Local Open Scope Z_scope.

(** ** Random draws *)

Definition in_unit (q : Q) : bool := Qle_bool 0 q && negb (Qle_bool 1 q).

(** A result of [Math.random()]: 0 <= rnd < 1. *)
Record Rand := { rnd : Q; rnd_ok : in_unit rnd = true }.

Definition Math_floor (x : Q) : Z := Qfloor x.

(** [Math.round] rounds to the nearest integer, a tie towards +infinity. *)
Definition Math_round (x : Q) : Z := Qfloor (x + (1 # 2)).

(** ** Floating point *)

(** The integer nearest to [a / b], for [0 < b]; of two integers equally
    near, the even one. *)
Definition round_half_even (a b : Z) : Z :=
  let q := a / b in
  let r := a mod b in
  if 2 * r <? b then q
  else if b <? 2 * r then q + 1
  else if Z.even q then q else q + 1.

(** The binary exponent of [m / b], for [0 < m] and [0 < b]: the [e] with
    [2 ^ e <= m / b < 2 ^ (e + 1)]. *)
Definition exponent (m b : Z) : Z :=
  let e0 := Z.log2 m - Z.log2 b in
  let below := if 0 <=? e0 then m <? b * 2 ^ e0 else m * 2 ^ (- e0) <? b in
  if below then e0 - 1 else e0.

(** The result of an arithmetic operation of JavaScript whose exact value
    is [x]: the double nearest to [x], ties to even.  The significand has
    53 bits, so [x] is rounded to a multiple of [2 ^ (e - 52)], [e] being
    its exponent.  The range of the exponent is not modelled: the
    operations of the server stay far from overflow and from the
    subnormal numbers. *)
Definition binary64 (x : Q) : Q :=
  let a := Qnum x in
  let b := Z.pos (Qden x) in
  if a =? 0 then 0%Q
  else
    let m := Z.abs a in
    let s := 52 - exponent m b in
    let v :=
      if 0 <=? s then Qmake (round_half_even (m * 2 ^ s) b) (Z.to_pos (2 ^ s))
      else inject_Z (round_half_even m (b * 2 ^ (- s)) * 2 ^ (- s)) in
    if a <? 0 then (- v)%Q else v.

(** Half a unit in the last place of the doubles in [[1, 2)], 2 ^ -53: the
    bound of the relative error of one operation. *)
Definition ulp_half : Q := 1 # 9007199254740992.

(** ** Strings *)

(** [trim] and [toUpperCase] on the ASCII range: the white space of
    [trim] is tab, line feed, vertical tab, form feed, carriage return and
    space, the letters of [toUpperCase] are a to z.  [String.length] counts
    characters, which on that range is the [length] of JavaScript. *)

Definition is_whitespace (a : ascii) : bool :=
  let n := nat_of_ascii a in
  ((9 <=? n)%nat && (n <=? 13)%nat) || (n =? 32)%nat.

Fixpoint trimStart (s : string) : string :=
  match s with
  | EmptyString => EmptyString
  | String a s' => if is_whitespace a then trimStart s' else s
  end.

Definition trim (s : string) : string :=
  String.rev (trimStart (String.rev (trimStart s))).

Definition upper_ascii (a : ascii) : ascii :=
  let n := nat_of_ascii a in
  if ((97 <=? n)%nat && (n <=? 122)%nat)%bool then ascii_of_nat (n - 32) else a.

Fixpoint toUpperCase (s : string) : string :=
  match s with
  | EmptyString => EmptyString
  | String a s' => String (upper_ascii a) (toUpperCase s')
  end.

(** Truthiness of a string-or-null value: [null] and the empty string are falsy. *)
Definition truthy (o : option string) : bool :=
  match o with
  | Some s => negb (String.eqb s EmptyString)
  | None => false
  end.

(** ** Data model *)

Inductive Status := waiting | starting | playing | finished.

Inductive MemberStatus := member_waiting | member_alive | member_eliminated.

Record Result := {
  position : Z;
  totalPlayers : Z;
  questionsCorrect : Z;
  gameNumber : Z
}.

(** A value of [todayPlayers.players]. *)
Record LedgerEntry := {
  hasPlayed : bool;
  result : Result
}.

(** A value of [gameState.players]. *)
Record Player := {
  id : string;
  persistentId : option string;
  name : string;
  alive : bool;
  currentAnswer : option Z;
  correctAnswers : Z;
  hasPlayedToday : bool;
  todayResult : option Result;
  partyCode : option string;
  partyDisplayName : option string;
  ready : bool;
  leftGame : bool;
  participatedInGame : bool
}.

Record Member := {
  socketId : string;
  displayName : string;
  status : MemberStatus;
  eliminatedOnQuestion : option Z
}.

Record Party := {
  code : string;
  members : list Member;
  createdAt : Z
}.

Record Question := {
  question : string;
  correct : string;
  answers : list string;
  difficulty : string;
  category : string
}.

(** [todayPlayers]; [ledger] is its field [players], the map from an
    identity to the record of the day. *)
Record TodayPlayers := {
  date : option string;
  ledger : gmap string LedgerEntry
}.

(** [gameState], without [questionStartTime] and [timeLeft], which the
    server writes and never reads; [gstatus] is its field [status]. *)
Record GameState := {
  gstatus : Status;
  players : list Player;
  currentQuestion : Z;
  questions : list Question;
  totalParticipants : Z;
  waitingCount : Z;
  ghostPlayers : Z;
  aliveGhosts : Z
}.

(** The three globals of the server. *)
Record World := {
  gameState : GameState;
  parties : gmap string Party;
  todayPlayers : TodayPlayers
}.

#[global] Instance Status_eq_dec : EqDecision Status.
Proof. solve_decision. Defined.

#[global] Instance MemberStatus_eq_dec : EqDecision MemberStatus.
Proof. solve_decision. Defined.

(** *** Field updates *)

Definition set_persistentId (v : option string) (p : Player) : Player :=
  Build_Player (id p) v (name p) (alive p) (currentAnswer p) (correctAnswers p)
    (hasPlayedToday p) (todayResult p) (partyCode p) (partyDisplayName p)
    (ready p) (leftGame p) (participatedInGame p).

Definition set_alive (v : bool) (p : Player) : Player :=
  Build_Player (id p) (persistentId p) (name p) v (currentAnswer p) (correctAnswers p)
    (hasPlayedToday p) (todayResult p) (partyCode p) (partyDisplayName p)
    (ready p) (leftGame p) (participatedInGame p).

Definition set_currentAnswer (v : option Z) (p : Player) : Player :=
  Build_Player (id p) (persistentId p) (name p) (alive p) v (correctAnswers p)
    (hasPlayedToday p) (todayResult p) (partyCode p) (partyDisplayName p)
    (ready p) (leftGame p) (participatedInGame p).

Definition set_correctAnswers (v : Z) (p : Player) : Player :=
  Build_Player (id p) (persistentId p) (name p) (alive p) (currentAnswer p) v
    (hasPlayedToday p) (todayResult p) (partyCode p) (partyDisplayName p)
    (ready p) (leftGame p) (participatedInGame p).

Definition set_hasPlayedToday (v : bool) (p : Player) : Player :=
  Build_Player (id p) (persistentId p) (name p) (alive p) (currentAnswer p) (correctAnswers p)
    v (todayResult p) (partyCode p) (partyDisplayName p)
    (ready p) (leftGame p) (participatedInGame p).

Definition set_todayResult (v : option Result) (p : Player) : Player :=
  Build_Player (id p) (persistentId p) (name p) (alive p) (currentAnswer p) (correctAnswers p)
    (hasPlayedToday p) v (partyCode p) (partyDisplayName p)
    (ready p) (leftGame p) (participatedInGame p).

Definition set_party (c n : option string) (p : Player) : Player :=
  Build_Player (id p) (persistentId p) (name p) (alive p) (currentAnswer p) (correctAnswers p)
    (hasPlayedToday p) (todayResult p) c n
    (ready p) (leftGame p) (participatedInGame p).

Definition set_ready (v : bool) (p : Player) : Player :=
  Build_Player (id p) (persistentId p) (name p) (alive p) (currentAnswer p) (correctAnswers p)
    (hasPlayedToday p) (todayResult p) (partyCode p) (partyDisplayName p)
    v (leftGame p) (participatedInGame p).

Definition set_leftGame (v : bool) (p : Player) : Player :=
  Build_Player (id p) (persistentId p) (name p) (alive p) (currentAnswer p) (correctAnswers p)
    (hasPlayedToday p) (todayResult p) (partyCode p) (partyDisplayName p)
    (ready p) v (participatedInGame p).

Definition set_participatedInGame (v : bool) (p : Player) : Player :=
  Build_Player (id p) (persistentId p) (name p) (alive p) (currentAnswer p) (correctAnswers p)
    (hasPlayedToday p) (todayResult p) (partyCode p) (partyDisplayName p)
    (ready p) (leftGame p) v.

Definition set_member_status (s : MemberStatus) (q : option Z) (m : Member) : Member :=
  Build_Member (socketId m) (displayName m) s q.

Definition set_members (ms : list Member) (p : Party) : Party :=
  Build_Party (code p) ms (createdAt p).

Definition set_gstatus (v : Status) (g : GameState) : GameState :=
  Build_GameState v (players g) (currentQuestion g) (questions g)
    (totalParticipants g) (waitingCount g) (ghostPlayers g) (aliveGhosts g).

Definition set_players (v : list Player) (g : GameState) : GameState :=
  Build_GameState (gstatus g) v (currentQuestion g) (questions g)
    (totalParticipants g) (waitingCount g) (ghostPlayers g) (aliveGhosts g).

Definition set_currentQuestion (v : Z) (g : GameState) : GameState :=
  Build_GameState (gstatus g) (players g) v (questions g)
    (totalParticipants g) (waitingCount g) (ghostPlayers g) (aliveGhosts g).

Definition set_questions (v : list Question) (g : GameState) : GameState :=
  Build_GameState (gstatus g) (players g) (currentQuestion g) v
    (totalParticipants g) (waitingCount g) (ghostPlayers g) (aliveGhosts g).

Definition set_totalParticipants (v : Z) (g : GameState) : GameState :=
  Build_GameState (gstatus g) (players g) (currentQuestion g) (questions g)
    v (waitingCount g) (ghostPlayers g) (aliveGhosts g).

Definition set_waitingCount (v : Z) (g : GameState) : GameState :=
  Build_GameState (gstatus g) (players g) (currentQuestion g) (questions g)
    (totalParticipants g) v (ghostPlayers g) (aliveGhosts g).

Definition set_ghosts (pop live : Z) (g : GameState) : GameState :=
  Build_GameState (gstatus g) (players g) (currentQuestion g) (questions g)
    (totalParticipants g) (waitingCount g) pop live.

Definition set_aliveGhosts (v : Z) (g : GameState) : GameState :=
  set_ghosts (ghostPlayers g) v g.

Definition with_gameState (g : GameState) (w : World) : World :=
  Build_World g (parties w) (todayPlayers w).

Definition with_parties (ps : gmap string Party) (w : World) : World :=
  Build_World (gameState w) ps (todayPlayers w).

Definition with_todayPlayers (t : TodayPlayers) (w : World) : World :=
  Build_World (gameState w) (parties w) t.

Definition with_players (ps : list Player) (w : World) : World :=
  with_gameState (set_players ps (gameState w)) w.

(** *** The session registry, a [Map] in insertion order *)

Fixpoint players_get (sid : string) (ps : list Player) : option Player :=
  match ps with
  | [] => None
  | p :: ps' => if decide (id p = sid) then Some p else players_get sid ps'
  end.

(** [Map.prototype.set]: an existing key keeps its place. *)
Fixpoint players_set (p : Player) (ps : list Player) : list Player :=
  match ps with
  | [] => [p]
  | q :: ps' => if decide (id q = id p) then p :: ps' else q :: players_set p ps'
  end.

Definition players_delete (sid : string) (ps : list Player) : list Player :=
  filter (λ p, id p ≠ sid) ps.

(** Assignment to fields of the object that [get sid] returned. *)
Fixpoint players_update (sid : string) (f : Player → Player) (ps : list Player)
  : list Player :=
  match ps with
  | [] => []
  | p :: ps' =>
      if decide (id p = sid) then f p :: ps' else p :: players_update sid f ps'
  end.

(** The filter [p.alive && !p.leftGame && p.participatedInGame]. *)
Definition active (p : Player) : bool :=
  alive p && negb (leftGame p) && participatedInGame p.

Definition count_players (f : Player → bool) (ps : list Player) : Z :=
  Z.of_nat (length (List.filter f ps)).

(** [realWaiting]: the sessions that have not played today. *)
Definition realWaiting (ps : list Player) : Z :=
  count_players (λ p, negb (hasPlayedToday p)) ps.

(** ** Party codes *)

Definition chars : string := "ABCDEFGHJKLMNPQRSTUVWXYZ23456789".

Definition charAt (s : string) (i : Z) : string :=
  if i <? 0 then EmptyString
  else match String.get (Z.to_nat i) s with
       | Some a => String a EmptyString
       | None => EmptyString
       end.

(** The body of [for (let i = 0; i < 6; i++)]: [n] characters are still to
    be drawn, [draw i] is the result of the i-th call of [Math.random]. *)
Fixpoint code_chars (n : nat) (i : nat) (draw : nat → Rand) : string :=
  match n with
  | O => EmptyString
  | S n' =>
      String.append
        (charAt chars
           (Math_floor (rnd (draw i) * inject_Z (Z.of_nat (String.length chars)))))
        (code_chars n' (S i) draw)
  end.

(** [generatePartyCode]: a candidate is drawn until one is not a key of
    [parties].  [draws] holds the random draws of the successive passes of
    the do-while loop; the result is [None] when every supplied pass ends on
    a code that is taken (the loop would go on drawing). *)
Fixpoint generatePartyCode (draws : list (nat → Rand)) (ps : gmap string Party)
  : option string :=
  match draws with
  | [] => None
  | draw :: rest =>
      let c := code_chars 6 0 draw in
      match ps !! c with
      | Some _ => generatePartyCode rest ps
      | None => Some c
      end
  end.

(** The argument of the acknowledgement callback. *)
Inductive Ack :=
  | AckError (error : string)
  | AckSuccess (c : string) (ms : list Member).

Definition success (a : Ack) : bool :=
  match a with
  | AckError _ => false
  | AckSuccess _ _ => true
  end.

(** [party.members.find(m => m.socketId === sid)] followed by assignments
    to the member found. *)
Fixpoint members_update (sid : string) (f : Member → Member) (ms : list Member)
  : list Member :=
  match ms with
  | [] => []
  | m :: ms' =>
      if decide (socketId m = sid) then f m :: ms'
      else m :: members_update sid f ms'
  end.

(** [party.members.filter(m => m.socketId !== sid)] *)
Definition members_without (sid : string) (ms : list Member) : list Member :=
  filter (λ m, socketId m ≠ sid) ms.

(** [party.members.some(m => m.socketId === sid)] *)
Definition is_member (sid : string) (ms : list Member) : bool :=
  existsb (λ m, bool_decide (socketId m = sid)) ms.

(** The party-status update that [startGame] and [processAnswers] make for
    one player: guarded by [player.partyCode && parties.has(player.partyCode)]. *)
Definition mark_member (player : Player) (f : Member → Member)
    (ps : gmap string Party) : gmap string Party :=
  if truthy (partyCode player) then
    match partyCode player with
    | Some c =>
        match ps !! c with
        | Some party =>
            <[c := set_members (members_update (id player) f (members party)) party]> ps
        | None => ps
        end
    | None => ps
    end
  else ps.

(** Removal of a session from the party named [c], shared by [leaveParty]
    and the disconnect handler. *)
Definition remove_from_party (sid c : string) (ps : gmap string Party)
  : gmap string Party :=
  match ps !! c with
  | Some party =>
      let ms := members_without sid (members party) in
      if (length ms =? 0)%nat then delete c ps
      else <[c := set_members ms party]> ps
  | None => ps
  end.

Section Server.

(** [containsProfanity] wraps the filter of the bad-words package, which is
    not part of the repository: it is a parameter of the model. *)
Variable containsProfanity : string → bool.

(** ** Connection handlers *)

(** [io.on('connection')]: the new player object. *)
Definition new_player (sid : string) : Player :=
  {| id := sid; persistentId := None; name := "Anonymous"; alive := true;
     currentAnswer := None; correctAnswers := 0; hasPlayedToday := false;
     todayResult := None; partyCode := None; partyDisplayName := None;
     ready := false; leftGame := false; participatedInGame := false |}.

Definition connect (sid : string) (w : World) : World :=
  with_players (players_set (new_player sid) (players (gameState w))) w.

(** What [identify] copies from the ledger entry of the identity, if there
    is one, onto the player. *)
Definition restore (todayData : option LedgerEntry) (p : Player) : Player :=
  match todayData with
  | Some d => set_todayResult (Some (result d)) (set_hasPlayedToday (hasPlayed d) p)
  | None => set_todayResult None (set_hasPlayedToday false p)
  end.

(** [socket.on('identify')]; [today] is [new Date().toDateString()]. *)
Definition identify (sid : string) (pid : option string) (today : string)
    (w : World) : World :=
  match players_get sid (players (gameState w)) with
  | None => w
  | Some _ =>
      let tp :=
        if decide (date (todayPlayers w) = Some today) then todayPlayers w
        else {| date := Some today; ledger := ∅ |} in
      let todayData :=
        match pid with
        | Some k => ledger tp !! k
        | None => None
        end in
      let ps :=
        players_update sid (λ p, restore todayData (set_persistentId pid p))
          (players (gameState w)) in
      let g := set_players ps (gameState w) in
      let played :=
        match todayData with
        | Some d => hasPlayed d
        | None => false
        end in
      let g' :=
        if negb played && bool_decide (gstatus g = waiting)
        then set_waitingCount (realWaiting ps + ghostPlayers g) g
        else g in
      with_todayPlayers tp (with_gameState g' w)
  end.

(** [socket.on('disconnect')] *)
Definition disconnect (sid : string) (w : World) : World :=
  let g := gameState w in
  let player := players_get sid (players g) in
  let parties' :=
    match player with
    | Some p =>
        if truthy (partyCode p) then
          match partyCode p with
          | Some c => remove_from_party sid c (parties w)
          | None => parties w
          end
        else parties w
    | None => parties w
    end in
  let g1 :=
    match player with
    | Some p =>
        if negb (hasPlayedToday p) && bool_decide (gstatus g = waiting)
        then set_waitingCount
               (count_players
                  (λ q, negb (hasPlayedToday q) && negb (bool_decide (id q = sid)))
                  (players g) + ghostPlayers g) g
        else g
    | None => g
    end in
  with_parties parties'
    (with_gameState (set_players (players_delete sid (players g1)) g1) w).

(** [socket.on('leaveGame')] *)
Definition leaveGame (sid : string) (w : World) : World :=
  with_players
    (players_update sid (λ p, set_leftGame true (set_alive false (set_ready false p)))
       (players (gameState w))) w.

(** [socket.on('submitAnswer')] *)
Definition submitAnswer (sid : string) (answerIndex : option Z) (w : World) : World :=
  match players_get sid (players (gameState w)) with
  | Some player =>
      if alive player && bool_decide (gstatus (gameState w) = playing)
         && negb (leftGame player)
      then with_players
             (players_update sid (set_currentAnswer answerIndex)
                (players (gameState w))) w
      else w
  | None => w
  end.

(** ** Party handlers *)

(** [socket.on('createParty')]; [now] is [Date.now()]. *)
Definition createParty (sid : string) (name_arg : option string) (now : Z)
    (draws : list (nat → Rand)) (w : World) : option (World * Ack) :=
  match players_get sid (players (gameState w)) with
  | None => Some (w, AckError "Player not found")
  | Some _ =>
      match name_arg with
      | None => Some (w, AckError "Display name required")
      | Some dn =>
          if (String.length (trim dn) =? 0)%nat
          then Some (w, AckError "Display name required")
          else if (10 <? String.length dn)%nat
          then Some (w, AckError "Display name too long (max 10 chars)")
          else if containsProfanity dn
          then Some (w, AckError "Display name contains inappropriate language")
          else
            match generatePartyCode draws (parties w) with
            | None => None
            | Some c =>
                let m := {| socketId := sid; displayName := trim dn;
                            status := member_waiting;
                            eliminatedOnQuestion := None |} in
                let party := {| code := c; members := [m]; createdAt := now |} in
                let w1 := with_parties (<[c := party]> (parties w)) w in
                let w2 :=
                  with_players
                    (players_update sid (set_party (Some c) (Some (trim dn)))
                       (players (gameState w1))) w1 in
                Some (w2, AckSuccess c [m])
            end
      end
  end.

(** [socket.on('joinParty')]; the payload is [{ code, displayName }]. *)
Definition joinParty (sid : string) (code_arg name_arg : option string) (w : World)
  : World * Ack :=
  match players_get sid (players (gameState w)) with
  | None => (w, AckError "Player not found")
  | Some _ =>
      match name_arg with
      | None => (w, AckError "Display name required")
      | Some dn =>
          if (String.length (trim dn) =? 0)%nat
          then (w, AckError "Display name required")
          else if (10 <? String.length dn)%nat
          then (w, AckError "Display name too long (max 10 chars)")
          else if containsProfanity dn
          then (w, AckError "Display name contains inappropriate language")
          else
            match code_arg with
            | None => (w, AckError "Invalid party code")
            | Some c0 =>
                if String.eqb c0 EmptyString then (w, AckError "Invalid party code")
                else
                  let c := toUpperCase c0 in
                  match parties w !! c with
                  | None => (w, AckError "Invalid party code")
                  | Some party =>
                      if (5 <=? length (members party))%nat
                      then (w, AckError "Party is full (max 5 members)")
                      else if is_member sid (members party)
                      then (w, AckError "Already in this party")
                      else
                        let m := {| socketId := sid; displayName := trim dn;
                                    status := member_waiting;
                                    eliminatedOnQuestion := None |} in
                        let ms := (members party ++ [m])%list in
                        let w1 :=
                          with_parties (<[c := set_members ms party]> (parties w)) w in
                        let w2 :=
                          with_players
                            (players_update sid (set_party (Some c) (Some (trim dn)))
                               (players (gameState w1))) w1 in
                        (w2, AckSuccess c ms)
                  end
            end
      end
  end.

(** [socket.on('leaveParty')] *)
Definition leaveParty (sid : string) (w : World) : World :=
  match players_get sid (players (gameState w)) with
  | None => w
  | Some player =>
      if truthy (partyCode player) then
        match partyCode player with
        | Some c =>
            let w1 := with_parties (remove_from_party sid c (parties w)) w in
            with_players
              (players_update sid (set_party None None) (players (gameState w1))) w1
        | None => w
        end
      else w
  end.

(** ** Daily play ledger *)

(** [loadTodayPlayers]; [saved] is the parsed content of today-players.json
    when the file exists. *)
Definition loadTodayPlayers (today : string) (saved : option TodayPlayers)
    (tp : TodayPlayers) : TodayPlayers :=
  if decide (date tp = Some today) then
    match saved with
    | Some data =>
        if decide (date data = Some today) then data
        else {| date := Some today; ledger := ∅ |}
    | None => tp
    end
  else {| date := Some today; ledger := ∅ |}.

(** The midnight job of [setupDailySchedule]. *)
Definition midnightReset (today : string) (w : World) : World :=
  with_todayPlayers {| date := Some today; ledger := ∅ |} w.

(** [todayPlayers.players.set(pid, { hasPlayed: true, result })] *)
Definition ledger_set (pid : string) (r : Result) (tp : TodayPlayers) : TodayPlayers :=
  {| date := date tp; ledger := <[pid := {| hasPlayed := true; result := r |}]> (ledger tp) |}.

(** The value of a string-or-null field when it is truthy. *)
Definition if_truthy (o : option string) : option string :=
  match o with
  | Some s => if String.eqb s EmptyString then None else Some s
  | None => None
  end.

(** ** Game lifecycle *)

(** [Math.floor(Math.random() * 11) + 95] *)
Definition ghostCount (r : Rand) : Z := Math_floor (rnd r * 11) + 95.

(** The callback of [http.listen], without the question provider. *)
Definition listen (r : Rand) (today : string) (saved : option TodayPlayers)
    (w : World) : World :=
  let w1 := with_todayPlayers (loadTodayPlayers today saved (todayPlayers w)) w in
  with_gameState (set_ghosts (ghostCount r) (ghostCount r) (gameState w1)) w1.

(** [autoStartGame] up to the first suspension of [startGame], the
    [await fetchDailyQuestions()]. *)
Definition autoStartGame (w : World) : World :=
  let g := gameState w in
  if bool_decide (gstatus g = waiting) then
    if (length (List.filter (λ p, negb (hasPlayedToday p)) (players g)) =? 0)%nat
    then w
    else
      let ps :=
        map (λ p, if negb (hasPlayedToday p) then set_ready true p else p) (players g) in
      with_gameState (set_waitingCount 0 (set_gstatus starting (set_players ps g))) w
  else w.

(** What [startGame] does to one session when it takes its snapshot. *)
Definition enrol (p : Player) : Player :=
  if negb (hasPlayedToday p) && negb (leftGame p) then
    set_hasPlayedToday true
      (set_participatedInGame true
         (set_currentAnswer None (set_correctAnswers 0 (set_alive true p))))
  else p.

Definition member_set_alive (m : Member) : Member :=
  set_member_status member_alive (eliminatedOnQuestion m) m.

(** [startGame] from the return of [fetchDailyQuestions] to the countdown. *)
Definition startGame_fetched (qs : list Question) (w : World) : World :=
  let g := gameState w in
  let eligible := List.filter (λ p, negb (hasPlayedToday p) && negb (leftGame p)) (players g) in
  let parties' := fold_left (λ ps p, mark_member p member_set_alive ps) eligible (parties w) in
  let g' :=
    set_totalParticipants (Z.of_nat (length eligible) + ghostPlayers g)
      (set_players (map enrol (players g))
         (set_currentQuestion 0 (set_questions qs g))) in
  with_parties parties' (with_gameState g' w).

(** What a handler leaves on the timer queue. *)
Inductive Scheduled := ThenEndGame | ThenNextQuestion.

(** [endGame]; [gn] is [getGameNumber()]. *)
Definition save_winner (gn total : Z) (tp : TodayPlayers) (p : Player) : TodayPlayers :=
  match if_truthy (persistentId p) with
  | Some pid =>
      ledger_set pid
        {| position := 1; totalPlayers := total;
           questionsCorrect := correctAnswers p; gameNumber := gn |} tp
  | None => tp
  end.

Definition crown (gn total : Z) (p : Player) : Player :=
  if active p && truthy (persistentId p) then
    set_todayResult
      (Some {| position := 1; totalPlayers := total;
               questionsCorrect := correctAnswers p; gameNumber := gn |})
      (set_hasPlayedToday true p)
  else p.

Definition endGame (gn : Z) (w : World) : World :=
  let g := set_gstatus finished (gameState w) in
  let winners := List.filter active (players g) in
  let tp := fold_left (save_winner gn (totalParticipants g)) winners (todayPlayers w) in
  with_todayPlayers tp
    (with_gameState (set_players (map (crown gn (totalParticipants g)) (players g)) g) w).

(** [nextQuestion]: past the last question the game ends, otherwise the
    answer slots are cleared and the question goes out. *)
Definition nextQuestion (gn : Z) (w : World) : World :=
  let g := gameState w in
  if Z.of_nat (length (questions g)) <=? currentQuestion g then endGame gn w
  else with_players (map (set_currentAnswer None) (players g)) w.

(** [startGame] after the countdown. *)
Definition startGame_countdownDone (gn : Z) (w : World) : World :=
  nextQuestion gn (with_gameState (set_gstatus playing (gameState w)) w).

(** [resetGame] *)
Definition reset_player (p : Player) : Player :=
  set_party None None
    (set_participatedInGame false
       (set_correctAnswers 0 (set_alive true (set_ready false p)))).

Definition resetGame (r : Rand) (w : World) : World :=
  let g := gameState w in
  let ps := map reset_player (players g) in
  let g' :=
    set_waitingCount (realWaiting ps + ghostCount r)
      (set_players ps
         (set_ghosts (ghostCount r) (ghostCount r)
            (set_totalParticipants 0 (set_currentQuestion 0 (set_gstatus waiting g))))) in
  with_parties ∅ (with_gameState g' w).

(** ** The elimination round *)

Fixpoint indexOf_from (x : string) (l : list string) (i : Z) : Z :=
  match l with
  | [] => -1
  | y :: l' => if decide (y = x) then i else indexOf_from x l' (i + 1)
  end.

Definition indexOf (x : string) (l : list string) : Z := indexOf_from x l 0.

(** The array [answerCounts = [0, 0, 0, 0]].  A write under a key that is
    not one of the four indices does not touch the four slots (JavaScript
    stores NaN under that key); [stray] lists those keys, [None] standing
    for [undefined]. *)
Record AnswerCounts := {
  slots : list Z;
  stray : list (option Z)
}.

Definition answerCounts0 : AnswerCounts := {| slots := [0; 0; 0; 0]; stray := [] |}.

(** [answerCounts[k] += n] *)
Definition bump (k : option Z) (n : Z) (c : AnswerCounts) : AnswerCounts :=
  match k with
  | Some i =>
      if (0 <=? i) && (i <? 4)
      then {| slots := alter (λ x, x + n) (Z.to_nat i) (slots c); stray := stray c |}
      else {| slots := slots c; stray := (stray c ++ [k])%list |}
  | None => {| slots := slots c; stray := (stray c ++ [k])%list |}
  end.

(** The accumulators of the loop over the players. *)
Record Tally := {
  answerCounts : AnswerCounts;
  totalAnswers : Z;
  eliminated : list string;
  survivors : list string
}.

Definition tally0 : Tally :=
  {| answerCounts := answerCounts0; totalAnswers := 0; eliminated := []; survivors := [] |}.

(** The body of [gameState.players.forEach] in [processAnswers], as far as
    the accumulators go ... *)
Definition tally_player (correctIndex : Z) (t : Tally) (player : Player) : Tally :=
  if active player then
    let c :=
      match currentAnswer player with
      | Some a => bump (Some a) 1 (answerCounts t)
      | None => answerCounts t
      end in
    let n :=
      match currentAnswer player with
      | Some _ => totalAnswers t + 1
      | None => totalAnswers t
      end in
    if decide (currentAnswer player = Some correctIndex)
    then {| answerCounts := c; totalAnswers := n; eliminated := eliminated t;
            survivors := (survivors t ++ [id player])%list |}
    else {| answerCounts := c; totalAnswers := n;
            eliminated := (eliminated t ++ [id player])%list;
            survivors := survivors t |}
  else t.

(** ... and as far as the player itself goes. *)
Definition judge (correctIndex : Z) (player : Player) : Player :=
  if active player then
    if decide (currentAnswer player = Some correctIndex)
    then set_correctAnswers (correctAnswers player + 1) player
    else set_alive false player
  else player.

(** The pass rate of the ghosts; [r] is the result of [Math.random()]. *)
Definition correctRate (questionNumber : Z) (r : Rand) : Q :=
  if questionNumber <=? 3 then (rnd r * (5 # 100) + (90 # 100))%Q
  else if questionNumber <=? 6 then (rnd r * (10 # 100) + (65 # 100))%Q
  else (rnd r * (20 # 100) + (20 # 100))%Q.

(** The loop that spreads [n] wrong ghost votes; [i] is its counter. *)
Fixpoint ghost_wrong_votes (n i : nat) (wrongAnswers : list Z) (draw : nat → Rand)
    (c : AnswerCounts) : AnswerCounts :=
  match n with
  | O => c
  | S n' =>
      let randomWrongAnswer :=
        wrongAnswers !!
          Z.to_nat (Math_floor (rnd (draw i) * inject_Z (Z.of_nat (length wrongAnswers)))) in
      ghost_wrong_votes n' (S i) wrongAnswers draw (bump randomWrongAnswer 1 c)
  end.

(** The ghost votes: [ghostsAnsweringCorrect] on the correct index, and
    [ghostsAnsweringWrong], one by one, on the other three.  The pair is
    [answerCounts] and [totalAnswers]. *)
Definition ghost_votes (ci ghostsAnsweringCorrect ghostsAnsweringWrong : Z)
    (wrongDraw : nat → Rand) (votes : AnswerCounts * Z) : AnswerCounts * Z :=
  let c1 := bump (Some ci) ghostsAnsweringCorrect (fst votes) in
  let n1 := snd votes + ghostsAnsweringCorrect in
  if 0 <? ghostsAnsweringWrong then
    let wrongAnswers := List.filter (λ i, negb (i =? ci)) [0; 1; 2; 3] in
    (ghost_wrong_votes (Z.to_nat ghostsAnsweringWrong) 0 wrongAnswers wrongDraw c1,
     n1 + ghostsAnsweringWrong)
  else (c1, n1).

(** [(count / totalAnswers) * 100], as a double: the quotient is rounded,
    and so is the product.  The counts themselves are whole numbers far
    below 2 ^ 53, which are doubles. *)
Definition share (total count : Z) : Q :=
  binary64 (binary64 (inject_Z count / inject_Z total) * 100).

(** [totalAnswers > 0 ? Math.round((count / totalAnswers) * 100) : 0] *)
Definition percentage (total count : Z) : Z :=
  if 0 <? total then Math_round (share total count) else 0.

Definition member_set_eliminated (questionNumber : Z) (m : Member) : Member :=
  set_member_status member_eliminated (Some questionNumber) m.

(** The body of the first [eliminated.forEach]. *)
Definition save_elimination (pos gn : Z) (w : World) (playerId : string) : World :=
  match players_get playerId (players (gameState w)) with
  | None => w
  | Some player =>
      let g := gameState w in
      let w1 :=
        match if_truthy (persistentId player) with
        | Some pid =>
            let res := {| position := pos; totalPlayers := totalParticipants g;
                          questionsCorrect := correctAnswers player;
                          gameNumber := gn |} in
            with_todayPlayers (ledger_set pid res (todayPlayers w))
              (with_players
                 (players_update playerId
                    (λ p, set_todayResult (Some res) (set_hasPlayedToday true p))
                    (players g)) w)
        | None => w
        end in
      with_parties
        (mark_member player (member_set_eliminated (currentQuestion g + 1)) (parties w1))
        w1
  end.

(** The body of [survivors.forEach]. *)
Definition save_survivor (w : World) (playerId : string) : World :=
  match players_get playerId (players (gameState w)) with
  | None => w
  | Some player => with_parties (mark_member player member_set_alive (parties w)) w
  end.

(** The payload of the [results] event, without the party roster. *)
Record ResultsEvent := {
  correctIndex : Z;
  results_eliminated : Z;
  results_remaining : Z;
  results_totalPlayers : Z;
  answerPercentages : list Z
}.

(** What a run of [processAnswers] leaves behind besides the new state:
    the values of its local variables, the [results] and [eliminated]
    events it emitted, and the callback it scheduled. *)
Record RoundOutput := {
  round_eliminated : list string;
  round_survivors : list string;
  round_answerCounts : AnswerCounts;
  round_totalAnswers : Z;
  ghostsEliminated : Z;
  results : ResultsEvent;
  eliminatedEvents : list (string * Result);
  scheduled : Scheduled
}.

(** The second [eliminated.forEach]: the [eliminated] event of one player. *)
Definition eliminated_event (pos gn : Z) (g : GameState) (playerId : string)
  : list (string * Result) :=
  match players_get playerId (players g) with
  | Some player =>
      if negb (leftGame player)
      then [(playerId,
             {| position := pos; totalPlayers := totalParticipants g;
                questionsCorrect := correctAnswers player; gameNumber := gn |})]
      else []
  | None => []
  end.

(** [processAnswers]: [r] is the draw of the pass rate, [wrongDraw i] the
    draw of the i-th wrong ghost vote.  The result is [None] when there is
    no question under the cursor: [question.answers] then throws before
    anything is written. *)
Definition processAnswers (gn : Z) (r : Rand) (wrongDraw : nat → Rand) (w : World)
  : option (World * RoundOutput) :=
  let g := gameState w in
  match (if currentQuestion g <? 0 then None
         else questions g !! Z.to_nat (currentQuestion g)) with
  | None => None
  | Some q =>
      let ci := indexOf (correct q) (answers q) in
      let t := fold_left (tally_player ci) (players g) tally0 in
      let ps1 := map (judge ci) (players g) in
      let questionNumber := currentQuestion g + 1 in
      let rate := correctRate questionNumber r in
      let ghostsAnsweringCorrect := Math_floor (inject_Z (aliveGhosts g) * rate) in
      let ghostsAnsweringWrong := aliveGhosts g - ghostsAnsweringCorrect in
      let votes :=
        ghost_votes ci ghostsAnsweringCorrect ghostsAnsweringWrong wrongDraw
          (answerCounts t, totalAnswers t) in
      let c2 := fst votes in
      let n2 := snd votes in
      let g1 := set_aliveGhosts ghostsAnsweringCorrect (set_players ps1 g) in
      let percentages := map (percentage n2) (slots c2) in
      let alivePlayers := Z.of_nat (length (List.filter active ps1)) in
      let nElim := Z.of_nat (length (eliminated t)) in
      let w1 := with_gameState g1 w in
      let w2 := fold_left (save_elimination (alivePlayers + nElim) gn) (eliminated t) w1 in
      let w3 := fold_left save_survivor (survivors t) w2 in
      let g3 := gameState w3 in
      let res :=
        {| correctIndex := ci;
           results_eliminated := nElim + ghostsAnsweringWrong;
           results_remaining := alivePlayers + aliveGhosts g3;
           results_totalPlayers := totalParticipants g3;
           answerPercentages := percentages |} in
      let evs :=
        flat_map
          (eliminated_event
             (alivePlayers + aliveGhosts g3 + nElim + ghostsAnsweringWrong) gn g3)
          (eliminated t) in
      let totalRemaining := alivePlayers + aliveGhosts g3 in
      let out (s : Scheduled) :=
        {| round_eliminated := eliminated t; round_survivors := survivors t;
           round_answerCounts := c2; round_totalAnswers := n2;
           ghostsEliminated := ghostsAnsweringWrong;
           results := res; eliminatedEvents := evs; scheduled := s |} in
      if (9 <=? currentQuestion g3) || (totalRemaining <=? 1)
      then Some (w3, out ThenEndGame)
      else Some (with_gameState (set_currentQuestion (currentQuestion g3 + 1) g3) w3,
                 out ThenNextQuestion)
  end.

(** The callback that [processAnswers] put on the timer queue. *)
Definition intermission (s : Scheduled) (gn : Z) (w : World) : World :=
  match s with
  | ThenEndGame => endGame gn w
  | ThenNextQuestion => nextQuestion gn w
  end.

(** ** The server as a transition system *)

(** One constructor per handler: the socket events of a session, the cron
    jobs, the resumptions of [startGame] and the timer callbacks, each with
    the values it reads from the clock, the disk and [Math.random]. *)
Inductive Event :=
  | Listen (r : Rand) (today : string) (saved : option TodayPlayers)
  | Midnight (today : string)
  | Connect (sid : string)
  | Identify (sid : string) (pid : option string) (today : string)
  | Disconnect (sid : string)
  | LeaveGame (sid : string)
  | SubmitAnswer (sid : string) (answerIndex : option Z)
  | CreateParty (sid : string) (name_arg : option string) (now : Z)
      (draws : list (nat → Rand))
  | JoinParty (sid : string) (code_arg name_arg : option string)
  | LeaveParty (sid : string)
  | AutoStart
  | QuestionsFetched (qs : list Question)
  | CountdownDone (gn : Z)
  | RoundTimeout (gn : Z) (r : Rand) (wrongDraw : nat → Rand)
  | IntermissionOver (s : Scheduled) (gn : Z)
  | ResetTimeout (r : Rand).

(** The state after a handler has run; [None] when it throws or, for
    [createParty], when the supplied draws do not end its loop. *)
Definition step (e : Event) (w : World) : option World :=
  match e with
  | Listen r today saved => Some (listen r today saved w)
  | Midnight today => Some (midnightReset today w)
  | Connect sid => Some (connect sid w)
  | Identify sid pid today => Some (identify sid pid today w)
  | Disconnect sid => Some (disconnect sid w)
  | LeaveGame sid => Some (leaveGame sid w)
  | SubmitAnswer sid a => Some (submitAnswer sid a w)
  | CreateParty sid n now draws => fst <$> createParty sid n now draws w
  | JoinParty sid c n => Some (fst (joinParty sid c n w))
  | LeaveParty sid => Some (leaveParty sid w)
  | AutoStart => Some (autoStartGame w)
  | QuestionsFetched qs => Some (startGame_fetched qs w)
  | CountdownDone gn => Some (startGame_countdownDone gn w)
  | RoundTimeout gn r wrongDraw => fst <$> processAnswers gn r wrongDraw w
  | IntermissionOver s gn => Some (intermission s gn w)
  | ResetTimeout r => Some (resetGame r w)
  end.

Fixpoint run (es : list Event) (w : World) : option World :=
  match es with
  | [] => Some w
  | e :: es' =>
      match step e w with
      | Some w' => run es' w'
      | None => None
      end
  end.

(** The globals as the module initialises them. *)
Definition world0 : World :=
  {| gameState :=
       {| gstatus := waiting; players := []; currentQuestion := 0; questions := [];
          totalParticipants := 0; waitingCount := 0; ghostPlayers := 0;
          aliveGhosts := 0 |};
     parties := ∅;
     todayPlayers := {| date := None; ledger := ∅ |} |}.

(** The states the server can be in: those a sequence of handler runs leads
    to.  The order in which timers fire is not constrained here, so this
    includes every state of an actual execution. *)
Definition reachable (w : World) : Prop := ∃ es, run es world0 = Some w.

(** ** Predicates of the specification *)

(** No party is filed under the empty code, and whoever is on the roster of
    the party filed under [c] is a session whose stored party code is [c]:
    a session is then on at most one roster. *)
Definition one_party_each (w : World) : Prop :=
  parties w !! EmptyString = None ∧
  ∀ sid c party,
    parties w !! c = Some party →
    is_member sid (members party) = true →
    ∃ p, players_get sid (players (gameState w)) = Some p ∧ partyCode p = Some c.

Definition in_no_party (sid : string) (w : World) : Prop :=
  ∀ c party, parties w !! c = Some party → is_member sid (members party) = false.

(** The membership operations of a session. *)
Inductive PartyOp :=
  | OpCreate (name_arg : option string) (now : Z) (draws : list (nat → Rand))
  | OpJoin (code_arg name_arg : option string)
  | OpLeave
  | OpDisconnect.

Definition party_event (sid : string) (op : PartyOp) : Event :=
  match op with
  | OpCreate n now draws => CreateParty sid n now draws
  | OpJoin c n => JoinParty sid c n
  | OpLeave => LeaveParty sid
  | OpDisconnect => Disconnect sid
  end.

Definition adds_member (op : PartyOp) : bool :=
  match op with
  | OpCreate _ _ _ | OpJoin _ _ => true
  | OpLeave | OpDisconnect => false
  end.

(** A display name that the validation turns down: absent, blank, longer
    than ten characters, or profane. *)
Definition name_rejected (name_arg : option string) : Prop :=
  match name_arg with
  | None => True
  | Some dn =>
      trim dn = EmptyString ∨ (10 < String.length dn)%nat ∨ containsProfanity dn = true
  end.

(** A join request that the validation turns down. *)
Definition join_rejected (sid : string) (code_arg name_arg : option string)
    (w : World) : Prop :=
  name_rejected name_arg ∨
  match code_arg with
  | None => True
  | Some c0 =>
      c0 = EmptyString ∨
      match parties w !! toUpperCase c0 with
      | None => True
      | Some party =>
          (5 ≤ length (members party))%nat ∨ is_member sid (members party) = true
      end
  end.

(** The answers a client may send: none, or one of the four indices. *)
Definition answer_in_range (a : option Z) : Prop :=
  match a with
  | Some i => 0 ≤ i < 4
  | None => True
  end.

Definition event_in_range (e : Event) : Prop :=
  match e with
  | SubmitAnswer _ a => answer_in_range a
  | _ => True
  end.

(** Every answer slot is empty or holds one of the four indices. *)
Definition answers_ok (w : World) : Prop :=
  Forall (λ p, answer_in_range (currentAnswer p)) (players (gameState w)).

(** A question whose correct answer is one of its four answers. *)
Definition well_formed (q : Question) : Prop :=
  length (answers q) = 4%nat ∧ correct q ∈ answers q.

(** The identity under which a session's result is filed. *)
Definition carries (x : string) (p : Player) : Prop :=
  if_truthy (persistentId p) = Some x.

(** The event happens on the day of the ledger, in the run of the server
    that wrote it: not the start of the process, not the midnight job, and
    an identification only when the clock still shows the ledger's date. *)
Definition same_day (e : Event) (w : World) : Prop :=
  match e with
  | Listen _ _ _ | Midnight _ => False
  | Identify _ _ today => date (todayPlayers w) = Some today
  | _ => True
  end.

(** Who is left in the game: the real participants still in it and the
    ghosts still alive. *)
Definition remaining (w : World) : Z :=
  count_players active (players (gameState w)) + aliveGhosts (gameState w).

(** A player without its record of the day: the fields that filing a
    result does not write. *)
Definition core (p : Player) : Player :=
  set_todayResult None (set_hasPlayedToday false p).

Definition sum_list (l : list Z) : Z := foldr Z.add 0 l.

(** Every vote counted so far fell on one of the four options: nothing was
    written outside the four slots, and the slots add up to the total. *)
Definition tidy (votes : AnswerCounts * Z) : Prop :=
  stray (fst votes) = [] ∧ length (slots (fst votes)) = 4%nat ∧
  sum_list (slots (fst votes)) = snd votes.

(** The handlers that file results in the ledger: [processAnswers], and
    [endGame], which runs as a scheduled callback or straight from
    [nextQuestion]. *)
Definition files_results (e : Event) : bool :=
  match e with
  | RoundTimeout _ _ _ | IntermissionOver _ _ | CountdownDone _ => true
  | _ => false
  end.

(** The pass-rate bands of the specification, by round number. *)
Definition band (questionNumber : Z) : Q * Q :=
  if questionNumber <=? 3 then ((90 # 100), (95 # 100))%Q
  else if questionNumber <=? 6 then ((65 # 100), (75 # 100))%Q
  else ((20 # 100), (40 # 100))%Q.

(** The events that open a game cycle with a fresh ghost population. *)
Definition resamples_ghosts (e : Event) : bool :=
  match e with
  | Listen _ _ _ | ResetTimeout _ => true
  | _ => false
  end.

(** ** Sample data *)

(** A profanity filter that flags nothing. *)
Definition no_filter : string → bool := λ _, false.

Definition draw0 : Rand := {| rnd := 0; rnd_ok := eq_refl |}.
Definition draw_half : Rand := {| rnd := 1 # 2; rnd_ok := eq_refl |}.

Definition sample_member (sid dn : string) : Member :=
  {| socketId := sid; displayName := dn; status := member_waiting;
     eliminatedOnQuestion := None |}.

Definition lobby (ps : list Player) (pts : gmap string Party) : World :=
  {| gameState :=
       {| gstatus := waiting; players := ps; currentQuestion := 0; questions := [];
          totalParticipants := 0; waitingCount := 0; ghostPlayers := 0;
          aliveGhosts := 0 |};
     parties := pts;
     todayPlayers := {| date := None; ledger := ∅ |} |}.

(** Session s1 after it has created the party AAAAAA. *)
Definition ann_party : Party :=
  {| code := "AAAAAA"; members := [sample_member "s1" "Ann"]; createdAt := 0 |}.

Definition ann_in_party : World :=
  lobby [set_party (Some "AAAAAA") (Some "Ann") (new_player "s1")]
        {[ "AAAAAA" := ann_party ]}.

(** A party of five and a sixth session that is in no party. *)
Definition five_party : Party :=
  {| code := "AAAAAA";
     members := [sample_member "s1" "Ann"; sample_member "s2" "Bob";
                 sample_member "s3" "Cy"; sample_member "s4" "Dee";
                 sample_member "s5" "Eve"];
     createdAt := 0 |}.

Definition full_house : World :=
  lobby [set_party (Some "AAAAAA") (Some "Ann") (new_player "s1");
         set_party (Some "AAAAAA") (Some "Bob") (new_player "s2");
         set_party (Some "AAAAAA") (Some "Cy") (new_player "s3");
         set_party (Some "AAAAAA") (Some "Dee") (new_player "s4");
         set_party (Some "AAAAAA") (Some "Eve") (new_player "s5");
         new_player "s6"]
        {[ "AAAAAA" := five_party ]}.

(** A session that was eliminated on the second question of game 3, in a
    party, when the game is over. *)
Definition sample_result : Result :=
  {| position := 7; totalPlayers := 100; questionsCorrect := 1; gameNumber := 3 |}.

Definition eliminated_ann : Player :=
  {| id := "s1"; persistentId := Some "ann"; name := "Anonymous"; alive := false;
     currentAnswer := Some 2; correctAnswers := 1; hasPlayedToday := true;
     todayResult := Some sample_result; partyCode := Some "AAAAAA";
     partyDisplayName := Some "Ann"; ready := true; leftGame := false;
     participatedInGame := true |}.

Definition game_over : World :=
  {| gameState :=
       {| gstatus := finished; players := [eliminated_ann]; currentQuestion := 9;
          questions := []; totalParticipants := 100; waitingCount := 0;
          ghostPlayers := 99; aliveGhosts := 3 |};
     parties := {[ "AAAAAA" := ann_party ]};
     todayPlayers :=
       {| date := Some "Tue Nov 03 2026";
          ledger := {[ "ann" := {| hasPlayed := true; result := sample_result |} ]} |} |}.

Definition sample_day : string := "Tue Nov 03 2026".

Definition make_question (q c : string) (a : list string) (d cat : string) : Question :=
  {| question := q; correct := c; answers := a; difficulty := d; category := cat |}.

(** The questions of [getEmergencyQuestions], the answers in the order in
    which the source lists them (one outcome of [shuffleArray]). *)
Definition emergency_questions : list Question :=
  [make_question "What color is the sky?" "Blue" ["Blue"; "Green"; "Red"; "Yellow"]
     "EASY" "General";
   make_question "How many days in a week?" "7" ["5"; "6"; "7"; "8"] "EASY" "General";
   make_question "What is 2 + 2?" "4" ["3"; "4"; "5"; "6"] "EASY" "Math";
   make_question "Capital of France?" "Paris" ["Paris"; "London"; "Berlin"; "Madrid"]
     "MEDIUM" "Geography";
   make_question "Who painted Mona Lisa?" "Da Vinci"
     ["Da Vinci"; "Picasso"; "Van Gogh"; "Monet"] "MEDIUM" "Art";
   make_question "Year WW2 ended?" "1945" ["1943"; "1944"; "1945"; "1946"]
     "MEDIUM" "History";
   make_question "Smallest prime number?" "2" ["1"; "2"; "3"; "5"] "HARD" "Math";
   make_question "Element with atomic number 79?" "Gold"
     ["Silver"; "Gold"; "Platinum"; "Mercury"] "HARD" "Science";
   make_question "Bones in adult human?" "206" ["206"; "215"; "195"; "226"]
     "HARD" "Science";
   make_question "Capital of Kazakhstan?" "Astana"
     ["Almaty"; "Astana"; "Bishkek"; "Tashkent"] "HARD" "Geography"].

(** The server starts with 100 ghosts, two sessions connect and identify
    themselves as [ida] and [idb], and game 15 starts on the emergency
    questions. *)
Definition start_events (ida idb : string) : list Event :=
  [Listen draw_half sample_day None; Connect "sa"; Connect "sb";
   Identify "sa" (Some ida) sample_day; Identify "sb" (Some idb) sample_day;
   AutoStart; QuestionsFetched emergency_questions; CountdownDone 15].

(** First question (the correct index is 0): sa answers 0, sb answers 1. *)
Definition first_round_events : list Event :=
  (start_events "A" "B" ++ [SubmitAnswer "sa" (Some 0); SubmitAnswer "sb" (Some 1)])%list.

(** The same, but sb sends the index 7. *)
Definition stray_answer_events : list Event :=
  (start_events "A" "B" ++ [SubmitAnswer "sa" (Some 0); SubmitAnswer "sb" (Some 7)])%list.

(** Both sessions give the identity A.  sa fails the first question and sb
    the second one (whose correct index is 2). *)
Definition shared_identity_round1 : list Event :=
  (start_events "A" "A" ++
   [SubmitAnswer "sa" (Some 1); SubmitAnswer "sb" (Some 0);
    RoundTimeout 15 draw_half (λ _, draw0)])%list.

Definition shared_identity_round2 : list Event :=
  [IntermissionOver ThenNextQuestion 15; SubmitAnswer "sb" (Some 0);
   RoundTimeout 15 draw_half (λ _, draw0)].

(** An active participant of the current game, with its answer. *)
Definition contestant (sid : string) (correctSoFar : Z) (a : option Z) : Player :=
  {| id := sid; persistentId := None; name := "Anonymous"; alive := true;
     currentAnswer := a; correctAnswers := correctSoFar; hasPlayedToday := true;
     todayResult := None; partyCode := None; partyDisplayName := None;
     ready := true; leftGame := false; participatedInGame := true |}.

Definition tenth_question (ps : list Player) (ghosts : Z) : World :=
  {| gameState :=
       {| gstatus := playing; players := ps; currentQuestion := 9;
          questions := emergency_questions; totalParticipants := 108;
          waitingCount := 0; ghostPlayers := 100; aliveGhosts := ghosts |};
     parties := ∅;
     todayPlayers := {| date := Some sample_day; ledger := ∅ |} |}.

(** The tenth question (its correct index is 1) with two real participants
    who both answer 1, and two ghosts left. *)
Definition two_survivors : World :=
  tenth_question [contestant "sa" 9 (Some 1); contestant "sb" 9 (Some 1)] 2.

(** The tenth question with eight real participants and no ghost left: one
    vote each for the indices 0, 2 and 3, five votes for index 1. *)
Definition eight_votes : World :=
  tenth_question
    [contestant "s1" 9 (Some 0); contestant "s2" 9 (Some 2);
     contestant "s3" 9 (Some 3); contestant "s4" 9 (Some 1);
     contestant "s5" 9 (Some 1); contestant "s6" 9 (Some 1);
     contestant "s7" 9 (Some 1); contestant "s8" 9 (Some 1)] 0.

(** ** The question provider *)

(** The destructuring assignment
    [[newArray[i], newArray[j]] = [newArray[j], newArray[i]]].  Both indices
    are inside the array wherever [shuffleArray] uses it. *)
Definition swap {A} (i j : nat) (l : list A) : list A :=
  match l !! i, l !! j with
  | Some x, Some y => <[j := x]> (<[i := y]> l)
  | _, _ => l
  end.

(** The loop of [shuffleArray] from index [i] down to 1; [draw k] is the
    result of the k-th call of [Math.random]. *)
Fixpoint shuffle_from {A} (i k : nat) (draw : nat → Rand) (newArray : list A)
  : list A :=
  match i with
  | O => newArray
  | S i' =>
      let j := Z.to_nat (Math_floor (rnd (draw k) * inject_Z (Z.of_nat (i + 1)))) in
      shuffle_from i' (S k) draw (swap i j newArray)
  end.

Definition shuffleArray {A} (draw : nat → Rand) (array : list A) : list A :=
  shuffle_from (length array - 1) 0 draw array.

Definition set_answers (a : list string) (q : Question) : Question :=
  {| question := question q; correct := correct q; answers := a;
     difficulty := difficulty q; category := category q |}.

(** [getEmergencyQuestions]; [draws n] are the draws that the shuffle of
    the n-th question consumes. *)
Definition getEmergencyQuestions (draws : nat → nat → Rand) : list Question :=
  imap (λ n q, set_answers (shuffleArray (draws n) (answers q)) q) emergency_questions.

(** [Array.prototype.sort] with a comparator: the sort is stable, so with a
    comparator that compares keys the outcome is the one that insertion from
    the right produces. *)
Fixpoint insert_by {A} (cmp : A → A → Z) (x : A) (l : list A) : list A :=
  match l with
  | [] => [x]
  | y :: l' => if 0 <? cmp x y then y :: insert_by cmp x l' else x :: l
  end.

Definition sort_by {A} (cmp : A → A → Z) (l : list A) : list A :=
  foldr (insert_by cmp) [] l.

(** An element of the response of the trivia API, with the three
    difficulties that the request asks for. *)
Inductive ApiDifficulty := easy | medium | hard.

Record ApiQuestion := {
  api_text : string;
  correctAnswer : string;
  incorrectAnswers : list string;
  api_difficulty : ApiDifficulty;
  api_category : string
}.

(** [const order = { easy: 0, medium: 1, hard: 2 }] *)
Definition order (d : ApiDifficulty) : Z :=
  match d with
  | easy => 0
  | medium => 1
  | hard => 2
  end.

Definition by_difficulty (a b : ApiQuestion) : Z :=
  order (api_difficulty a) - order (api_difficulty b).

(** The difficulty that [fetchDailyQuestions] gives to the question at
    [index], whatever the API said. *)
Definition tier (index : nat) : string :=
  if (index <? 3)%nat then "EASY"
  else if (index <? 6)%nat then "MEDIUM"
  else "HARD".

Definition format_question (draw : nat → Rand) (index : nat) (q : ApiQuestion)
  : Question :=
  {| question := api_text q;
     correct := correctAnswer q;
     answers := shuffleArray draw (correctAnswer q :: incorrectAnswers q);
     difficulty := tier index;
     category := api_category q |}.

(** The sort and the [map] of [fetchDailyQuestions]. *)
Definition format_questions (draws : nat → nat → Rand) (data : list ApiQuestion)
  : list Question :=
  imap (λ index q, format_question (draws index) index q) (sort_by by_difficulty data).

(** The global [dailyQuestions]. *)
Record DailyQuestions := {
  dq_date : option string;
  dq_questions : list Question
}.

(** What a call of [fetchDailyQuestions] returns, the global after it, and
    what it wrote to daily-questions.json. *)
Record Fetched := {
  fetched : list Question;
  cache : DailyQuestions;
  written : option DailyQuestions
}.

(** The [catch] branch of [fetchDailyQuestions]: the backup file if it can
    be read, the emergency questions otherwise. *)
Definition fetch_fallback (backup : option DailyQuestions)
    (emergencyDraws : nat → nat → Rand) (dq : DailyQuestions) : Fetched :=
  match backup with
  | Some saved => {| fetched := dq_questions saved; cache := saved; written := None |}
  | None => {| fetched := getEmergencyQuestions emergencyDraws; cache := dq;
               written := None |}
  end.

(** [fetchDailyQuestions].  [response] is the array that the API returned,
    [None] when the request failed or the answer was not an array;
    [write_ok] tells whether [writeFileSync] succeeded; [backup] is what
    daily-questions.json holds when the [catch] branch reads it. *)
Definition fetchDailyQuestions (today : string) (response : option (list ApiQuestion))
    (write_ok : bool) (backup : option DailyQuestions)
    (draws emergencyDraws : nat → nat → Rand) (dq : DailyQuestions) : Fetched :=
  if decide (dq_date dq = Some today) then
    {| fetched := dq_questions dq; cache := dq; written := None |}
  else
    match response with
    | Some data =>
        let dq1 := {| dq_date := Some today;
                      dq_questions := format_questions draws data |} in
        if write_ok
        then {| fetched := dq_questions dq1; cache := dq1; written := Some dq1 |}
        else fetch_fallback backup emergencyDraws dq1
    | None => fetch_fallback backup emergencyDraws dq
    end.

(** [initializeDailyQuestions]; [file] is what daily-questions.json holds
    at the start of the server. *)
Definition initializeDailyQuestions (today : string) (file : option DailyQuestions)
    (response : option (list ApiQuestion)) (write_ok : bool)
    (backup : option DailyQuestions) (draws emergencyDraws : nat → nat → Rand)
    (dq : DailyQuestions) : DailyQuestions :=
  match file with
  | Some saved =>
      if decide (dq_date saved = Some today) then saved
      else cache (fetchDailyQuestions today response write_ok backup draws
                    emergencyDraws dq)
  | None =>
      cache (fetchDailyQuestions today response write_ok backup draws emergencyDraws dq)
  end.

(** ** The end of the game *)

Record Winner := {
  winner_id : string;
  winner_name : string;
  winner_correct : Z
}.

Record LeaderboardEntry := {
  entry_position : Z;
  entry_name : string;
  entry_correct : Z;
  entry_alive : bool
}.

(** The comparator of the leaderboard: more correct answers first, and
    among equals the players still alive first. *)
Definition leaderboard_cmp (a b : Player) : Z :=
  if decide (correctAnswers b ≠ correctAnswers a)
  then correctAnswers b - correctAnswers a
  else (if alive b then 1 else 0) - (if alive a then 1 else 0).

Definition leaderboard (ps : list Player) : list LeaderboardEntry :=
  imap (λ i p, {| entry_position := Z.of_nat i + 1; entry_name := name p;
                  entry_correct := correctAnswers p; entry_alive := alive p |})
       (take 10 (sort_by leaderboard_cmp (List.filter participatedInGame ps))).

(** The payload of the [gameOver] event. *)
Record GameOver := {
  over_winners : list Winner;
  over_leaderboard : list LeaderboardEntry;
  over_gameNumber : Z;
  over_totalParticipants : Z;
  over_finalQuestion : Z
}.

(** What [endGame] broadcasts when it runs in state [w]. *)
Definition gameOverData (gn : Z) (w : World) : GameOver :=
  let g := gameState w in
  {| over_winners :=
       map (λ p, {| winner_id := id p; winner_name := name p;
                    winner_correct := correctAnswers p |})
           (List.filter active (players g));
     over_leaderboard := leaderboard (players g);
     over_gameNumber := gn;
     over_totalParticipants := totalParticipants g;
     over_finalQuestion := currentQuestion g + 1 |}.

(** ** More predicates *)

(** Every character of [s] is one of [chars]. *)
Definition in_alphabet (s : string) : Prop :=
  ∀ a, a ∈ list_ascii_of_string s → a ∈ list_ascii_of_string chars.

(** The party registry is in order: every party is filed under its own,
    non-empty code and has between one and five members, no session twice. *)
Definition registry_ok (ps : gmap string Party) : Prop :=
  ∀ c party,
    ps !! c = Some party →
    code party = c ∧ c ≠ EmptyString ∧
    (1 ≤ length (members party) ≤ 5)%nat ∧
    NoDup (map socketId (members party)).

Definition parties_ok (w : World) : Prop := registry_ok (parties w).

(** The sessions that [startGame] enrols. *)
Definition eligible (p : Player) : bool :=
  negb (hasPlayedToday p) && negb (leftGame p).

(** The participants of a round that gave the correct index, and those that
    gave another answer or none. *)
Definition answered_right (ci : Z) (p : Player) : bool :=
  active p && bool_decide (currentAnswer p = Some ci).

Definition answered_wrong (ci : Z) (p : Player) : bool :=
  active p && negb (bool_decide (currentAnswer p = Some ci)).

(** The participants of a round that gave an answer at all. *)
Definition answered (p : Player) : bool :=
  active p && bool_decide (currentAnswer p ≠ None).

(** The party-status updates of one of the loops of [processAnswers] over
    [ids], when [lookup] finds the players. *)
Definition mark_all (lookup : string → option Player) (f : Member → Member)
    (ids : list string) (ps : gmap string Party) : gmap string Party :=
  fold_left
    (λ ps playerId,
       match lookup playerId with
       | Some player => mark_member player f ps
       | None => ps
       end) ids ps.

(** The order of the leaderboard. *)
Definition ranks_before (a b : LeaderboardEntry) : Prop :=
  entry_correct b < entry_correct a ∨
  (entry_correct b = entry_correct a ∧ (entry_alive b = true → entry_alive a = true)).

(** The events of a session that replace or remove its player object. *)
Definition renews (sid : string) (e : Event) : Prop :=
  e = Connect sid ∨ e = Disconnect sid.

(** [party.members.find(m => m.socketId === sid)] *)
Fixpoint members_find (sid : string) (ms : list Member) : option Member :=
  match ms with
  | [] => None
  | m :: ms' => if decide (socketId m = sid) then Some m else members_find sid ms'
  end.

(** The roster entry of session [sid] in the party filed under [c]. *)
Definition member_of (sid c : string) (ps : gmap string Party) : option Member :=
  match ps !! c with
  | Some party => members_find sid (members party)
  | None => None
  end.

(** The party code that the handlers follow from a session to its party:
    the field [partyCode] of its player object, when that is truthy. *)
Definition party_of (sid : string) (ps : list Player) : option string :=
  match players_get sid ps with
  | Some p => if_truthy (partyCode p)
  | None => None
  end.

(** What a round writes on the roster entry of a session, by the answer
    of the session. *)
Definition roster_mark (ci questionNumber : Z) (p : Player) : Member → Member :=
  if active p then
    if decide (currentAnswer p = Some ci) then member_set_alive
    else member_set_eliminated questionNumber
  else λ m, m.

(** A ledger entry that records a win of game [gn] among [total]. *)
Definition winning_entry (gn total : Z) (e : LedgerEntry) : Prop :=
  hasPlayed e = true ∧ position (result e) = 1 ∧
  totalPlayers (result e) = total ∧ gameNumber (result e) = gn.

(** The entry that a participant has, or would have, on the leaderboard. *)
Definition shows (e : LeaderboardEntry) (p : Player) : Prop :=
  entry_name e = name p ∧ entry_correct e = correctAnswers p ∧ entry_alive e = alive p.

(** The order of the leaderboard, on the players. *)
Definition outranks (a b : Player) : Prop :=
  correctAnswers b < correctAnswers a ∨
  (correctAnswers b = correctAnswers a ∧ (alive b = true → alive a = true)).

(** A field update that keeps the socket id and does not clear [leftGame]. *)
Definition keeps_left (f : Player → Player) : Prop :=
  ∀ q, id (f q) = id q ∧ (leftGame q = true → leftGame (f q) = true).

(** The session [sid] is in the registry and has left the game. *)
Definition has_left (sid : string) (ps : list Player) : Prop :=
  ∃ p, players_get sid ps = Some p ∧ leftGame p = true.

(** The roster entry that [createParty] and [joinParty] make for the
    caller. *)
Definition new_member (sid dn : string) : Member :=
  {| socketId := sid; displayName := dn; status := member_waiting;
     eliminatedOnQuestion := None |}.

(** ** More sample data *)

(** An answer of the trivia API with a hard question before an easy one. *)
Definition sample_response : list ApiQuestion :=
  [{| api_text := "Element with atomic number 79?"; correctAnswer := "Gold";
      incorrectAnswers := ["Silver"; "Platinum"; "Mercury"];
      api_difficulty := hard; api_category := "science" |};
   {| api_text := "What is 2 + 2?"; correctAnswer := "4";
      incorrectAnswers := ["3"; "5"; "6"];
      api_difficulty := easy; api_category := "math" |}].

(** The global [dailyQuestions] as the module initialises it. *)
Definition no_questions : DailyQuestions := {| dq_date := None; dq_questions := [] |}.

(** The file daily-questions.json with the emergency questions, dated
    on the sample day. *)
Definition saved_questions : DailyQuestions :=
  {| dq_date := Some sample_day; dq_questions := emergency_questions |}.

(** A registry in which the code SSSSSS is taken. *)
Definition taken_code : gmap string Party :=
  {[ "SSSSSS" := {| code := "SSSSSS"; members := [sample_member "s1" "Ann"];
                    createdAt := 0 |} ]}.

(** The sample game with a party: sa creates the party SSSSSS and sb joins
    it before the game starts; on the first question (the correct index is
    0) sa answers 0 and sb answers 1. *)
Definition party_round_events : list Event :=
  [Listen draw_half sample_day None; Connect "sa"; Connect "sb";
   Identify "sa" (Some "A") sample_day; Identify "sb" (Some "B") sample_day;
   CreateParty "sa" (Some "Ann") 0 [λ _, draw_half];
   JoinParty "sb" (Some "ssssss") (Some " Bob ");
   AutoStart; QuestionsFetched emergency_questions; CountdownDone 15;
   SubmitAnswer "sa" (Some 0); SubmitAnswer "sb" (Some 1)].

(** What follows the sample game when its only session has left: the
    reset, and the start of another game. *)
Definition next_game_events : list Event :=
  [ResetTimeout draw_half; Midnight "Wed Nov 04 2026";
   Identify "s1" (Some "ann") "Wed Nov 04 2026"; AutoStart;
   QuestionsFetched emergency_questions; CountdownDone 16;
   SubmitAnswer "s1" (Some 0)].

(** The tenth question with one participant left, who has given the
    identity A, and no ghost. *)
Definition finalist : Player := set_persistentId (Some "A") (contestant "sa" 9 (Some 1)).

Definition last_one_standing : World := tenth_question [finalist] 0.

(** A ledger file of the sample day without records. *)
Definition fresh_file : TodayPlayers := {| date := Some sample_day; ledger := ∅ |}.

(** ** The doubles of the machine *)

(** The same quotient and product on the primitive floating-point numbers
    of Rocq, which are the binary64 numbers of the processor, to compare
    [share] with. *)
Definition float_of_Z (z : Z) : PrimFloat.float := PrimFloat.of_uint63 (Uint63.of_Z z).

(** The rational number that a finite double stands for. *)
Definition Q_of_float (f : PrimFloat.float) : Q :=
  match FloatOps.Prim2SF f with
  | SpecFloat.S754_finite sign m e =>
      let v := if 0 <=? e then inject_Z (Z.pos m * 2 ^ e)
               else Qmake (Z.pos m) (Z.to_pos (2 ^ (- e))) in
      if sign then (- v)%Q else v
  | _ => 0%Q
  end.

Definition share_float (total count : Z) : Q :=
  Q_of_float
    (PrimFloat.mul (PrimFloat.div (float_of_Z count) (float_of_Z total))
       (float_of_Z 100)).

(** Every count from 0 to [total]. *)
Definition shares_agree (total : Z) : bool :=
  forallb (λ c, Qeq_bool (share total (Z.of_nat c)) (share_float total (Z.of_nat c)))
          (seq 0 (S (Z.to_nat total))).

(** The shares with a total of 300 at most whose exact percentage is a
    whole number and a half while the double lies below it. *)
Definition shares_below_a_tie : list (Z * Z) :=
  [(23, 40); (46, 80); (69, 120); (92, 160); (29, 200); (57, 200); (113, 200);
   (115, 200); (138, 240); (161, 280)].

(** ** The waiting count *)

(** The waiting count is the number of sessions of the registry that have
    not played today plus the ghost population. *)
Definition recounted (w : World) : Prop :=
  waitingCount (gameState w) =
    realWaiting (players (gameState w)) + ghostPlayers (gameState w).

(** The handlers that count the waiting sessions anew. *)
Definition recounts (e : Event) : bool :=
  match e with
  | Identify _ _ _ | Disconnect _ | ResetTimeout _ => true
  | _ => false
  end.

(** * Properties *)

(** ** The session registry *)

Lemma players_get_map f sid ps :
  (∀ p, id (f p) = id p) →
  players_get sid (map f ps) = f <$> players_get sid ps.
Proof.
  intros Hid. induction ps as [|q ps IH]; simpl; [done|].
  rewrite Hid. destruct (decide (id q = sid)); done.
Qed.

Lemma players_get_update sid sid' f ps :
  (∀ p, id (f p) = id p) →
  players_get sid' (players_update sid f ps) =
    if decide (sid = sid') then f <$> players_get sid' ps else players_get sid' ps.
Proof.
  intros Hid. induction ps as [|q ps IH]; simpl.
  - by case_decide.
  - destruct (decide (id q = sid)) as [Hq|Hq]; simpl.
    + rewrite Hid. repeat case_decide; simplify_eq; done.
    + rewrite IH. repeat case_decide; simplify_eq; done.
Qed.

Lemma players_get_delete sid sid' ps :
  players_get sid' (players_delete sid ps) =
    if decide (sid = sid') then None else players_get sid' ps.
Proof.
  unfold players_delete. induction ps as [|q ps IH]; simpl.
  - by case_decide.
  - rewrite filter_cons. destruct (decide (id q ≠ sid)) as [Hq|Hq]; simpl.
    + rewrite IH. repeat case_decide; simplify_eq; done.
    + rewrite IH. apply dec_stable in Hq.
      repeat case_decide; simplify_eq; done.
Qed.

Lemma string_length_0 s : (String.length s =? 0)%nat = true ↔ s = EmptyString.
Proof. destruct s; simpl; split; intros; congruence. Qed.

(** ** C9: the reset between two games *)

(** C9.  [resetGame] empties the party registry, and for every session it
    sets [ready] to false, [alive] to true, [correctAnswers] to 0 and
    [participatedInGame] to false, while [hasPlayedToday] and [todayResult]
    keep the values they had. *)
Theorem resetGame_resets_but_keeps_daily_record r w sid p :
  players_get sid (players (gameState w)) = Some p →
  parties (resetGame r w) = ∅ ∧
  ∃ p', players_get sid (players (gameState (resetGame r w))) = Some p' ∧
        ready p' = false ∧ alive p' = true ∧ correctAnswers p' = 0 ∧
        participatedInGame p' = false ∧
        hasPlayedToday p' = hasPlayedToday p ∧ todayResult p' = todayResult p.
Proof.
  intros Hget. split; [done|].
  exists (reset_player p). split.
  - unfold resetGame; simpl. rewrite players_get_map by done. by rewrite Hget.
  - by destruct p.
Qed.

(** ** C8: validation failures of the party operations *)

Lemma name_rejected_some dn :
  name_rejected (Some dn) ↔
  (String.length (trim dn) =? 0)%nat = true ∨ (10 <? String.length dn)%nat = true
  ∨ containsProfanity dn = true.
Proof.
  simpl. rewrite string_length_0, Nat.ltb_lt. done.
Qed.

(** C8.  A [createParty] or [joinParty] request that fails validation
    (display name absent, blank, longer than ten characters or profane;
    code absent, empty or not the code of a party; party holding five
    members; caller already on the roster) is answered by an
    acknowledgement with [success] false and an error message, and the
    state stays as it was.  A session that asks, under a valid name, to
    join a party of five members is answered "Party is full (max 5
    members)", and the party keeps its five members. *)
Theorem party_validation_failure_is_soft sid w :
  (∀ n now draws, name_rejected n →
     ∃ ack msg, createParty sid n now draws w = Some (w, ack) ∧
                success ack = false ∧ ack = AckError msg) ∧
  (∀ c n, join_rejected sid c n w →
     ∃ ack msg, joinParty sid c n w = (w, ack) ∧
                success ack = false ∧ ack = AckError msg) ∧
  (∀ c n party,
     is_Some (players_get sid (players (gameState w))) →
     ¬ name_rejected (Some n) → c ≠ EmptyString →
     parties w !! toUpperCase c = Some party → length (members party) = 5%nat →
     joinParty sid (Some c) (Some n) w = (w, AckError "Party is full (max 5 members)") ∧
     length (members party) = 5%nat ∧
     parties (fst (joinParty sid (Some c) (Some n) w)) !! toUpperCase c = Some party).
Proof.
  assert (∀ msg, ∃ ack msg', (w, AckError msg) = (w, ack) ∧
                             success ack = false ∧ ack = AckError msg') as Hj
    by (intros msg; by eexists _, _).
  assert (∀ msg, ∃ ack msg', Some (w, AckError msg) = Some (w, ack) ∧
                             success ack = false ∧ ack = AckError msg') as Hcr
    by (intros msg; by eexists _, _).
  split; [|split].
  - intros n now draws Hrej. unfold createParty.
    destruct (players_get sid _); [|apply Hcr].
    destruct n as [dn|]; [|apply Hcr].
    apply name_rejected_some in Hrej.
    destruct (String.length (trim dn) =? 0)%nat; [apply Hcr|].
    destruct (10 <? String.length dn)%nat; [apply Hcr|].
    destruct (containsProfanity dn); [apply Hcr|].
    destruct Hrej as [?|[?|?]]; done.
  - intros c n Hrej. unfold joinParty.
    destruct (players_get sid _); [|apply Hj].
    destruct n as [dn|]; [|apply Hj].
    destruct (String.length (trim dn) =? 0)%nat eqn:E1; [apply Hj|].
    destruct (10 <? String.length dn)%nat eqn:E2; [apply Hj|].
    destruct (containsProfanity dn) eqn:E3; [apply Hj|].
    destruct Hrej as [Hrej|Hrej].
    { apply name_rejected_some in Hrej. rewrite E1, E2, E3 in Hrej.
      destruct Hrej as [?|[?|?]]; done. }
    destruct c as [c0|]; [|apply Hj].
    destruct (String.eqb_spec c0 EmptyString); [apply Hj|].
    destruct Hrej as [?|Hrej]; [done|].
    destruct (parties w !! toUpperCase c0) as [party|]; [|apply Hj].
    destruct (Nat.leb_spec 5 (length (members party))); [apply Hj|].
    destruct Hrej as [?|Hrej]; [lia|].
    rewrite Hrej. apply Hj.
  - intros c n party [p Hp] Hname Hc Hparty Hlen.
    assert (joinParty sid (Some c) (Some n) w
            = (w, AckError "Party is full (max 5 members)")) as Hjoin.
    { unfold joinParty. rewrite Hp.
      rewrite name_rejected_some in Hname.
      destruct (String.length (trim n) =? 0)%nat; [tauto|].
      destruct (10 <? String.length n)%nat; [tauto|].
      destruct (containsProfanity n); [tauto|].
      destruct (String.eqb_spec c EmptyString); [done|].
      rewrite Hparty, Hlen. done. }
    rewrite Hjoin. done.
Qed.

(** ** Random draws and floors *)

Lemma Rand_range (r : Rand) : (0 <= rnd r)%Q ∧ (rnd r < 1)%Q.
Proof.
  destruct r as [q Hq]; simpl. unfold in_unit in Hq.
  apply andb_true_iff in Hq as [H0 H1].
  apply Qle_bool_iff in H0. split; [done|].
  apply negb_true_iff in H1. apply Qnot_le_lt. intros Hle.
  apply Qle_bool_iff in Hle. congruence.
Qed.

Lemma inject_Z_pos n : 0 < n → (0 < inject_Z n)%Q.
Proof. intros. change 0%Q with (inject_Z 0). by rewrite <- Zlt_Qlt. Qed.

Lemma inject_Z_nonneg n : 0 ≤ n → (0 <= inject_Z n)%Q.
Proof. intros. change 0%Q with (inject_Z 0). by rewrite <- Zle_Qle. Qed.

(** [Math.floor(Math.random() * n)] is an index below [n]. *)
Lemma floor_draw_range (r : Rand) (n : Z) :
  0 < n → 0 ≤ Math_floor (rnd r * inject_Z n) < n.
Proof.
  intros Hn. destruct (Rand_range r) as [H0 H1].
  pose proof (inject_Z_pos n Hn). unfold Math_floor. split.
  - change 0 with (Qfloor 0). apply Qfloor_resp_le. nra.
  - rewrite Zlt_Qlt. eapply Qle_lt_trans; [apply Qfloor_le|]. nra.
Qed.

(** A share [q] of [g] ghosts, rounded down, is between 0 and [g]. *)
Lemma floor_share_range (g : Z) (q : Q) :
  0 ≤ g → (0 <= q)%Q → (q <= 1)%Q → 0 ≤ Math_floor (inject_Z g * q) ≤ g.
Proof.
  intros Hg H0 H1. pose proof (inject_Z_nonneg g Hg). unfold Math_floor. split.
  - change 0 with (Qfloor 0). apply Qfloor_resp_le. nra.
  - rewrite <- (Qfloor_Z g) at 2. apply Qfloor_resp_le. nra.
Qed.

(** ** Party codes *)

Lemma string_get_lt n s : (n < String.length s)%nat → ∃ a, String.get n s = Some a.
Proof.
  revert n. induction s as [|a s IH]; simpl; intros n Hn; [lia|].
  destruct n; [eauto|]. apply IH. lia.
Qed.

Lemma charAt_chars (r : Rand) :
  ∃ a, charAt chars (Math_floor (rnd r * inject_Z (Z.of_nat (String.length chars))))
       = String a EmptyString.
Proof.
  pose proof (floor_draw_range r (Z.of_nat (String.length chars))) as Hr.
  set (i := Math_floor _) in *. unfold charAt.
  assert (0 < Z.of_nat (String.length chars)) as Hpos by (simpl; lia).
  specialize (Hr Hpos).
  destruct (Z.ltb_spec i 0); [lia|].
  destruct (string_get_lt (Z.to_nat i) chars) as [a ->]; [lia|]. eauto.
Qed.

Lemma code_chars_nonempty n i draw : code_chars (S n) i draw ≠ EmptyString.
Proof.
  cbn [code_chars]. destruct (charAt_chars (draw i)) as [a ->]. done.
Qed.

Lemma generatePartyCode_fresh draws ps c :
  generatePartyCode draws ps = Some c → ps !! c = None ∧ c ≠ EmptyString.
Proof.
  induction draws as [|draw rest IH]; cbn [generatePartyCode]; [done|].
  destruct (ps !! code_chars 6 0 draw) eqn:E; [exact IH|].
  intros Hc. assert (c = code_chars 6 0 draw) as -> by congruence.
  split; [done|]. apply code_chars_nonempty.
Qed.

(** ** Rosters *)

Lemma is_member_without sid sid' ms :
  is_member sid (members_without sid' ms) =
    if decide (sid = sid') then false else is_member sid ms.
Proof.
  unfold members_without. induction ms as [|m ms IH]; simpl.
  - by case_decide.
  - rewrite filter_cons. destruct (decide (socketId m ≠ sid')) as [Hm|Hm]; simpl.
    + rewrite IH. case_decide; [|done]. subst.
      by rewrite bool_decide_eq_false_2.
    + rewrite IH. apply dec_stable in Hm. case_decide; [done|].
      rewrite bool_decide_eq_false_2; [done|congruence].
Qed.

Lemma is_member_snoc sid ms m :
  is_member sid (ms ++ [m]) = is_member sid ms || bool_decide (socketId m = sid).
Proof.
  unfold is_member. rewrite existsb_app. simpl. by rewrite orb_false_r.
Qed.

Lemma remove_from_party_lookup sid c ps c' party' :
  remove_from_party sid c ps !! c' = Some party' →
  ∃ party, ps !! c' = Some party ∧
    ∀ s, is_member s (members party') =
         if decide (c' = c) then
           if decide (s = sid) then false else is_member s (members party)
         else is_member s (members party).
Proof.
  unfold remove_from_party. destruct (ps !! c) as [party|] eqn:E.
  - destruct (length (members_without sid (members party)) =? 0)%nat.
    + rewrite lookup_delete. case_decide; [done|]. intros H'.
      exists party'. split; [done|]. intros s. by rewrite decide_False by done.
    + rewrite lookup_insert. case_decide as Hc.
      * intros [= <-]. subst c'. exists party. split; [done|]. intros s.
        rewrite decide_True by done. simpl. apply is_member_without.
      * intros H'. exists party'. split; [done|]. intros s.
        by rewrite decide_False by done.
  - intros H'. exists party'. split; [done|]. intros s.
    case_decide; [congruence|done].
Qed.

(** A session whose stored party code is falsy is on no roster. *)
Lemma one_party_each_not_member w sid :
  one_party_each w →
  (∀ p, players_get sid (players (gameState w)) = Some p → truthy (partyCode p) = false) →
  in_no_party sid w.
Proof.
  intros [Hempty Hinv] Hp c party Hc.
  destruct (is_member sid (members party)) eqn:E; [|done].
  destruct (Hinv _ _ _ Hc E) as (p & Hget & Hcode).
  specialize (Hp p Hget). rewrite Hcode in Hp. simpl in Hp.
  apply negb_false_iff, String.eqb_eq in Hp. congruence.
Qed.

(** ** C7: a session is on at most one roster *)

Lemma leave_keeps_one_party_each sid w p c :
  one_party_each w →
  players_get sid (players (gameState w)) = Some p →
  partyCode p = Some c →
  let ps' := remove_from_party sid c (parties w) in
  ps' !! EmptyString = None ∧
  ∀ sid' c' party',
    ps' !! c' = Some party' → is_member sid' (members party') = true →
    sid' ≠ sid ∧
    ∃ p', players_get sid' (players (gameState w)) = Some p' ∧ partyCode p' = Some c'.
Proof.
  intros [Hempty Hinv] Hget Hcode ps'. split.
  - destruct (ps' !! EmptyString) as [party'|] eqn:E; [|done].
    apply remove_from_party_lookup in E as (party & E & _). congruence.
  - intros sid' c' party' Hc' Hmem.
    apply remove_from_party_lookup in Hc' as (party & Hc' & Hms).
    rewrite Hms in Hmem.
    assert (is_member sid' (members party) = true) as Hold.
    { repeat case_decide; done. }
    destruct (Hinv _ _ _ Hc' Hold) as (p' & Hget' & Hcode').
    split; [|eauto].
    intros ->. rewrite Hget in Hget'. injection Hget' as <-.
    rewrite Hcode in Hcode'. injection Hcode' as <-.
    rewrite decide_True in Hmem by done. by rewrite decide_True in Hmem.
Qed.

Lemma disconnect_players sid w :
  players (gameState (disconnect sid w)) = players_delete sid (players (gameState w)).
Proof.
  unfold disconnect. simpl. destruct (players_get sid _); [|done]. by case_match.
Qed.

Lemma disconnect_parties sid w :
  parties (disconnect sid w) =
    match players_get sid (players (gameState w)) with
    | Some p =>
        if truthy (partyCode p) then
          match partyCode p with
          | Some c => remove_from_party sid c (parties w)
          | None => parties w
          end
        else parties w
    | None => parties w
    end.
Proof. done. Qed.

(** C7, as the code has it.  [leaveParty] and the disconnect handler keep
    the invariant that nobody is on the roster of a party other than the
    one its stored party code names; [createParty] and [joinParty] keep it
    when the caller is on no roster at the time of the call. *)
Theorem membership_ops_keep_one_party_each sid op w w' :
  one_party_each w →
  (adds_member op = true → in_no_party sid w) →
  step (party_event sid op) w = Some w' →
  one_party_each w'.
Proof.
  intros Hinv Hfree Hstep. pose proof Hinv as [Hempty Hroster].
  destruct op as [n now draws | c0 n | | ]; simpl in Hstep.
  - (* createParty *)
    specialize (Hfree eq_refl). unfold createParty in Hstep.
    destruct (players_get sid _) as [p|] eqn:Hget; [|by simplify_eq/=].
    destruct n as [dn|]; [|by simplify_eq/=].
    destruct (String.length (trim dn) =? 0)%nat; [by simplify_eq/=|].
    destruct (10 <? String.length dn)%nat; [by simplify_eq/=|].
    destruct (containsProfanity dn); [by simplify_eq/=|].
    destruct (generatePartyCode draws (parties w)) as [c|] eqn:Hgen; [|done].
    apply generatePartyCode_fresh in Hgen as [Hfresh Hc].
    simpl in Hstep. injection Hstep as <-. split; simpl.
    + by rewrite lookup_insert_ne.
    + intros sid' c' party'. rewrite lookup_insert. case_decide as Hcc.
      * intros [= <-]. subst c'. simpl. rewrite orb_false_r.
        intros Hs%bool_decide_eq_true. subst sid'.
        rewrite players_get_update by done. rewrite decide_True by done.
        rewrite Hget. simpl. eauto.
      * intros Hc' Hmem. destruct (Hroster _ _ _ Hc' Hmem) as (p' & Hget' & Hcode').
        rewrite players_get_update by done. case_decide; [|eauto].
        subst sid'. rewrite (Hfree _ _ Hc') in Hmem. done.
  - (* joinParty *)
    specialize (Hfree eq_refl). injection Hstep as <-. unfold joinParty.
    destruct (players_get sid _) as [p|] eqn:Hget; [|done].
    destruct n as [dn|]; [|done].
    destruct (String.length (trim dn) =? 0)%nat; [done|].
    destruct (10 <? String.length dn)%nat; [done|].
    destruct (containsProfanity dn); [done|].
    destruct c0 as [c0|]; [|done].
    destruct (String.eqb c0 EmptyString); [done|].
    destruct (parties w !! toUpperCase c0) as [party|] eqn:Hparty; [|done].
    destruct (5 <=? length (members party))%nat; [done|].
    destruct (is_member sid (members party)); [done|]. simpl.
    split; simpl.
    + rewrite lookup_insert_ne; [done|]. intros Heq. rewrite Heq in Hparty. congruence.
    + intros sid' c' party'. rewrite lookup_insert. case_decide as Hcc.
      * intros [= <-]. subst c'. simpl. rewrite is_member_snoc. simpl.
        rewrite players_get_update by done.
        intros [Hold|Hs%bool_decide_eq_true]%orb_true_iff.
        -- destruct (Hroster _ _ _ Hparty Hold) as (p' & Hget' & Hcode').
           case_decide; [|eauto]. subst sid'.
           rewrite (Hfree _ _ Hparty) in Hold. done.
        -- subst sid'. rewrite decide_True by done. rewrite Hget. simpl. eauto.
      * intros Hc' Hmem. destruct (Hroster _ _ _ Hc' Hmem) as (p' & Hget' & Hcode').
        rewrite players_get_update by done. case_decide; [|eauto].
        subst sid'. rewrite (Hfree _ _ Hc') in Hmem. done.
  - (* leaveParty *)
    injection Hstep as <-. unfold leaveParty.
    destruct (players_get sid _) as [p|] eqn:Hget; [|done].
    destruct (truthy (partyCode p)) eqn:Htr; [|done].
    destruct (partyCode p) as [c|] eqn:Hcode; [|done].
    destruct (leave_keeps_one_party_each sid w p c Hinv Hget Hcode) as [H1 H2].
    split; simpl; [done|].
    intros sid' c' party' Hc' Hmem.
    destruct (H2 _ _ _ Hc' Hmem) as (Hne & p' & Hget' & Hcode').
    rewrite players_get_update by done. rewrite decide_False by done. eauto.
  - (* disconnect *)
    injection Hstep as <-. unfold one_party_each.
    rewrite disconnect_players, disconnect_parties.
    destruct (players_get sid (players (gameState w))) as [p|] eqn:Hget.
    + destruct (truthy (partyCode p)) eqn:Htr.
      * destruct (partyCode p) as [c|] eqn:Hcode; [|done].
        destruct (leave_keeps_one_party_each sid w p c Hinv Hget Hcode) as [H1 H2].
        split; [done|].
        intros sid' c' party' Hc' Hmem.
        destruct (H2 _ _ _ Hc' Hmem) as (Hne & p' & Hget' & Hcode').
        rewrite players_get_delete. rewrite decide_False by done. eauto.
      * split; [done|].
        intros sid' c' party' Hc' Hmem.
        destruct (Hroster _ _ _ Hc' Hmem) as (p' & Hget' & Hcode').
        rewrite players_get_delete. case_decide; [|eauto]. subst sid'.
        assert (in_no_party sid w) as Hno.
        { apply one_party_each_not_member; [done|]. intros q Hq. congruence. }
        rewrite (Hno _ _ Hc') in Hmem. done.
    + split; [done|].
      intros sid' c' party' Hc' Hmem.
      destruct (Hroster _ _ _ Hc' Hmem) as (p' & Hget' & Hcode').
      rewrite players_get_delete. case_decide; [|eauto]. subst sid'. congruence.
Qed.

(** ** What a round leaves alone *)

Lemma active_core p : active (core p) = active p.
Proof. done. Qed.

Lemma length_filter_map {A} (f : A → bool) (l : list A) :
  length (List.filter f l) = length (List.filter (λ b : bool, b) (map f l)).
Proof.
  induction l as [|x l IH]; simpl; [done|]. destruct (f x); simpl; by rewrite IH.
Qed.

Lemma map_active_core ps : map active (map core ps) = map active ps.
Proof. rewrite map_map. apply map_ext. intros p. apply active_core. Qed.

Lemma count_active_core ps ps' :
  map core ps = map core ps' → count_players active ps = count_players active ps'.
Proof.
  intros H. unfold count_players.
  rewrite (length_filter_map active ps), (length_filter_map active ps').
  by rewrite <- (map_active_core ps), H, map_active_core.
Qed.

Lemma map_core_update sid f ps :
  (∀ p, core (f p) = core p) →
  map core (players_update sid f ps) = map core ps.
Proof.
  intros Hf. induction ps as [|p ps IH]; simpl; [done|].
  case_decide; simpl; [by rewrite Hf | by rewrite IH].
Qed.

Lemma save_elimination_game pos gn w sid :
  let w' := save_elimination pos gn w sid in
  map core (players (gameState w')) = map core (players (gameState w)) ∧
  gameState w' = set_players (players (gameState w')) (gameState w).
Proof.
  unfold save_elimination.
  destruct (players_get sid _) as [player|]; [|by destruct w as [[]]].
  destruct (if_truthy (persistentId player)); simpl.
  - split; [by apply map_core_update | done].
  - by destruct w as [[]].
Qed.

Lemma fold_save_elimination_game pos gn ids w :
  let w' := fold_left (save_elimination pos gn) ids w in
  map core (players (gameState w')) = map core (players (gameState w)) ∧
  gameState w' = set_players (players (gameState w')) (gameState w).
Proof.
  revert w. induction ids as [|sid ids IH]; intros w; simpl.
  - by destruct w as [[]].
  - destruct (IH (save_elimination pos gn w sid)) as [H1 H2].
    destruct (save_elimination_game pos gn w sid) as [H3 H4].
    split; [congruence|]. rewrite H2, H4. done.
Qed.

Lemma save_survivor_game w sid : gameState (save_survivor w sid) = gameState w.
Proof. unfold save_survivor. by destruct (players_get sid _). Qed.

Lemma fold_save_survivor_game ids w :
  gameState (fold_left save_survivor ids w) = gameState w.
Proof.
  revert w. induction ids as [|sid ids IH]; intros w; simpl; [done|].
  by rewrite IH, save_survivor_game.
Qed.

Lemma save_survivor_ledger w sid : todayPlayers (save_survivor w sid) = todayPlayers w.
Proof. unfold save_survivor. by destruct (players_get sid _). Qed.

Lemma fold_save_survivor_ledger ids w :
  todayPlayers (fold_left save_survivor ids w) = todayPlayers w.
Proof.
  revert w. induction ids as [|sid ids IH]; intros w; simpl; [done|].
  by rewrite IH, save_survivor_ledger.
Qed.

(** The run of [processAnswers], read off its definition: the question
    under the cursor, the new ghost count, where the cursor goes and what is
    scheduled. *)
Lemma processAnswers_inv gn r wd w w' out :
  processAnswers gn r wd w = Some (w', out) →
  let g := gameState w in
  ∃ q,
    0 ≤ currentQuestion g ∧
    questions g !! Z.to_nat (currentQuestion g) = Some q ∧
    let ci := indexOf (correct q) (answers q) in
    let t := fold_left (tally_player ci) (players g) tally0 in
    let ps1 := map (judge ci) (players g) in
    let new := Math_floor (inject_Z (aliveGhosts g) * correctRate (currentQuestion g + 1) r) in
    let stop := (9 <=? currentQuestion g) || (count_players active ps1 + new <=? 1) in
    map core (players (gameState w')) = map core ps1 ∧
    gameState w' =
      {| gstatus := gstatus g; players := players (gameState w');
         currentQuestion := if stop then currentQuestion g else currentQuestion g + 1;
         questions := questions g; totalParticipants := totalParticipants g;
         waitingCount := waitingCount g; ghostPlayers := ghostPlayers g;
         aliveGhosts := new |} ∧
    scheduled out = (if stop then ThenEndGame else ThenNextQuestion) ∧
    round_eliminated out = eliminated t ∧
    round_survivors out = survivors t ∧
    ghostsEliminated out = aliveGhosts g - new ∧
    correctIndex (results out) = ci ∧
    (round_answerCounts out, round_totalAnswers out) =
      ghost_votes ci new (aliveGhosts g - new) wd (answerCounts t, totalAnswers t) ∧
    answerPercentages (results out) =
      map (percentage (round_totalAnswers out)) (slots (round_answerCounts out)).
Proof.
  intros H g. unfold processAnswers in H. fold g in H. subst g.
  destruct (Z.ltb_spec (currentQuestion (gameState w)) 0) as [|Hcq]; [done|].
  destruct (questions (gameState w) !! _) as [q|] eqn:Hq; [|done].
  exists q. split; [done|]. split; [done|].
  cbv zeta in H |- *.
  set (ci := indexOf (correct q) (answers q)) in *.
  set (t := fold_left (tally_player ci) _ tally0) in *.
  set (ps1 := map (judge ci) _) in *.
  set (new := Math_floor _) in *.
  set (w1 := with_gameState _ w) in *.
  set (w2 := fold_left (save_elimination _ gn) (eliminated t) w1) in *.
  set (w3 := fold_left save_survivor (survivors t) w2) in *.
  assert (gameState w3 = gameState w2) as H32 by apply fold_save_survivor_game.
  destruct (fold_save_elimination_game
              (Z.of_nat (length (List.filter active ps1)) + Z.of_nat (length (eliminated t)))
              gn (eliminated t) w1) as [Hcore Hgame].
  fold w2 in Hcore, Hgame.
  assert (aliveGhosts (gameState w3) = new) as Hnew by (by rewrite H32, Hgame).
  assert (currentQuestion (gameState w3) = currentQuestion (gameState w)) as Hcur
    by (by rewrite H32, Hgame).
  rewrite Hnew, Hcur in H.
  fold (count_players active ps1) in H.
  destruct ((9 <=? currentQuestion (gameState w))
            || (count_players active ps1 + new <=? 1));
    injection H as <- <-; simpl; rewrite ?H32; (split; [exact Hcore|]);
    (split; [by rewrite Hgame|]); repeat (split; [done|]); by destruct (ghost_votes _ _ _ _ _).
Qed.

(** ** C5: ghost attrition *)

Lemma correctRate_in_band n r :
  (correctRate n r == fst (band n) + rnd r * (snd (band n) - fst (band n)))%Q ∧
  (fst (band n) <= correctRate n r)%Q ∧ (correctRate n r <= snd (band n))%Q.
Proof.
  destruct (Rand_range r) as [H0 H1]. unfold correctRate, band.
  destruct (n <=? 3); [|destruct (n <=? 6)]; simpl;
    (split; [field | split; lra]).
Qed.

Lemma correctRate_unit n r : (0 <= correctRate n r)%Q ∧ (correctRate n r <= 1)%Q.
Proof.
  destruct (correctRate_in_band n r) as (_ & Hlo & Hhi). revert Hlo Hhi.
  unfold band. destruct (n <=? 3); [|destruct (n <=? 6)]; simpl; lra.
Qed.


(** ** C6: the ghost count *)

Lemma run_invariant (P : World → Prop) es w0 w :
  (∀ e w w', P w → step e w = Some w' → P w') →
  P w0 → run es w0 = Some w → P w.
Proof.
  intros Hstep. revert w0. induction es as [|e es IH]; simpl; intros w0 H0 Hrun.
  - by injection Hrun as <-.
  - destruct (step e w0) as [w1|] eqn:E; [|done]. eauto.
Qed.

Lemma ghostCount_range r : 95 ≤ ghostCount r ≤ 105.
Proof.
  unfold ghostCount. pose proof (floor_draw_range r 11 ltac:(lia)) as H.
  change (inject_Z 11) with 11%Q in H. lia.
Qed.

Lemma nextQuestion_ghosts gn w :
  ghostPlayers (gameState (nextQuestion gn w)) = ghostPlayers (gameState w) ∧
  aliveGhosts (gameState (nextQuestion gn w)) = aliveGhosts (gameState w).
Proof. unfold nextQuestion. by case_match. Qed.

(** What one handler does to the two ghost counters. *)
Lemma step_ghosts e w w' :
  step e w = Some w' →
  let g := gameState w in
  let g' := gameState w' in
  if resamples_ghosts e
  then 95 ≤ aliveGhosts g' ∧ aliveGhosts g' = ghostPlayers g'
  else ghostPlayers g' = ghostPlayers g ∧
       (aliveGhosts g' = aliveGhosts g ∨
        ∃ q, (0 <= q)%Q ∧ (q <= 1)%Q ∧
             aliveGhosts g' = Math_floor (inject_Z (aliveGhosts g) * q)).
Proof.
  intros Hstep.
  destruct e; simpl in Hstep; simplify_eq; cbn [resamples_ghosts]; cbv zeta.
  - (* listen *) simpl. pose proof (ghostCount_range r). split; [lia|done].
  - (* midnight *) auto.
  - (* connect *) auto.
  - (* identify *)
    unfold identify. destruct (players_get sid _); [|auto].
    simpl. case_match; simpl; auto.
  - (* disconnect *)
    unfold disconnect. simpl. destruct (players_get sid _); [|auto].
    case_match; simpl; auto.
  - (* leaveGame *) auto.
  - (* submitAnswer *)
    unfold submitAnswer. destruct (players_get sid _); [|auto]. case_match; auto.
  - (* createParty *)
    unfold createParty in Hstep.
    repeat (case_match; simplify_eq/=; auto).
  - (* joinParty *)
    unfold joinParty. repeat (case_match; simplify_eq/=; auto).
  - (* leaveParty *)
    unfold leaveParty. repeat (case_match; simplify_eq/=; auto).
  - (* autoStartGame *)
    unfold autoStartGame. repeat (case_match; simplify_eq/=; auto).
  - (* startGame, questions fetched *) auto.
  - (* startGame, countdown done *)
    unfold startGame_countdownDone.
    destruct (nextQuestion_ghosts gn
                (with_gameState (set_gstatus playing (gameState w)) w)) as [-> ->].
    auto.
  - (* processAnswers *)
    destruct (processAnswers gn r wrongDraw w) as [[w1 out]|] eqn:E; [|done].
    simpl in Hstep. injection Hstep as <-.
    apply processAnswers_inv in E as (q & _ & _ & _ & Hg & _).
    cbv zeta in Hg. rewrite Hg. simpl. split; [done|]. right.
    destruct (correctRate_unit (currentQuestion (gameState w) + 1) r).
    eauto.
  - (* the scheduled callback *)
    destruct s; simpl.
    + auto.
    + destruct (nextQuestion_ghosts gn w) as [-> ->]. auto.
  - (* resetGame *) simpl. pose proof (ghostCount_range r). split; [lia|done].
Qed.

Lemma step_ghost_bounds e w w' :
  0 ≤ aliveGhosts (gameState w) ≤ ghostPlayers (gameState w) →
  step e w = Some w' →
  0 ≤ aliveGhosts (gameState w') ≤ ghostPlayers (gameState w') ∧
  (resamples_ghosts e = false →
   aliveGhosts (gameState w') ≤ aliveGhosts (gameState w)).
Proof.
  intros Hb Hstep. apply step_ghosts in Hstep. cbv zeta in Hstep.
  destruct (resamples_ghosts e).
  - split; [lia|done].
  - destruct Hstep as [Hpop [Halive|(q & H0 & H1 & Halive)]].
    + split; [lia|]. intros _. lia.
    + pose proof (floor_share_range (aliveGhosts (gameState w)) q
                    ltac:(lia) H0 H1) as Hr.
      split; [lia|]. intros _. lia.
Qed.

(** C6.  In every reachable state the number of ghosts alive is between 0
    and the ghost population, and no handler other than the two that open
    a new cycle with a fresh population (the start of the server and
    [resetGame]) raises it: within a game it never goes up from one round
    to the next. *)
Theorem aliveGhosts_bounded_and_non_increasing w :
  reachable w →
  0 ≤ aliveGhosts (gameState w) ≤ ghostPlayers (gameState w) ∧
  ∀ e w', step e w = Some w' → resamples_ghosts e = false →
          aliveGhosts (gameState w') ≤ aliveGhosts (gameState w).
Proof.
  intros [es Hrun].
  assert (0 ≤ aliveGhosts (gameState w) ≤ ghostPlayers (gameState w)) as Hb.
  { apply (run_invariant
             (λ w, 0 ≤ aliveGhosts (gameState w) ≤ ghostPlayers (gameState w))
             es world0 w); [|done|done].
    intros e w1 w2 H1 H2. by apply (step_ghost_bounds e w1 w2). }
  split; [done|]. intros e w' Hstep He.
  by apply (step_ghost_bounds e w w').
Qed.

(** ** C1: when the round loop ends the game *)

(** C1, as the code has it.  With the ten questions of the day, a pass of
    the round loop leaves the game in Finished exactly when the question
    just processed has 0-based index 9 or more (it is the tenth question)
    or when at most one participant, real or ghost, is left after the
    round; so it does with one real survivor and no ghost alive.  The
    cursor does not go past 9. *)
Theorem round_finishes_iff gn r wd w w' out :
  gstatus (gameState w) = playing →
  length (questions (gameState w)) = 10%nat →
  processAnswers gn r wd w = Some (w', out) →
  let w'' := intermission (scheduled out) gn w' in
  (gstatus (gameState w'') = finished ↔
     9 ≤ currentQuestion (gameState w) ∨ remaining w' ≤ 1) ∧
  (count_players active (players (gameState w')) = 1 →
   aliveGhosts (gameState w') = 0 → gstatus (gameState w'') = finished) ∧
  currentQuestion (gameState w'') ≤ 9.
Proof.
  intros Hplaying Hten H.
  apply processAnswers_inv in H as (q & Hcq & Hq & Hcore & Hg & Hsched & _).
  cbv zeta in Hcore, Hg, Hsched |- *.
  apply lookup_lt_Some in Hq.
  assert (remaining w' =
          count_players active
            (map (judge (indexOf (correct q) (answers q))) (players (gameState w)))
          + Math_floor (inject_Z (aliveGhosts (gameState w))
                        * correctRate (currentQuestion (gameState w) + 1) r)) as Hrem.
  { unfold remaining. rewrite (count_active_core _ _ Hcore). by rewrite Hg. }
  rewrite <- Hrem in Hg, Hsched.
  assert (gstatus (gameState (intermission (scheduled out) gn w')) = finished ↔
          9 ≤ currentQuestion (gameState w) ∨ remaining w' ≤ 1) as Hiff.
  { rewrite Hsched.
    destruct (Z.leb_spec 9 (currentQuestion (gameState w)));
      destruct (Z.leb_spec (remaining w') 1); simpl;
      try (split; [intros _; lia | done]).
    unfold nextQuestion. rewrite Hg. simpl.
    destruct (Z.leb_spec (Z.of_nat (length (questions (gameState w))))
                (currentQuestion (gameState w) + 1)); [lia|].
    simpl. rewrite Hg. simpl. rewrite Hplaying. split; [done|lia]. }
  split; [exact Hiff|]. split.
  - intros H1 H0. apply Hiff. right. unfold remaining. lia.
  - rewrite Hsched.
    destruct ((9 <=? currentQuestion (gameState w)) || (remaining w' <=? 1)) eqn:E; simpl.
    + rewrite Hg. simpl. lia.
    + apply orb_false_iff in E as [E1 E2]. apply Z.leb_gt in E1.
      unfold nextQuestion. rewrite Hg. simpl.
      destruct (Z.leb_spec (Z.of_nat (length (questions (gameState w))))
                  (currentQuestion (gameState w) + 1)); [lia|].
      simpl. rewrite Hg. simpl. lia.
Qed.

(** ** The answer distribution *)

Lemma sum_list_cons x l : sum_list (x :: l) = x + sum_list l.
Proof. done. Qed.

Lemma sum_alter n i (l : list Z) :
  (i < length l)%nat → sum_list (alter (λ x, x + n) i l) = sum_list l + n.
Proof.
  revert i. induction l as [|x l IH]; intros i Hi; simpl in Hi; [lia|].
  destruct i as [|i]; cbn [alter list_alter]; rewrite !sum_list_cons.
  - lia.
  - rewrite IH by lia. lia.
Qed.

Lemma bump_tidy k m votes :
  0 ≤ k < 4 → tidy votes → tidy (bump (Some k) m (fst votes), snd votes + m).
Proof.
  intros Hk (Hstray & Hlen & Hsum). unfold tidy, bump. simpl.
  destruct (Z.leb_spec 0 k); [|lia]. destruct (Z.ltb_spec k 4); [|lia]. simpl.
  split; [done|]. split.
  - by rewrite length_alter.
  - rewrite sum_alter by lia. lia.
Qed.

Lemma tally_player_tidy ci t p :
  (active p = true → answer_in_range (currentAnswer p)) →
  tidy (answerCounts t, totalAnswers t) →
  tidy (answerCounts (tally_player ci t p), totalAnswers (tally_player ci t p)).
Proof.
  intros Hp Ht. unfold tally_player. destruct (active p); [|done].
  specialize (Hp eq_refl).
  destruct (currentAnswer p) as [a|]; simpl in Hp.
  - pose proof (bump_tidy a 1 (answerCounts t, totalAnswers t) Hp Ht) as Hb.
    by case_decide.
  - by case_decide.
Qed.

Lemma tally_tidy ci ps t :
  (∀ p, p ∈ ps → active p = true → answer_in_range (currentAnswer p)) →
  tidy (answerCounts t, totalAnswers t) →
  let t' := fold_left (tally_player ci) ps t in
  tidy (answerCounts t', totalAnswers t').
Proof.
  revert t. induction ps as [|p ps IH]; intros t Hps Ht; simpl; [done|].
  apply IH.
  - intros q Hq. apply Hps. by right.
  - apply tally_player_tidy; [|done]. apply Hps. left.
Qed.

Lemma wrongAnswers_ok ci :
  let wa := List.filter (λ i, negb (i =? ci)) [0; 1; 2; 3] in
  (0 < length wa)%nat ∧ Forall (λ k, 0 ≤ k < 4) wa.
Proof.
  cbv zeta. cbn [List.filter].
  destruct (Z.eqb_spec 0 ci), (Z.eqb_spec 1 ci), (Z.eqb_spec 2 ci), (Z.eqb_spec 3 ci);
    cbn [negb length]; try lia; (split; [lia|]); repeat constructor; lia.
Qed.

Lemma ghost_wrong_votes_tidy n i wa draw c total :
  (0 < length wa)%nat → Forall (λ k, 0 ≤ k < 4) wa →
  tidy (c, total) →
  tidy (ghost_wrong_votes n i wa draw c, total + Z.of_nat n).
Proof.
  intros Hlen Hwa. revert i c total.
  induction n as [|n IH]; intros i c total Ht; cbn [ghost_wrong_votes].
  - by rewrite Z.add_0_r.
  - pose proof (floor_draw_range (draw i) (Z.of_nat (length wa))) as Hr.
    set (j := Math_floor _) in *.
    destruct (lookup_lt_is_Some_2 wa (Z.to_nat j)) as [k Hk]; [lia|].
    rewrite Hk.
    assert (0 ≤ k < 4) as Hkr.
    { eapply (proj1 (Forall_forall _ _) Hwa). by eapply list_elem_of_lookup_2. }
    pose proof (bump_tidy k 1 (c, total) Hkr Ht) as Hb. simpl in Hb.
    specialize (IH (S i) _ _ Hb).
    by replace (total + Z.of_nat (S n)) with (total + 1 + Z.of_nat n) by lia.
Qed.

Lemma ghost_votes_tidy ci a b wd votes :
  0 ≤ ci < 4 → tidy votes → tidy (ghost_votes ci a b wd votes).
Proof.
  intros Hci Ht. unfold ghost_votes.
  pose proof (bump_tidy ci a votes Hci Ht) as Hb.
  destruct (Z.ltb_spec 0 b); [|done].
  destruct (wrongAnswers_ok ci) as [Hlen Hwa].
  pose proof (ghost_wrong_votes_tidy (Z.to_nat b) 0 _ wd _ _ Hlen Hwa Hb) as Hg.
  by rewrite Z2Nat.id in Hg by lia.
Qed.

Lemma indexOf_from_range x l i :
  x ∈ l → i ≤ indexOf_from x l i < i + Z.of_nat (length l).
Proof.
  revert i. induction l as [|y l IH]; intros i Hin; simpl.
  - by apply not_elem_of_nil in Hin.
  - case_decide; [lia|].
    apply elem_of_cons in Hin as [->|Hin]; [done|].
    specialize (IH (i + 1) Hin). lia.
Qed.

Lemma indexOf_well_formed q :
  well_formed q → 0 ≤ indexOf (correct q) (answers q) < 4.
Proof.
  intros [Hlen Hin]. pose proof (indexOf_from_range _ _ 0 Hin) as H.
  unfold indexOf. lia.
Qed.

(** When the slots hold what the clients may send and the question is well
    formed, every vote of the round falls on one of the four options. *)
Lemma round_votes_tidy gn r wd w w' out :
  processAnswers gn r wd w = Some (w', out) →
  (∀ p, p ∈ players (gameState w) → active p = true →
        answer_in_range (currentAnswer p)) →
  Forall well_formed (questions (gameState w)) →
  tidy (round_answerCounts out, round_totalAnswers out).
Proof.
  intros H Hps Hqs.
  apply processAnswers_inv in H as (q & _ & Hq & H). cbv zeta in H.
  destruct H as (_ & _ & _ & _ & _ & _ & _ & -> & _).
  apply ghost_votes_tidy.
  - apply indexOf_well_formed.
    eapply (proj1 (Forall_forall _ _) Hqs). by eapply list_elem_of_lookup_2.
  - apply tally_tidy; [done|]. done.
Qed.

(** *** The rounding of a double *)

Lemma round_half_even_spec a b :
  0 < b → - b ≤ 2 * (round_half_even a b * b - a) ≤ b.
Proof.
  intros Hb. unfold round_half_even.
  pose proof (Z.div_mod a b ltac:(lia)) as Hdm.
  pose proof (Z.mod_pos_bound a b Hb) as Hr.
  destruct (Z.ltb_spec (2 * (a mod b)) b); [nia|].
  destruct (Z.ltb_spec b (2 * (a mod b))); [nia|].
  destruct (Z.even (a / b)); nia.
Qed.

(** [2 ^ exponent m b <= m / b], without fractions. *)
Lemma exponent_below m b :
  0 < m → 0 < b →
  if 0 <=? exponent m b then b * 2 ^ exponent m b ≤ m
  else b ≤ m * 2 ^ (- exponent m b).
Proof.
  intros Hm Hb. unfold exponent.
  destruct (Z.log2_spec m Hm) as [Hm1 Hm2]. destruct (Z.log2_spec b Hb) as [Hb1 Hb2].
  pose proof (Z.log2_nonneg m) as Hlm. pose proof (Z.log2_nonneg b) as Hlb.
  set (la := Z.log2 m) in *. set (lb := Z.log2 b) in *.
  assert (∀ e, 0 ≤ e → 0 < 2 ^ e) as Hpos by (intros; by apply Z.pow_pos_nonneg).
  assert (if 0 <=? la - lb - 1 then b * 2 ^ (la - lb - 1) ≤ m
          else b ≤ m * 2 ^ (- (la - lb - 1))) as Hlow.
  { destruct (Z.leb_spec 0 (la - lb - 1)).
    - assert (2 ^ Z.succ lb * 2 ^ (la - lb - 1) = 2 ^ la) as Hp.
      { rewrite <- Z.pow_add_r by lia. f_equal. lia. }
      pose proof (Hpos (la - lb - 1) ltac:(lia)). nia.
    - assert (2 ^ la * 2 ^ (- (la - lb - 1)) = 2 ^ Z.succ lb) as Hp.
      { rewrite <- Z.pow_add_r by lia. f_equal. lia. }
      pose proof (Hpos (- (la - lb - 1)) ltac:(lia)). nia. }
  destruct (Z.leb_spec 0 (la - lb)).
  - destruct (Z.ltb_spec m (b * 2 ^ (la - lb))); [exact Hlow|].
    destruct (Z.leb_spec 0 (la - lb)); lia.
  - destruct (Z.ltb_spec (m * 2 ^ (- (la - lb))) b); [exact Hlow|].
    destruct (Z.leb_spec 0 (la - lb)); lia.
Qed.

Lemma exponent_le_log m b : exponent m b ≤ Z.log2 m - Z.log2 b.
Proof. unfold exponent. destruct (if 0 <=? _ then _ else _); lia. Qed.

(** Scaled to 53 bits, the significand is 2 ^ 52 at least. *)
Lemma scaled_significand m b :
  0 < m → 0 < b → 0 ≤ 52 - exponent m b →
  b * 2 ^ 52 ≤ m * 2 ^ (52 - exponent m b).
Proof.
  intros Hm Hb Hs. pose proof (exponent_below m b Hm Hb) as He.
  set (e := exponent m b) in *.
  destruct (Z.leb_spec 0 e).
  - assert (2 ^ e * 2 ^ (52 - e) = 2 ^ 52) as Hp.
    { rewrite <- Z.pow_add_r by lia. f_equal. lia. }
    pose proof (Z.pow_pos_nonneg 2 (52 - e) ltac:(lia) ltac:(lia)). nia.
  - assert (2 ^ (- e) * 2 ^ 52 = 2 ^ (52 - e)) as Hp.
    { rewrite <- Z.pow_add_r by lia. f_equal. lia. }
    nia.
Qed.

(** The relative error of one operation is 2 ^ -53 at most. *)
Lemma binary64_error (x : Q) :
  (0 <= x)%Q → (x <= 4503599627370496)%Q →
  (x - x * ulp_half <= binary64 x)%Q ∧ (binary64 x <= x + x * ulp_half)%Q.
Proof.
  destruct x as [a b]. intros H0 H52. unfold binary64. cbn [Qnum Qden].
  assert (0 ≤ a) as Ha by (unfold Qle in H0; simpl in H0; lia).
  destruct (Z.eqb_spec a 0) as [->|Hne].
  { unfold ulp_half, Qle, Qminus, Qplus, Qmult, Qopp. simpl. lia. }
  assert (a ≤ 4503599627370496 * Z.pos b) as Hle.
  { unfold Qle in H52. simpl in H52. lia. }
  rewrite Z.abs_eq by lia.
  destruct (Z.ltb_spec a 0); [lia|].
  assert (exponent a (Z.pos b) ≤ 52) as He.
  { pose proof (exponent_le_log a (Z.pos b)).
    destruct (Z.log2_spec a ltac:(lia)) as [Hm1 _].
    destruct (Z.log2_spec (Z.pos b) ltac:(lia)) as [_ Hb2].
    assert (2 ^ Z.log2 a < 2 ^ (53 + Z.log2 (Z.pos b))) as Hlt.
    { replace (53 + Z.log2 (Z.pos b)) with (52 + Z.succ (Z.log2 (Z.pos b))) by lia.
      rewrite Z.pow_add_r by (pose proof (Z.log2_nonneg (Z.pos b)); lia).
      change (2 ^ 52) with 4503599627370496. lia. }
    apply Z.pow_lt_mono_r_iff in Hlt; [lia|lia|].
    pose proof (Z.log2_nonneg (Z.pos b)); lia. }
  destruct (Z.leb_spec 0 (52 - exponent a (Z.pos b))); [|lia].
  pose proof (scaled_significand a (Z.pos b) ltac:(lia) ltac:(lia) ltac:(lia)) as Hsc.
  set (s := 52 - exponent a (Z.pos b)) in *.
  pose proof (round_half_even_spec (a * 2 ^ s) (Z.pos b) ltac:(lia)) as Hn.
  set (n := round_half_even (a * 2 ^ s) (Z.pos b)) in *.
  pose proof (Z.pow_pos_nonneg 2 s ltac:(lia) ltac:(lia)) as Hp.
  change (2 ^ 52) with 4503599627370496 in Hsc.
  unfold ulp_half, Qle, Qminus, Qplus, Qmult, Qopp. cbn [Qnum Qden].
  rewrite !Pos2Z.inj_mul, !Z2Pos.id by lia.
  set (P := 2 ^ s) in *. set (B := Z.pos b) in *.
  assert (0 < B) by (unfold B; lia).
  clearbody P B n. split; nia.
Qed.

(** The double [(count / total) * 100] is the exact percentage up to
    201 * 2 ^ -53. *)
Lemma share_near total c :
  0 < total → 0 ≤ c ≤ total →
  (inject_Z c / inject_Z total * 100 - 201 * ulp_half <= share total c)%Q ∧
  (share total c <= inject_Z c / inject_Z total * 100 + 201 * ulp_half)%Q.
Proof.
  intros HT Hc. unfold share.
  assert (0 < inject_Z total)%Q as HT' by (rewrite <- (Zlt_Qlt 0); exact HT).
  assert (0 <= inject_Z c)%Q as Hc0 by (rewrite <- (Zle_Qle 0); lia).
  assert (inject_Z c <= inject_Z total)%Q as Hc1 by (rewrite <- Zle_Qle; lia).
  set (q := (inject_Z c / inject_Z total)%Q).
  assert (0 <= q)%Q as Hq0 by (apply Qle_shift_div_l; [done|lra]).
  assert (q <= 1)%Q as Hq1 by (apply Qle_shift_div_r; [done|lra]).
  destruct (binary64_error q Hq0 ltac:(lra)) as [H1 H2].
  set (q1 := binary64 q) in *.
  assert (0 < ulp_half)%Q as Hu by reflexivity.
  assert (ulp_half <= 1 # 100)%Q as Hu' by (unfold ulp_half, Qle; simpl; lia).
  assert (q * ulp_half <= ulp_half)%Q as Hqu by nra.
  assert (0 <= q * ulp_half)%Q as Hqu0 by nra.
  assert (q * ulp_half <= q)%Q as Hqq by nra.
  destruct (binary64_error (q1 * 100) ltac:(lra) ltac:(lra)) as [H3 H4].
  set (x := binary64 (q1 * 100)) in *.
  assert (q1 * 100 * ulp_half <= 101 * ulp_half)%Q as Hyu by nra.
  assert (0 <= q1 * 100 * ulp_half)%Q as Hyu0 by nra.
  split; lra.
Qed.

(** Four shares of a positive total, each computed in doubles and rounded
    to a whole percentage, add up to 98, 99, 100, 101 or 102. *)
Lemma percentages_sum a b c d total :
  0 < total → a + b + c + d = total → 0 ≤ a → 0 ≤ b → 0 ≤ c → 0 ≤ d →
  98 ≤ percentage total a + percentage total b + percentage total c
       + percentage total d ≤ 102.
Proof.
  intros HT Hs Ha Hb Hc Hd. unfold percentage. destruct (Z.ltb_spec 0 total); [|lia].
  unfold Math_round.
  assert (0 < inject_Z total)%Q as HT' by (rewrite <- (Zlt_Qlt 0); exact HT).
  assert (~ inject_Z total == 0)%Q as HT0 by lra.
  assert (inject_Z a + inject_Z b + inject_Z c + inject_Z d == inject_Z total)%Q as Hs'.
  { rewrite <- Hs, !inject_Z_plus. reflexivity. }
  assert (inject_Z a / inject_Z total + inject_Z b / inject_Z total
          + inject_Z c / inject_Z total + inject_Z d / inject_Z total == 1)%Q as Hsum.
  { transitivity ((inject_Z a + inject_Z b + inject_Z c + inject_Z d) / inject_Z total)%Q.
    - field. exact HT0.
    - rewrite Hs'. field. exact HT0. }
  destruct (share_near total a HT ltac:(lia)) as [La' Ua'].
  destruct (share_near total b HT ltac:(lia)) as [Lb' Ub'].
  destruct (share_near total c HT ltac:(lia)) as [Lc' Uc'].
  destruct (share_near total d HT ltac:(lia)) as [Ld' Ud'].
  set (xa := (inject_Z a / inject_Z total)%Q) in *.
  set (xb := (inject_Z b / inject_Z total)%Q) in *.
  set (xc := (inject_Z c / inject_Z total)%Q) in *.
  set (xd := (inject_Z d / inject_Z total)%Q) in *.
  set (sa := share total a) in *. set (sb := share total b) in *.
  set (sc := share total c) in *. set (sd := share total d) in *.
  pose proof (Qfloor_le (sa + (1 # 2))) as La.
  pose proof (Qfloor_le (sb + (1 # 2))) as Lb.
  pose proof (Qfloor_le (sc + (1 # 2))) as Lc.
  pose proof (Qfloor_le (sd + (1 # 2))) as Ld.
  pose proof (Qlt_floor (sa + (1 # 2))) as Ua.
  pose proof (Qlt_floor (sb + (1 # 2))) as Ub.
  pose proof (Qlt_floor (sc + (1 # 2))) as Uc.
  pose proof (Qlt_floor (sd + (1 # 2))) as Ud.
  set (fa := Qfloor (sa + (1 # 2))) in *.
  set (fb := Qfloor (sb + (1 # 2))) in *.
  set (fc := Qfloor (sc + (1 # 2))) in *.
  set (fd := Qfloor (sd + (1 # 2))) in *.
  rewrite inject_Z_plus in Ua, Ub, Uc, Ud.
  clearbody xa xb xc xd sa sb sc sd fa fb fc fd. change (inject_Z 1) with 1%Q in *.
  assert (ulp_half <= 1 # 1000)%Q as Hu by (unfold ulp_half, Qle; simpl; lia).
  assert (0 < ulp_half)%Q as Hu0 by reflexivity.
  assert (inject_Z (fa + fb + fc + fd) < 103)%Q as U.
  { rewrite !inject_Z_plus. lra. }
  assert (97 < inject_Z (fa + fb + fc + fd))%Q as L.
  { rewrite !inject_Z_plus. lra. }
  change 103%Q with (inject_Z 103) in U. rewrite <- Zlt_Qlt in U.
  change 97%Q with (inject_Z 97) in L. rewrite <- Zlt_Qlt in L.
  lia.
Qed.

(** *** No count is negative *)

Lemma bump_nonneg k n c :
  0 ≤ n → Forall (λ x, 0 ≤ x) (slots c) → Forall (λ x, 0 ≤ x) (slots (bump k n c)).
Proof.
  intros Hn Hc. unfold bump. destruct k as [i|]; [|done].
  destruct ((0 <=? i) && (i <? 4)); [|done]. simpl.
  apply Forall_alter; [done|]. intros x _ Hx. lia.
Qed.

Lemma tally_nonneg ci ps t :
  Forall (λ x, 0 ≤ x) (slots (answerCounts t)) →
  Forall (λ x, 0 ≤ x) (slots (answerCounts (fold_left (tally_player ci) ps t))).
Proof.
  revert t. induction ps as [|p ps IH]; intros t Ht; simpl; [done|].
  apply IH. unfold tally_player. destruct (active p); [|done].
  destruct (currentAnswer p) as [a|]; case_decide; cbn [answerCounts]; try done;
    by apply bump_nonneg.
Qed.

Lemma ghost_wrong_votes_nonneg n i wa draw c :
  Forall (λ x, 0 ≤ x) (slots c) →
  Forall (λ x, 0 ≤ x) (slots (ghost_wrong_votes n i wa draw c)).
Proof.
  revert i c. induction n as [|n IH]; intros i c Hc; cbn [ghost_wrong_votes]; [done|].
  apply IH. by apply bump_nonneg.
Qed.

Lemma round_votes_nonneg gn r wd w w' out :
  processAnswers gn r wd w = Some (w', out) →
  0 ≤ aliveGhosts (gameState w) →
  Forall (λ x, 0 ≤ x) (slots (round_answerCounts out)).
Proof.
  intros H Hgh.
  apply processAnswers_inv in H as (q & _ & _ & H). cbv zeta in H.
  destruct H as (_ & _ & _ & _ & _ & _ & _ & Hv & _).
  apply (f_equal fst) in Hv. cbn [fst] in Hv. rewrite Hv.
  destruct (correctRate_unit (currentQuestion (gameState w) + 1) r) as [H0 H1].
  pose proof (floor_share_range (aliveGhosts (gameState w)) _ Hgh H0 H1) as Hr.
  unfold ghost_votes. cbv zeta. cbn [fst snd].
  assert (Forall (λ x, 0 ≤ x)
            (slots (bump (Some (indexOf (correct q) (answers q)))
                      (Math_floor (inject_Z (aliveGhosts (gameState w))
                                   * correctRate (currentQuestion (gameState w) + 1) r))
                      (answerCounts (fold_left
                                       (tally_player (indexOf (correct q) (answers q)))
                                       (players (gameState w)) tally0))))) as Hb.
  { apply bump_nonneg; [lia|]. apply tally_nonneg. simpl.
    repeat (apply Forall_cons_2; [lia|]). apply Forall_nil_2. }
  destruct (0 <? _); cbn [fst]; [|done]. by apply ghost_wrong_votes_nonneg.
Qed.

(** ** C3: the percentages of the [results] event *)

(** C3, as the code has it.  When every answer slot read in the round holds
    one of the four indices, the questions are well formed and the number of
    ghosts is not negative, the four entries of [answerPercentages] are
    [Math.round] of the doubles that the server computes from the votes of
    the four options: the votes divided by the total, rounded to a double,
    times 100, rounded to a double.  Each of these doubles is the exact
    percentage up to 201 * 2 ^ -53, which is less than 10 ^ -13.  With a
    positive total the four entries add up to a number from 98 to 102, and
    with no vote at all they are 0. *)
Theorem answerPercentages_rounded gn r wd w w' out :
  processAnswers gn r wd w = Some (w', out) →
  (∀ p, p ∈ players (gameState w) → active p = true →
        answer_in_range (currentAnswer p)) →
  Forall well_formed (questions (gameState w)) →
  0 ≤ aliveGhosts (gameState w) →
  let total := round_totalAnswers out in
  ∃ a b c d,
    slots (round_answerCounts out) = [a; b; c; d] ∧ a + b + c + d = total ∧
    (0 < total →
       answerPercentages (results out) =
         [Math_round (share total a); Math_round (share total b);
          Math_round (share total c); Math_round (share total d)] ∧
       Forall (λ v, (inject_Z v / inject_Z total * 100 - (1 # 10000000000000)
                       <= share total v)%Q ∧
                    (share total v
                       <= inject_Z v / inject_Z total * 100 + (1 # 10000000000000))%Q)
              [a; b; c; d] ∧
       98 ≤ sum_list (answerPercentages (results out)) ≤ 102) ∧
    (total = 0 → answerPercentages (results out) = [0; 0; 0; 0]).
Proof.
  intros H Hps Hqs Hgh total.
  pose proof (round_votes_tidy _ _ _ _ _ _ H Hps Hqs) as (_ & Hlen & Hsum).
  pose proof (round_votes_nonneg _ _ _ _ _ _ H Hgh) as Hnn.
  apply processAnswers_inv in H as (q & _ & _ & H). cbv zeta in H.
  destruct H as (_ & _ & _ & _ & _ & _ & _ & _ & Hperc).
  simpl in Hlen, Hsum. fold total in Hsum, Hperc.
  destruct (slots (round_answerCounts out)) as [|a [|b [|c [|d [|]]]]]; try done.
  exists a, b, c, d. unfold sum_list in Hsum; simpl in Hsum.
  apply Forall_cons_1 in Hnn as [Ha Hnn]. apply Forall_cons_1 in Hnn as [Hb Hnn].
  apply Forall_cons_1 in Hnn as [Hc Hnn]. apply Forall_cons_1 in Hnn as [Hd _].
  split; [done|]. split; [lia|]. rewrite Hperc. cbn [map]. split.
  - intros Hpos. split; [|split].
    + unfold percentage. destruct (Z.ltb_spec 0 total); [done|lia].
    + assert (201 * ulp_half <= 1 # 10000000000000)%Q as Hu
        by (unfold ulp_half, Qle; simpl; lia).
      repeat (apply Forall_cons_2;
              [match goal with
               | |- context [share total ?v] =>
                   destruct (share_near total v Hpos ltac:(lia)); split; lra
               end|]).
      apply Forall_nil_2.
    + pose proof (percentages_sum a b c d total Hpos ltac:(lia) Ha Hb Hc Hd) as Hb'.
      unfold sum_list; simpl. lia.
  - intros H0. unfold percentage. by rewrite H0.
Qed.

(** ** C10: what reaches the answer count *)

Lemma Forall_players_update (P : Player → Prop) sid f ps :
  (∀ p, P p → P (f p)) → Forall P ps → Forall P (players_update sid f ps).
Proof.
  intros Hf. induction 1 as [|p ps Hp Hps IH]; simpl; [done|].
  case_decide; constructor; auto.
Qed.

Lemma Forall_players_set (P : Player → Prop) p ps :
  P p → Forall P ps → Forall P (players_set p ps).
Proof.
  intros Hp. induction 1 as [|q ps Hq Hps IH]; simpl; [by constructor|].
  case_decide; constructor; auto.
Qed.

Lemma Forall_players_delete (P : Player → Prop) sid ps :
  Forall P ps → Forall P (players_delete sid ps).
Proof.
  unfold players_delete. induction 1 as [|q ps Hq Hps IH]; [done|].
  rewrite filter_cons. case_decide; [constructor|]; auto.
Qed.

Lemma Forall_map_keep (P : Player → Prop) (f : Player → Player) ps :
  (∀ p, P p → P (f p)) → Forall P ps → Forall P (map f ps).
Proof. intros Hf. induction 1; simpl; constructor; auto. Qed.

Lemma Forall_map_inv (P : Player → Prop) (f : Player → Player) ps :
  Forall P (map f ps) → Forall (λ p, P (f p)) ps.
Proof.
  induction ps as [|p ps IH]; simpl; [done|].
  intros H. apply Forall_cons_1 in H as [H1 H2]. constructor; auto.
Qed.

Lemma Forall_map_all (P : Player → Prop) (f : Player → Player) ps :
  (∀ p, P (f p)) → Forall P (map f ps).
Proof. intros Hf. induction ps; simpl; constructor; auto. Qed.

Lemma Forall_core (P : Player → Prop) ps ps' :
  (∀ p, P (core p) ↔ P p) → map core ps = map core ps' → Forall P ps' → Forall P ps.
Proof.
  intros HP Hcore Hps'.
  assert (Forall P (map core ps)) as H.
  { rewrite Hcore. apply Forall_map_keep; [|done]. intros p. by rewrite HP. }
  apply Forall_map_inv in H. eapply Forall_impl; [exact H|].
  intros p. simpl. by rewrite HP.
Qed.

Lemma identify_players sid pid today w :
  players (gameState (identify sid pid today w)) = players (gameState w) ∨
  ∃ d, players (gameState (identify sid pid today w)) =
       players_update sid (λ p, restore d (set_persistentId pid p))
         (players (gameState w)).
Proof.
  unfold identify. destruct (players_get sid _); [|by left].
  right. eexists. simpl. by case_match.
Qed.

Lemma answers_ok_with_players ps w :
  Forall (λ p, answer_in_range (currentAnswer p)) ps → answers_ok (with_players ps w).
Proof. done. Qed.

Lemma endGame_answers_ok gn w : answers_ok w → answers_ok (endGame gn w).
Proof.
  intros H. unfold answers_ok, endGame. simpl.
  apply Forall_map_keep; [|done]. intros p Hp. unfold crown. by case_match.
Qed.

Lemma nextQuestion_answers_ok gn w : answers_ok w → answers_ok (nextQuestion gn w).
Proof.
  intros H. unfold nextQuestion. case_match; [by apply endGame_answers_ok|].
  apply answers_ok_with_players. by apply Forall_map_all.
Qed.

Lemma processAnswers_answers_ok gn r wd w w' out :
  processAnswers gn r wd w = Some (w', out) → answers_ok w → answers_ok w'.
Proof.
  intros H Hok. apply processAnswers_inv in H as (q & _ & _ & Hcore & _).
  cbv zeta in Hcore. unfold answers_ok.
  eapply Forall_core; [|exact Hcore|]; [done|].
  apply Forall_map_keep; [|done]. intros p Hp. unfold judge.
  repeat case_match; done.
Qed.

(** A handler keeps the slots in range when it is not handed an answer out
    of range. *)
Lemma step_answers_ok e w w' :
  event_in_range e → answers_ok w → step e w = Some w' → answers_ok w'.
Proof.
  intros He Hok Hstep. pose proof Hok as Hps. unfold answers_ok in Hps.
  destruct e; simpl in Hstep, He; simplify_eq.
  - (* listen *) done.
  - (* midnight *) done.
  - (* connect *) apply answers_ok_with_players. by apply Forall_players_set.
  - (* identify *)
    unfold answers_ok.
    destruct (identify_players sid pid today w) as [-> | (d & ->)]; [done|].
    apply Forall_players_update; [|done]. intros p Hp. by destruct d.
  - (* disconnect *)
    unfold answers_ok. rewrite disconnect_players. by apply Forall_players_delete.
  - (* leaveGame *)
    apply answers_ok_with_players. by apply Forall_players_update.
  - (* submitAnswer *)
    unfold submitAnswer. destruct (players_get sid _); [|done].
    case_match; [|done]. apply answers_ok_with_players.
    by apply Forall_players_update.
  - (* createParty *)
    unfold createParty in Hstep.
    repeat (case_match; simplify_eq/=; try done);
      (apply answers_ok_with_players; by apply Forall_players_update).
  - (* joinParty *)
    unfold joinParty.
    repeat (case_match; simplify_eq/=; try done);
      (apply answers_ok_with_players; by apply Forall_players_update).
  - (* leaveParty *)
    unfold leaveParty.
    repeat (case_match; simplify_eq/=; try done);
      (apply answers_ok_with_players; by apply Forall_players_update).
  - (* autoStartGame *)
    unfold autoStartGame. repeat (case_match; try done).
    unfold answers_ok. simpl. apply Forall_map_keep; [|done].
    intros p Hp. by case_match.
  - (* startGame, questions fetched *)
    unfold answers_ok. simpl. apply Forall_map_keep; [|done].
    intros p Hp. unfold enrol. by case_match.
  - (* startGame, countdown done *)
    by apply nextQuestion_answers_ok.
  - (* processAnswers *)
    destruct (processAnswers gn r wrongDraw w) as [[w1 out]|] eqn:E; [|done].
    simpl in Hstep. injection Hstep as <-.
    by eapply processAnswers_answers_ok.
  - (* the scheduled callback *)
    destruct s; [by apply endGame_answers_ok | by apply nextQuestion_answers_ok].
  - (* resetGame *)
    unfold answers_ok. simpl. by apply Forall_map_keep.
Qed.

Lemma run_invariant_on (Q : Event → Prop) (P : World → Prop) es w0 w :
  (∀ e w w', Q e → P w → step e w = Some w' → P w') →
  Forall Q es → P w0 → run es w0 = Some w → P w.
Proof.
  intros Hstep Hes. revert w0.
  induction Hes as [|e es He Hes IH]; simpl; intros w0 H0 Hrun.
  - by injection Hrun as <-.
  - destruct (step e w0) as [w1|] eqn:E; [|done]. eauto.
Qed.

(** C10, as the code has it.  [submitAnswer] stores what the client sent
    without looking at it, so an index outside 0..3 does reach the count;
    what holds is that, after any sequence of events in which every
    submitted answer is absent or one of 0..3, every answer slot is empty or
    holds one of 0..3, and a round on well-formed questions then writes no
    count outside the four-element array. *)
Theorem in_range_answers_stay_in_range es w :
  Forall event_in_range es →
  run es world0 = Some w →
  answers_ok w ∧
  ∀ gn r wd w' out,
    Forall well_formed (questions (gameState w)) →
    processAnswers gn r wd w = Some (w', out) →
    stray (round_answerCounts out) = [].
Proof.
  intros Hes Hrun.
  assert (answers_ok w) as Hok.
  { apply (run_invariant_on event_in_range answers_ok es world0 w); try done.
    - intros e w1 w2. apply step_answers_ok.
    - constructor. }
  split; [done|]. intros gn r wd w' out Hqs H.
  apply (round_votes_tidy gn r wd w w' out H); [|done].
  intros p Hp _. by eapply (proj1 (Forall_forall _ _) Hok).
Qed.

(** ** Socket ids are keys *)

Lemma map_id_update sid f ps :
  (∀ p, id (f p) = id p) → map id (players_update sid f ps) = map id ps.
Proof.
  intros Hf. induction ps as [|p ps IH]; simpl; [done|].
  case_decide; simpl; [by rewrite Hf | by rewrite IH].
Qed.

Lemma map_id_map (f : Player → Player) ps :
  (∀ p, id (f p) = id p) → map id (map f ps) = map id ps.
Proof. intros Hf. rewrite map_map. apply map_ext. exact Hf. Qed.

Lemma map_id_core ps ps' : map core ps = map core ps' → map id ps = map id ps'.
Proof.
  intros H. rewrite <- (map_id_map core ps), <- (map_id_map core ps') by done.
  by rewrite H.
Qed.

Lemma elem_of_map_id sid ps : sid ∈ map id ps ↔ ∃ p, p ∈ ps ∧ id p = sid.
Proof.
  rewrite list_elem_of_In, in_map_iff. split.
  - intros (p & Hp & Hin). exists p. by rewrite list_elem_of_In.
  - intros (p & Hin & Hp). exists p. by rewrite <- list_elem_of_In.
Qed.

Lemma NoDup_players_set p ps :
  NoDup (map id ps) → NoDup (map id (players_set p ps)).
Proof.
  induction ps as [|q ps IH]; simpl; intros H.
  - apply NoDup_singleton.
  - apply NoDup_cons in H as [Hq Hps]. case_decide as Hid; simpl.
    + apply NoDup_cons. by rewrite <- Hid.
    + apply NoDup_cons. split; [|auto].
      intros (p' & Hin & Hp')%elem_of_map_id. apply Hq, elem_of_map_id.
      clear IH Hps Hq. induction ps as [|r ps IH]; simpl in Hin.
      * apply list_elem_of_singleton in Hin as ->. congruence.
      * case_decide.
        -- apply elem_of_cons in Hin as [->|Hin]; [congruence|].
           exists p'. split; [by right|done].
        -- apply elem_of_cons in Hin as [->|Hin].
           ++ exists r. split; [left|done].
           ++ destruct (IH Hin) as (p'' & Hin'' & Hp'').
              exists p''. split; [by right|done].
Qed.

Lemma NoDup_players_delete sid ps :
  NoDup (map id ps) → NoDup (map id (players_delete sid ps)).
Proof.
  unfold players_delete. induction ps as [|q ps IH]; simpl; intros H; [done|].
  apply NoDup_cons in H as [Hq Hps]. rewrite filter_cons.
  case_decide; simpl; [|auto]. apply NoDup_cons. split; [|auto].
  intros (p' & Hin & Hp')%elem_of_map_id. apply Hq, elem_of_map_id.
  exists p'. split; [|done]. by apply list_elem_of_filter in Hin as [_ Hin].
Qed.

Lemma players_get_NoDup ps p :
  NoDup (map id ps) → p ∈ ps → players_get (id p) ps = Some p.
Proof.
  induction ps as [|q ps IH]; simpl; intros H Hin.
  - by apply not_elem_of_nil in Hin.
  - apply NoDup_cons in H as [Hq Hps].
    apply elem_of_cons in Hin as [->|Hin].
    + by rewrite decide_True.
    + rewrite decide_False; [auto|]. intros Hid. apply Hq, elem_of_map_id. eauto.
Qed.

Lemma endGame_ids gn w :
  map id (players (gameState (endGame gn w))) = map id (players (gameState w)).
Proof. unfold endGame. simpl. apply map_id_map. intros p. unfold crown. by case_match. Qed.

Lemma nextQuestion_ids gn w :
  map id (players (gameState (nextQuestion gn w))) = map id (players (gameState w)).
Proof.
  unfold nextQuestion. case_match; [apply endGame_ids|]. simpl. by apply map_id_map.
Qed.

(** A handler keeps the socket ids of the registry pairwise distinct. *)
Lemma step_ids e w w' :
  NoDup (map id (players (gameState w))) → step e w = Some w' →
  NoDup (map id (players (gameState w'))).
Proof.
  intros Hnd Hstep.
  destruct e; simpl in Hstep; simplify_eq.
  - (* listen *) done.
  - (* midnight *) done.
  - (* connect *) simpl. by apply NoDup_players_set.
  - (* identify *)
    destruct (identify_players sid pid today w) as [-> | (d & ->)]; [done|].
    rewrite map_id_update; [done|]. intros p. by destruct d.
  - (* disconnect *) rewrite disconnect_players. by apply NoDup_players_delete.
  - (* leaveGame *) simpl. by rewrite map_id_update.
  - (* submitAnswer *)
    unfold submitAnswer. repeat (case_match; try done). simpl.
    by rewrite map_id_update.
  - (* createParty *)
    unfold createParty in Hstep.
    repeat (case_match; simplify_eq/=; try done); by rewrite map_id_update.
  - (* joinParty *)
    unfold joinParty.
    repeat (case_match; simplify_eq/=; try done); by rewrite map_id_update.
  - (* leaveParty *)
    unfold leaveParty.
    repeat (case_match; simplify_eq/=; try done); by rewrite map_id_update.
  - (* autoStartGame *)
    unfold autoStartGame. repeat (case_match; try done). simpl.
    rewrite map_id_map; [done|]. intros p. by case_match.
  - (* startGame, questions fetched *)
    simpl. rewrite map_id_map; [done|]. intros p. unfold enrol. by case_match.
  - (* startGame, countdown done *)
    unfold startGame_countdownDone. by rewrite nextQuestion_ids.
  - (* processAnswers *)
    destruct (processAnswers gn r wrongDraw w) as [[w1 out]|] eqn:E; [|done].
    simpl in Hstep. injection Hstep as <-.
    apply processAnswers_inv in E as (q & _ & _ & Hcore & _). cbv zeta in Hcore.
    rewrite (map_id_core _ _ Hcore). rewrite map_id_map; [done|].
    intros p. unfold judge. by repeat case_match.
  - (* the scheduled callback *)
    destruct s; cbn [intermission];
      [by rewrite endGame_ids | by rewrite nextQuestion_ids].
  - (* resetGame *) simpl. by rewrite map_id_map.
Qed.

Lemma reachable_ids w : reachable w → NoDup (map id (players (gameState w))).
Proof.
  intros [es Hrun].
  apply (run_invariant (λ w, NoDup (map id (players (gameState w)))) es world0 w);
    [|constructor|done].
  intros e w1 w2 H1 H2. by apply (step_ids e w1 w2).
Qed.

(** ** What is filed in the ledger *)

(** One pass of the first [eliminated.forEach]: the record of [x] stays,
    or the player found under [sid] carries [x] and the record now holds
    the position handed in. *)
Lemma save_elimination_ledger pos gn w sid x :
  let w' := save_elimination pos gn w sid in
  date (todayPlayers w') = date (todayPlayers w) ∧
  (ledger (todayPlayers w') !! x = ledger (todayPlayers w) !! x ∨
   (∃ player, players_get sid (players (gameState w)) = Some player ∧ carries x player) ∧
   ∃ e, ledger (todayPlayers w') !! x = Some e ∧ position (result e) = pos).
Proof.
  unfold save_elimination.
  destruct (players_get sid _) as [player|] eqn:Hget; [|by split; [|left]].
  destruct (if_truthy (persistentId player)) as [pid|] eqn:Hpid; simpl.
  - split; [done|]. destruct (decide (pid = x)) as [->|Hne].
    + right. split; [by exists player|]. rewrite lookup_insert_eq. eauto.
    + left. by rewrite lookup_insert_ne.
  - split; [done|]. by left.
Qed.

Lemma fold_save_elimination_ledger pos gn ids w x :
  let w' := fold_left (save_elimination pos gn) ids w in
  date (todayPlayers w') = date (todayPlayers w) ∧
  (ledger (todayPlayers w') !! x = ledger (todayPlayers w) !! x ∨
   (∃ sid c, sid ∈ ids ∧
             players_get sid (map core (players (gameState w))) = Some c ∧
             carries x c) ∧
   ∃ e, ledger (todayPlayers w') !! x = Some e ∧ position (result e) = pos).
Proof.
  revert w. induction ids as [|sid ids IH]; intros w; simpl.
  - split; [done|]. by left.
  - destruct (IH (save_elimination pos gn w sid)) as [Hdate Hfold].
    destruct (save_elimination_ledger pos gn w sid x) as [Hdate1 Hone].
    destruct (save_elimination_game pos gn w sid) as [Hcore _].
    cbv zeta in *. split; [congruence|].
    destruct Hfold as [Hsame|[(sid' & c & Hin & Hget & Hc) He]].
    + rewrite Hsame. destruct Hone as [Hsame1|[(player & Hget & Hc) He]].
      * by left.
      * right. split; [|done]. exists sid, (core player). split; [left|].
        rewrite players_get_map by done. by rewrite Hget.
    + right. split; [|done]. exists sid', c. split; [by right|].
      by rewrite <- Hcore.
Qed.

Lemma tally_player_lists ci t p :
  let t' := tally_player ci t p in
  (eliminated t' = eliminated t ∧ survivors t' = survivors t ∧ active p = false) ∨
  (eliminated t' = eliminated t ∧ survivors t' = (survivors t ++ [id p])%list ∧
   active p = true ∧ currentAnswer p = Some ci) ∨
  (eliminated t' = (eliminated t ++ [id p])%list ∧ survivors t' = survivors t ∧
   active p = true ∧ currentAnswer p ≠ Some ci).
Proof.
  unfold tally_player. destruct (active p); [|by left].
  right. case_decide; [left|right]; done.
Qed.

(** Who is on the list [eliminated]: active players with a wrong or missing
    answer. *)
Lemma tally_eliminated ci ps t sid :
  sid ∈ eliminated (fold_left (tally_player ci) ps t) →
  sid ∈ eliminated t ∨
  ∃ p, p ∈ ps ∧ id p = sid ∧ active p = true ∧ currentAnswer p ≠ Some ci.
Proof.
  revert t. induction ps as [|p ps IH]; intros t; simpl; [by left|].
  intros [Hin|(p' & Hin & Hp')]%IH.
  - destruct (tally_player_lists ci t p) as [(He & _)|[(He & _)|(He & _ & Ha & Hw)]];
      cbv zeta in He; rewrite He in Hin; try by left.
    apply elem_of_app in Hin as [Hin|Hin]; [by left|].
    apply list_elem_of_singleton in Hin as ->. right. exists p. split; [left|done].
  - right. exists p'. split; [by right|done].
Qed.

(** The run of [processAnswers], as far as the ledger and the events go. *)
Lemma processAnswers_records gn r wd w w' out :
  processAnswers gn r wd w = Some (w', out) →
  ∃ ci g1 g3,
    let ids := round_eliminated out in
    let ps1 := map (judge ci) (players (gameState w)) in
    let base := count_players active ps1 + Z.of_nat (length ids) in
    correctIndex (results out) = ci ∧
    ids = eliminated (fold_left (tally_player ci) (players (gameState w)) tally0) ∧
    players g1 = ps1 ∧
    todayPlayers w' =
      todayPlayers (fold_left (save_elimination base gn) ids (with_gameState g1 w)) ∧
    eliminatedEvents out =
      flat_map (eliminated_event (base + aliveGhosts (gameState w)) gn g3) ids.
Proof.
  intros H. unfold processAnswers in H.
  destruct (if currentQuestion (gameState w) <? 0 then None else _) as [q|]; [|done].
  cbv zeta in H.
  set (ci := indexOf (correct q) (answers q)) in *.
  set (t := fold_left (tally_player ci) _ tally0) in *.
  set (ps1 := map (judge ci) _) in *.
  set (new := Math_floor _) in *.
  set (w1 := with_gameState _ w) in *.
  set (w2 := fold_left (save_elimination _ gn) (eliminated t) w1) in *.
  set (w3 := fold_left save_survivor (survivors t) w2) in *.
  assert (gameState w3 = gameState w2) as H32 by apply fold_save_survivor_game.
  destruct (fold_save_elimination_game
              (Z.of_nat (length (List.filter active ps1)) + Z.of_nat (length (eliminated t)))
              gn (eliminated t) w1) as [_ Hgame].
  fold w2 in Hgame.
  assert (aliveGhosts (gameState w3) = new) as Hnew by (by rewrite H32, Hgame).
  assert (todayPlayers w3 = todayPlayers w2) as Htp by apply fold_save_survivor_ledger.
  exists ci, (gameState w1), (gameState w3).
  replace (with_gameState (gameState w1) w) with w1 by done.
  destruct ((9 <=? currentQuestion (gameState w3)) || _);
    injection H as <- <-; simpl; rewrite Hnew; fold (count_players active ps1);
    (split; [done|]); (split; [done|]); (split; [done|]); (split; [exact Htp|]);
    f_equal; f_equal; unfold ps1; lia.
Qed.

Lemma fold_save_winner_ledger gn total ws tp x :
  let tp' := fold_left (save_winner gn total) ws tp in
  date tp' = date tp ∧
  (ledger tp' !! x = ledger tp !! x ∨ ∃ p, p ∈ ws ∧ carries x p).
Proof.
  revert tp. induction ws as [|p ws IH]; intros tp; simpl; [by split; [|left]|].
  destruct (IH (save_winner gn total tp p)) as [Hdate Hfold]. cbv zeta in *.
  assert (date (save_winner gn total tp p) = date tp ∧
          (ledger (save_winner gn total tp p) !! x = ledger tp !! x ∨ carries x p))
    as [Hdate1 Hone].
  { unfold save_winner, carries.
    destruct (if_truthy (persistentId p)) as [pid|]; [|by split; [|left]].
    simpl. split; [done|]. destruct (decide (pid = x)) as [->|Hne]; [by right|].
    left. by rewrite lookup_insert_ne. }
  split; [congruence|].
  destruct Hfold as [Hsame|(p' & Hin & Hp')].
  - rewrite Hsame. destruct Hone as [?|Hc]; [by left|].
    right. exists p. split; [left|done].
  - right. exists p'. split; [by right|done].
Qed.

Lemma endGame_ledger gn w x :
  date (todayPlayers (endGame gn w)) = date (todayPlayers w) ∧
  (ledger (todayPlayers (endGame gn w)) !! x = ledger (todayPlayers w) !! x ∨
   ∃ p, p ∈ players (gameState w) ∧ active p = true ∧ carries x p).
Proof.
  unfold endGame. simpl.
  destruct (fold_save_winner_ledger gn (totalParticipants (gameState w))
              (List.filter active (players (gameState w))) (todayPlayers w) x)
    as [Hdate [Hsame|(p & Hin & Hp)]]; (split; [done|]); [by left|].
  right. exists p. apply list_elem_of_In, filter_In in Hin as [Hin Ha].
  by rewrite list_elem_of_In.
Qed.

Lemma nextQuestion_ledger gn w x :
  date (todayPlayers (nextQuestion gn w)) = date (todayPlayers w) ∧
  (ledger (todayPlayers (nextQuestion gn w)) !! x = ledger (todayPlayers w) !! x ∨
   ∃ p, p ∈ players (gameState w) ∧ active p = true ∧ carries x p).
Proof.
  unfold nextQuestion. case_match; [apply endGame_ledger|]. by split; [|left].
Qed.

Lemma processAnswers_ledger gn r wd w w' out x :
  NoDup (map id (players (gameState w))) →
  processAnswers gn r wd w = Some (w', out) →
  date (todayPlayers w') = date (todayPlayers w) ∧
  (ledger (todayPlayers w') !! x = ledger (todayPlayers w) !! x ∨
   ∃ p, p ∈ players (gameState w) ∧ active p = true ∧ carries x p).
Proof.
  intros Hnd H.
  apply processAnswers_records in H as (ci & g1 & g3 & _ & Hids & Hps1 & Htp & _).
  cbv zeta in Hids, Hps1, Htp. rewrite Htp.
  destruct (fold_save_elimination_ledger
              (count_players active (map (judge ci) (players (gameState w)))
               + Z.of_nat (length (round_eliminated out)))
              gn (round_eliminated out) (with_gameState g1 w) x)
    as [Hdate [Hsame|[(sid & c & Hin & Hget & Hc) _]]];
    cbv zeta in *; (split; [done|]); [by left|].
  right. simpl in Hget. rewrite Hps1 in Hget.
  rewrite Hids in Hin. apply tally_eliminated in Hin as [Hin|(p & Hp & Hid & Ha & _)].
  { by apply not_elem_of_nil in Hin. }
  exists p. split; [done|]. split; [done|].
  rewrite !players_get_map in Hget; [| |done].
  2:{ intros p'. unfold judge. by repeat case_match. }
  rewrite <- Hid, (players_get_NoDup _ _ Hnd Hp) in Hget. simpl in Hget.
  injection Hget as <-. revert Hc. unfold carries, judge. by repeat case_match.
Qed.

(** The handlers that do not file results leave the ledger alone, on the
    day of the ledger. *)
Lemma step_ledger_frame e w w' :
  files_results e = false → same_day e w → step e w = Some w' →
  todayPlayers w' = todayPlayers w.
Proof.
  intros Hf Hday Hstep.
  destruct e; simpl in Hstep, Hday, Hf; simplify_eq; try done.
  - (* identify *)
    unfold identify. destruct (players_get sid _); [|done]. simpl.
    by rewrite decide_True.
  - (* submitAnswer *) unfold submitAnswer. by repeat case_match.
  - (* createParty *)
    unfold createParty in Hstep. by repeat (case_match; simplify_eq/=; try done).
  - (* joinParty *)
    unfold joinParty. by repeat (case_match; simplify_eq/=; try done).
  - (* leaveParty *)
    unfold leaveParty. by repeat (case_match; simplify_eq/=; try done).
  - (* autoStartGame *)
    unfold autoStartGame. by repeat case_match.
Qed.

(** ** C4: the ledger *)

(** C4, as the code has it.  The ledger is a map, so it holds at most one
    record for an identity.  On the day of the ledger no handler changes
    its date, and the record of an identity is written or rewritten only by
    a handler that files results ([processAnswers], [endGame]) while a
    session that carries that identity is still an active participant of
    the game; every other operation, and every round in which no active
    participant carries the identity, leaves the record as it is. *)
Theorem ledger_record_rewritten_only_for_active_carrier e w w' x :
  reachable w → same_day e w → step e w = Some w' →
  date (todayPlayers w') = date (todayPlayers w) ∧
  (ledger (todayPlayers w') !! x ≠ ledger (todayPlayers w) !! x →
   files_results e = true ∧
   ∃ p, p ∈ players (gameState w) ∧ active p = true ∧ carries x p).
Proof.
  intros Hreach Hday Hstep.
  destruct (files_results e) eqn:Hf.
  - assert (date (todayPlayers w') = date (todayPlayers w) ∧
            (ledger (todayPlayers w') !! x = ledger (todayPlayers w) !! x ∨
             ∃ p, p ∈ players (gameState w) ∧ active p = true ∧ carries x p))
      as [Hdate Hx].
    { destruct e; try discriminate Hf; simpl in Hstep.
      - injection Hstep as <-. unfold startGame_countdownDone.
        apply (nextQuestion_ledger gn
                 (with_gameState (set_gstatus playing (gameState w)) w) x).
      - destruct (processAnswers gn r wrongDraw w) as [[w1 out]|] eqn:E; [|done].
        simpl in Hstep. injection Hstep as <-.
        eapply processAnswers_ledger; [|exact E]. by apply reachable_ids.
      - injection Hstep as <-.
        destruct s; [apply endGame_ledger | apply nextQuestion_ledger]. }
    split; [done|]. intros Hne. split; [done|]. by destruct Hx.
  - rewrite (step_ledger_frame e w w' Hf Hday Hstep). split; [done|]. done.
Qed.

(** ** C2: the position of the players eliminated in a round *)

Lemma eliminated_event_position pos gn g ids sid res :
  (sid, res) ∈ flat_map (eliminated_event pos gn g) ids → position res = pos.
Proof.
  rewrite list_elem_of_In, in_flat_map. intros (playerId & _ & Hin).
  unfold eliminated_event in Hin. destruct (players_get playerId _); [|done].
  destruct (negb _); [|done]. destruct Hin as [[= _ <-]|[]]. done.
Qed.

(** The positions that a round hands out.  Every record the round files
    holds the number of real participants still in the game plus the number
    of real participants eliminated in the round; every [eliminated] event
    of the round holds that number plus the number of ghosts that were alive
    when the round began. *)
Lemma round_positions gn r wd w w' out :
  processAnswers gn r wd w = Some (w', out) →
  let base := count_players active (players (gameState w'))
              + Z.of_nat (length (round_eliminated out)) in
  (∀ x e, ledger (todayPlayers w') !! x = Some e →
          ledger (todayPlayers w) !! x = Some e ∨ position (result e) = base) ∧
  (∀ sid res, (sid, res) ∈ eliminatedEvents out →
              position res = base + aliveGhosts (gameState w)).
Proof.
  intros H base. pose proof H as Hinv.
  apply processAnswers_inv in Hinv as (q & _ & _ & Hcore & _ & _ & _ & _ & _ & Hci & _).
  cbv zeta in Hcore, Hci.
  apply processAnswers_records in H as (ci & g1 & g3 & Hci' & Hids & Hps1 & Htp & Hev).
  cbv zeta in Hids, Hps1, Htp, Hev.
  assert (count_players active (map (judge ci) (players (gameState w)))
          = count_players active (players (gameState w'))) as Hcount.
  { rewrite (count_active_core _ _ Hcore). congruence. }
  rewrite Hcount in Htp, Hev. fold base in Htp, Hev. split.
  - intros x e Hx. rewrite Htp in Hx.
    destruct (fold_save_elimination_ledger base gn (round_eliminated out)
                (with_gameState g1 w) x) as [_ [Hsame|[_ (e' & He' & Hpos)]]];
      cbv zeta in *.
    + left. rewrite Hsame in Hx. exact Hx.
    + right. congruence.
  - intros sid res Hin. rewrite Hev in Hin.
    by apply eliminated_event_position in Hin.
Qed.

(** * Further properties of the server *)

(** ** Shuffling *)

Lemma swap_Permutation {A} (i j : nat) (l : list A) : swap i j l ≡ₚ l.
Proof.
  unfold swap. destruct (l !! i) as [x|] eqn:Hi; [|done].
  destruct (l !! j) as [y|] eqn:Hj; [|done].
  pose proof (lookup_lt_Some _ _ _ Hi) as Hli.
  pose proof (lookup_lt_Some _ _ _ Hj) as Hlj.
  apply Permutation_inj. split; [by rewrite !length_insert|].
  exists (λ k, if decide (k = i) then j else if decide (k = j) then i else k).
  split.
  - intros a b. repeat case_decide; congruence.
  - intros k. rewrite !list_lookup_insert, !length_insert.
    repeat case_decide; simplify_eq; try done; try lia.
    all: try (destruct_and?; simplify_eq; done).
    all: try (exfalso; naive_solver lia).
Qed.

Lemma shuffle_from_Permutation {A} (i k : nat) draw (l : list A) :
  shuffle_from i k draw l ≡ₚ l.
Proof.
  revert k l. induction i as [|i IH]; intros k l; simpl; [done|].
  rewrite IH. apply swap_Permutation.
Qed.

Lemma shuffleArray_Permutation {A} draw (array : list A) :
  shuffleArray draw array ≡ₚ array.
Proof. apply shuffle_from_Permutation. Qed.

(** X1.  Whatever [Math.random] returns, [shuffleArray] returns a
    rearrangement of its argument: the same elements, each as often as
    before. *)
Theorem shuffleArray_permutes {A} draw (array : list A) :
  shuffleArray draw array ≡ₚ array ∧
  length (shuffleArray draw array) = length array ∧
  ∀ x, x ∈ shuffleArray draw array ↔ x ∈ array.
Proof.
  pose proof (shuffleArray_Permutation draw array) as H.
  split; [done|]. split; [by rewrite H|]. intros x. by rewrite H.
Qed.

(** ** Sorting *)

Lemma insert_by_Permutation {A} (cmp : A → A → Z) x l : insert_by cmp x l ≡ₚ x :: l.
Proof.
  induction l as [|y l IH]; simpl; [done|].
  case_match; [|done]. rewrite IH. apply Permutation_swap.
Qed.

Lemma sort_by_Permutation {A} (cmp : A → A → Z) l : sort_by cmp l ≡ₚ l.
Proof.
  induction l as [|x l IH]; simpl; [done|].
  by rewrite insert_by_Permutation, IH.
Qed.

Section sorted.
Context {A : Type} (cmp : A → A → Z) (R : A → A → Prop).
Hypothesis R_trans : ∀ x y z, R x y → R y z → R x z.
Hypothesis cmp_after : ∀ x y, 0 < cmp x y → R y x.
Hypothesis cmp_before : ∀ x y, cmp x y ≤ 0 → R x y.

Lemma insert_by_sorted x l :
  StronglySorted R l → StronglySorted R (insert_by cmp x l).
Proof.
  induction 1 as [|y l Hl IH Hy]; simpl.
  - repeat constructor.
  - destruct (Z.ltb_spec 0 (cmp x y)) as [Hgt|Hle].
    + constructor; [done|].
      rewrite Forall_forall. intros z Hz.
      rewrite insert_by_Permutation in Hz.
      apply elem_of_cons in Hz as [->|Hz]; [by apply cmp_after|].
      by eapply (proj1 (Forall_forall _ _) Hy).
    + constructor; [by constructor|].
      constructor; [by apply cmp_before|].
      eapply Forall_impl; [exact Hy|]. intros z Hz.
      eapply R_trans; [|exact Hz]. by apply cmp_before.
Qed.

Lemma sort_by_sorted l : StronglySorted R (sort_by cmp l).
Proof.
  induction l as [|x l IH]; simpl; [constructor|]. by apply insert_by_sorted.
Qed.
End sorted.

Lemma StronglySorted_lookup {A} (R : A → A → Prop) l i j x y :
  StronglySorted R l → (i < j)%nat → l !! i = Some x → l !! j = Some y → R x y.
Proof.
  intros Hl. revert i j. induction Hl as [|z l Hl IH Hz]; intros i j Hij Hi Hj; [done|].
  destruct i as [|i], j as [|j]; try lia; simpl in *.
  - injection Hi as ->. eapply (proj1 (Forall_forall _ _) Hz).
    by eapply list_elem_of_lookup_2.
  - apply (IH i j); [lia|done|done].
Qed.

Lemma StronglySorted_take {A} (R : A → A → Prop) n l :
  StronglySorted R l → StronglySorted R (take n l).
Proof.
  intros Hl. revert n. induction Hl as [|z l Hl IH Hz]; intros [|n]; simpl;
    try constructor; [by apply IH|].
  rewrite Forall_forall. intros y Hy.
  eapply (proj1 (Forall_forall _ _) Hz). by eapply subseteq_take.
Qed.

(** ** The question provider *)

Lemma well_formed_shuffled draw q :
  well_formed q → well_formed (set_answers (shuffleArray draw (answers q)) q).
Proof.
  intros [Hlen Hin]. pose proof (shuffleArray_Permutation draw (answers q)) as H.
  split; simpl; [by rewrite H | by rewrite H].
Qed.

(** X2.  Whatever the shuffles draw, [getEmergencyQuestions] returns ten
    questions, three EASY, three MEDIUM and four HARD in that order, each
    with four answers of which one is the correct one; and that is what
    [fetchDailyQuestions] returns, leaving its cache as it was, when the
    questions of the day are not cached, the API fails and there is no
    backup file. *)
Theorem getEmergencyQuestions_ten_well_formed draws :
  length (getEmergencyQuestions draws) = 10%nat ∧
  map difficulty (getEmergencyQuestions draws) =
    ["EASY"; "EASY"; "EASY"; "MEDIUM"; "MEDIUM"; "MEDIUM";
     "HARD"; "HARD"; "HARD"; "HARD"] ∧
  Forall well_formed (getEmergencyQuestions draws) ∧
  ∀ today write_ok draws' dq,
    dq_date dq ≠ Some today →
    fetchDailyQuestions today None write_ok None draws' draws dq =
      {| fetched := getEmergencyQuestions draws; cache := dq; written := None |}.
Proof.
  split; [reflexivity|]. split; [reflexivity|]. split.
  - unfold getEmergencyQuestions, emergency_questions.
    repeat (rewrite imap_cons; apply Forall_cons_2;
            [apply well_formed_shuffled; split; [reflexivity|set_solver]|]).
    apply Forall_nil_2.
  - intros today write_ok draws' dq Hdate. unfold fetchDailyQuestions.
    by rewrite decide_False.
Qed.

Lemma by_difficulty_sorted data :
  StronglySorted (λ a b, order (api_difficulty a) ≤ order (api_difficulty b))
    (sort_by by_difficulty data).
Proof.
  apply sort_by_sorted; unfold by_difficulty; intros; lia.
Qed.

(** X3.  The questions that [fetchDailyQuestions] makes of an API response:
    as many as the response holds, taken in the order easy, medium, hard of
    the difficulty the API reported; the question at index 0, 1, 2 is
    labelled EASY, at 3, 4, 5 MEDIUM and every later one HARD, whatever the
    API reported; its text, correct answer and category are those of an
    element of the response, and its answers are a rearrangement of that
    element's correct answer and incorrect answers, so the correct answer is
    among them. *)
Theorem format_questions_by_index draws data :
  length (format_questions draws data) = length data ∧
  (∃ sorted,
     sorted ≡ₚ data ∧
     StronglySorted (λ a b, order (api_difficulty a) ≤ order (api_difficulty b)) sorted ∧
     ∀ i q, format_questions draws data !! i = Some q →
       ∃ a, sorted !! i = Some a ∧ a ∈ data ∧
            difficulty q = tier i ∧
            question q = api_text a ∧ correct q = correctAnswer a ∧
            category q = api_category a ∧
            answers q ≡ₚ correctAnswer a :: incorrectAnswers a ∧
            correct q ∈ answers q).
Proof.
  unfold format_questions. split.
  - rewrite length_imap. apply Permutation_length, sort_by_Permutation.
  - exists (sort_by by_difficulty data).
    split; [apply sort_by_Permutation|]. split; [apply by_difficulty_sorted|].
    intros i q Hq. apply list_lookup_imap_Some in Hq as (a & Ha & ->).
    exists a. split; [done|]. split.
    { rewrite <- (sort_by_Permutation by_difficulty data).
      by eapply list_elem_of_lookup_2. }
    pose proof (shuffleArray_Permutation (draws i)
                  (correctAnswer a :: incorrectAnswers a)) as Hperm.
    simpl. repeat (split; [done|]). rewrite Hperm. left.
Qed.

(** X4.  As long as writing the file does not fail, the calls of
    [fetchDailyQuestions] on one day agree: once a call has left the cache
    dated today, every later call with that date returns the questions that
    call returned, whatever the API would answer and whatever the backup
    file holds, and writes nothing. *)
Theorem fetchDailyQuestions_same_day today response backup draws emergencyDraws dq
    response' write_ok' backup' draws' emergencyDraws' :
  let first := fetchDailyQuestions today response true backup draws emergencyDraws dq in
  dq_date (cache first) = Some today →
  fetchDailyQuestions today response' write_ok' backup' draws' emergencyDraws'
    (cache first) =
    {| fetched := fetched first; cache := cache first; written := None |}.
Proof.
  intros first Hdate.
  assert (fetched first = dq_questions (cache first)) as ->.
  { revert Hdate. unfold first, fetchDailyQuestions, fetch_fallback.
    case_decide; [done|]. destruct response; [done|].
    destruct backup; [done|]. simpl. congruence. }
  unfold fetchDailyQuestions at 1. by rewrite decide_True.
Qed.

(** ** Party codes, again *)

Lemma string_get_elem n s a :
  String.get n s = Some a → a ∈ list_ascii_of_string s.
Proof.
  revert n. induction s as [|b s IH]; simpl; intros n Hn; [done|].
  destruct n; [injection Hn as ->; left | right; eauto].
Qed.

Lemma charAt_chars_elem (r : Rand) :
  ∃ a, charAt chars (Math_floor (rnd r * inject_Z (Z.of_nat (String.length chars))))
       = String a EmptyString ∧ a ∈ list_ascii_of_string chars.
Proof.
  pose proof (floor_draw_range r (Z.of_nat (String.length chars))) as Hr.
  set (i := Math_floor _) in *. unfold charAt.
  assert (0 < Z.of_nat (String.length chars)) as Hpos by (simpl; lia).
  specialize (Hr Hpos).
  destruct (Z.ltb_spec i 0); [lia|].
  destruct (string_get_lt (Z.to_nat i) chars) as [a Ha]; [lia|].
  rewrite Ha. exists a. split; [done|]. by eapply string_get_elem.
Qed.

Lemma code_chars_shape n i draw :
  String.length (code_chars n i draw) = n ∧ in_alphabet (code_chars n i draw).
Proof.
  revert i. induction n as [|n IH]; intros i; cbn [code_chars].
  - split; [done|]. intros a Ha. by apply not_elem_of_nil in Ha.
  - destruct (charAt_chars_elem (draw i)) as (a & -> & Ha).
    destruct (IH (S i)) as [Hlen Hal].
    change (String.append (String a EmptyString) (code_chars n (S i) draw))
      with (String a (code_chars n (S i) draw)).
    split; [cbn [String.length]; by rewrite Hlen|].
    intros b Hb. cbn [list_ascii_of_string] in Hb.
    apply elem_of_cons in Hb as [->|Hb]; [done|]. by apply Hal.
Qed.

(** X5.  When the loop of [generatePartyCode] ends, the code it returns has
    six characters, all from the alphabet without look-alikes, and is the
    code of no party in the registry. *)
Theorem generatePartyCode_six_fresh draws ps c :
  generatePartyCode draws ps = Some c →
  String.length c = 6%nat ∧ in_alphabet c ∧ ps !! c = None.
Proof.
  induction draws as [|draw rest IH]; cbn [generatePartyCode]; [done|].
  destruct (ps !! code_chars 6 0 draw) eqn:E; [exact IH|].
  intros Hc. assert (c = code_chars 6 0 draw) as -> by congruence.
  destruct (code_chars_shape 6 0 draw). done.
Qed.

(** ** Starting a game *)

(** X6.  [autoStartGame] does nothing unless the game is in Waiting and at
    least one session has not played today; then it marks every session
    that has not played as ready, sets the waiting count to 0 and puts the
    game in Starting, and it touches neither the parties nor the ledger. *)
Theorem autoStartGame_guard w :
  (gstatus (gameState w) ≠ waiting ∨ realWaiting (players (gameState w)) = 0 →
   autoStartGame w = w) ∧
  (gstatus (gameState w) = waiting → realWaiting (players (gameState w)) ≠ 0 →
   gstatus (gameState (autoStartGame w)) = starting ∧
   waitingCount (gameState (autoStartGame w)) = 0 ∧
   parties (autoStartGame w) = parties w ∧
   todayPlayers (autoStartGame w) = todayPlayers w ∧
   ∀ sid p, players_get sid (players (gameState w)) = Some p →
     players_get sid (players (gameState (autoStartGame w))) =
       Some (if hasPlayedToday p then p else set_ready true p)).
Proof.
  unfold autoStartGame, realWaiting, count_players. split.
  - intros [Hs|Hn].
    + by rewrite bool_decide_eq_false_2.
    + case_bool_decide; [|done].
      destruct (Nat.eqb_spec (length (List.filter (λ p, negb (hasPlayedToday p))
                                        (players (gameState w)))) 0); [done|lia].
  - intros Hs Hn. rewrite bool_decide_eq_true_2 by done.
    destruct (Nat.eqb_spec (length (List.filter (λ p, negb (hasPlayedToday p))
                                      (players (gameState w)))) 0); [lia|].
    simpl. repeat (split; [done|]). intros sid p Hget.
    rewrite players_get_map, Hget; [|intros q; by destruct (hasPlayedToday q)].
    simpl. by destruct (hasPlayedToday p).
Qed.

Lemma count_players_length f ps :
  count_players f ps = Z.of_nat (length (List.filter f ps)).
Proof. done. Qed.

(** X7.  The snapshot that [startGame] takes once the questions are there:
    the cursor is at 0, the total is the number of sessions that have
    neither played today nor left, plus the ghost population; each such
    session becomes an alive participant with no correct answer, no answer
    and the played-today flag set, and every other session is left exactly
    as it was. *)
Theorem startGame_snapshot qs w sid p :
  players_get sid (players (gameState w)) = Some p →
  let w' := startGame_fetched qs w in
  questions (gameState w') = qs ∧ currentQuestion (gameState w') = 0 ∧
  totalParticipants (gameState w') =
    count_players eligible (players (gameState w)) + ghostPlayers (gameState w) ∧
  aliveGhosts (gameState w') = aliveGhosts (gameState w) ∧
  ∃ p', players_get sid (players (gameState w')) = Some p' ∧
        if eligible p
        then active p' = true ∧ correctAnswers p' = 0 ∧ currentAnswer p' = None ∧
             hasPlayedToday p' = true ∧ persistentId p' = persistentId p
        else p' = p.
Proof.
  intros Hget w'. unfold w', startGame_fetched. simpl.
  repeat (split; [done|]).
  exists (enrol p). split.
  - rewrite players_get_map, Hget; [done|]. intros q. unfold enrol. by case_match.
  - unfold enrol, eligible. destruct (negb (hasPlayedToday p) && negb (leftGame p)) eqn:E.
    + apply andb_true_iff in E as [_ El]. apply negb_true_iff in El.
      unfold active. simpl. by rewrite El.
    + done.
Qed.

(** ** Answers *)

Lemma players_update_ext sid (f g : Player → Player) ps :
  (∀ p, f p = g p) → players_update sid f ps = players_update sid g ps.
Proof.
  intros H. induction ps as [|p ps IH]; simpl; [done|].
  case_decide; [by rewrite H | by rewrite IH].
Qed.

Lemma players_update_twice sid (f g : Player → Player) ps :
  (∀ p, id (g p) = id p) →
  players_update sid f (players_update sid g ps) = players_update sid (λ p, f (g p)) ps.
Proof.
  intros Hg. induction ps as [|p ps IH]; simpl; [done|].
  case_decide as Hp; simpl.
  - by rewrite Hg, decide_True.
  - by rewrite decide_False, IH.
Qed.

Lemma players_update_absent sid f ps :
  players_get sid ps = None → players_update sid f ps = ps.
Proof.
  induction ps as [|p ps IH]; simpl; [done|].
  case_decide as Hp; [done|]. intros Hn. by rewrite IH.
Qed.

(** The test of [submitAnswer]. *)
Lemma submitAnswer_cases sid a w :
  (∃ p, players_get sid (players (gameState w)) = Some p ∧
        alive p = true ∧ leftGame p = false ∧ gstatus (gameState w) = playing ∧
        submitAnswer sid a w =
          with_players (players_update sid (set_currentAnswer a) (players (gameState w))) w)
  ∨ ((players_get sid (players (gameState w)) = None ∨
      gstatus (gameState w) ≠ playing ∨
      ∃ p, players_get sid (players (gameState w)) = Some p ∧
           (alive p = false ∨ leftGame p = true)) ∧
     submitAnswer sid a w = w).
Proof.
  unfold submitAnswer. destruct (players_get sid _) as [p|] eqn:Hget; [|right; auto].
  destruct (alive p) eqn:Ha; simpl; [|right; split; [|done]; right; right; eauto].
  case_bool_decide as Hs; simpl; [|right; auto].
  destruct (leftGame p) eqn:Hl; simpl; [right; split; [|done]; right; right; eauto|].
  left. exists p. auto.
Qed.

(** X8.  [submitAnswer] is ignored, leaving the whole state as it was,
    when the socket has no player object, when the game is not in Playing,
    and when the player is not alive or has left the game; otherwise the
    answer slot of that player, and nothing else of it, takes the value
    sent. *)
Theorem submitAnswer_guard sid a w :
  ((players_get sid (players (gameState w)) = None ∨
    gstatus (gameState w) ≠ playing ∨
    ∃ p, players_get sid (players (gameState w)) = Some p ∧
         (alive p = false ∨ leftGame p = true)) →
   submitAnswer sid a w = w) ∧
  (∀ p, players_get sid (players (gameState w)) = Some p →
        alive p = true → leftGame p = false → gstatus (gameState w) = playing →
        players_get sid (players (gameState (submitAnswer sid a w)))
          = Some (set_currentAnswer a p)).
Proof.
  split.
  - intros Hcase.
    destruct (submitAnswer_cases sid a w) as [(p & Hget & Ha & Hl & Hs & _)|[_ H]];
      [|done].
    destruct Hcase as [Hn|[Hn|(q & Hq & [Hq'|Hq'])]]; congruence.
  - intros p Hget Ha Hl Hs.
    destruct (submitAnswer_cases sid a w) as [(q & Hq & _ & _ & _ & ->)|[Hcase _]].
    + simpl. rewrite players_get_update by done. rewrite decide_True by done.
      by rewrite Hget.
    + destruct Hcase as [Hn|[Hn|(q & Hq & [Hq'|Hq'])]]; congruence.
Qed.

(** X9.  The last answer counts: two answers of a session in a row leave
    the state that the second one alone leaves; and an answer changes the
    player object of no other session. *)
Theorem submitAnswer_last_wins sid a b w :
  submitAnswer sid b (submitAnswer sid a w) = submitAnswer sid b w ∧
  ∀ sid', sid' ≠ sid →
    players_get sid' (players (gameState (submitAnswer sid a w)))
      = players_get sid' (players (gameState w)).
Proof.
  split.
  - destruct (submitAnswer_cases sid a w) as [(p & Hget & Ha & Hl & Hs & Heq)|[_ ->]];
      [|done].
    rewrite Heq. unfold submitAnswer at 1 2. simpl.
    rewrite players_get_update by done. rewrite decide_True by done.
    rewrite Hget. simpl. rewrite Ha, Hl, bool_decide_eq_true_2 by done. simpl.
    unfold with_players. simpl. rewrite players_update_twice by done.
    rewrite (players_update_ext sid _ (set_currentAnswer b)) by done.
    by destruct w as [[] ? ?].
  - intros sid' Hne.
    destruct (submitAnswer_cases sid a w) as [(p & _ & _ & _ & _ & ->)|[_ ->]];
      [|done].
    simpl. rewrite players_get_update by done. by rewrite decide_False.
Qed.

(** ** The round, session by session and by the numbers *)

Lemma active_judge ci p : active (judge ci p) = answered_right ci p.
Proof.
  unfold judge, answered_right. destruct (active p) eqn:E; simpl; [|exact E].
  case_decide as Hc.
  - rewrite bool_decide_eq_true_2 by done. exact E.
  - rewrite bool_decide_eq_false_2 by done. done.
Qed.

Lemma count_active_judge ci ps :
  count_players active (map (judge ci) ps) = count_players (answered_right ci) ps.
Proof.
  unfold count_players.
  rewrite (length_filter_map active (map (judge ci) ps)),
          (length_filter_map (answered_right ci) ps), map_map.
  do 3 f_equal. apply map_ext. intros p. apply active_judge.
Qed.

Lemma count_active_split ci ps :
  count_players active ps =
    count_players (answered_right ci) ps + count_players (answered_wrong ci) ps.
Proof.
  unfold count_players, answered_right, answered_wrong.
  induction ps as [|p ps IH]; simpl; [done|].
  destruct (active p); simpl; [|exact IH].
  destruct (bool_decide _); simpl; lia.
Qed.

(** The two lists of the loop over the players. *)
Lemma tally_lists ci ps t :
  eliminated (fold_left (tally_player ci) ps t) =
    (eliminated t ++ map id (List.filter (answered_wrong ci) ps))%list ∧
  survivors (fold_left (tally_player ci) ps t) =
    (survivors t ++ map id (List.filter (answered_right ci) ps))%list.
Proof.
  revert t. induction ps as [|p ps IH]; intros t; simpl.
  - by rewrite !app_nil_r.
  - destruct (IH (tally_player ci t p)) as [-> ->].
    unfold answered_wrong, answered_right.
    destruct (tally_player_lists ci t p)
      as [(-> & -> & ->)|[(-> & -> & -> & Hc)|(-> & -> & -> & Hc)]]; simpl.
    + done.
    + rewrite bool_decide_eq_true_2 by done. simpl. by rewrite <- app_assoc.
    + rewrite bool_decide_eq_false_2 by done. simpl. by rewrite <- app_assoc.
Qed.

(** The number of answers of the real participants. *)
Lemma tally_totalAnswers ci ps t :
  totalAnswers (fold_left (tally_player ci) ps t) =
    totalAnswers t + count_players answered ps.
Proof.
  revert t. induction ps as [|p ps IH]; intros t; simpl.
  - unfold count_players. simpl. lia.
  - rewrite IH. unfold count_players, tally_player, answered. simpl.
    destruct (active p); simpl; [|done].
    destruct (currentAnswer p) as [a|].
    + rewrite bool_decide_eq_true_2 by done. simpl. case_decide; simpl; lia.
    + rewrite bool_decide_eq_false_2 by (intros H; by apply H). simpl.
      try case_decide; simpl; lia.
Qed.

Lemma players_get_core sid ps ps' :
  map core ps = map core ps' →
  core <$> players_get sid ps = core <$> players_get sid ps'.
Proof.
  intros H. rewrite <- !(players_get_map core) by done. by rewrite H.
Qed.

(** X10.  What a round does to one session.  A session that takes part
    (alive, not gone, enrolled) and whose answer slot holds the index of
    the correct answer stays alive with one more correct answer; a session
    that takes part with any other answer, or none, is no longer alive; a
    session that does not take part keeps both fields.  No other field but
    the record of the day changes. *)
Theorem processAnswers_judges_each_session gn r wd w w' out sid p :
  processAnswers gn r wd w = Some (w', out) →
  players_get sid (players (gameState w)) = Some p →
  ∃ q p',
    questions (gameState w) !! Z.to_nat (currentQuestion (gameState w)) = Some q ∧
    players_get sid (players (gameState w')) = Some p' ∧
    core p' = core (judge (indexOf (correct q) (answers q)) p) ∧
    (if active p then
       if decide (currentAnswer p = Some (indexOf (correct q) (answers q)))
       then alive p' = true ∧ correctAnswers p' = correctAnswers p + 1
       else alive p' = false ∧ correctAnswers p' = correctAnswers p
     else alive p' = alive p ∧ correctAnswers p' = correctAnswers p).
Proof.
  intros H Hget.
  apply processAnswers_inv in H as (q & _ & Hq & Hcore & _). cbv zeta in Hcore.
  apply (players_get_core sid) in Hcore.
  rewrite players_get_map, Hget in Hcore
    by (intros p0; unfold judge; repeat case_match; done).
  destruct (players_get sid (players (gameState w'))) as [p'|]; [|done].
  assert (core p' = core (judge (indexOf (correct q) (answers q)) p)) as Hc
    by (simpl in Hcore; congruence).
  clear Hcore. rename Hc into Hcore. exists q, p'. repeat (split; [done|]).
  assert (alive p' = alive (judge (indexOf (correct q) (answers q)) p) ∧
          correctAnswers p' = correctAnswers (judge (indexOf (correct q) (answers q)) p))
    as [-> ->].
  { split; [exact (f_equal alive Hcore) | exact (f_equal correctAnswers Hcore)]. }
  unfold judge. destruct (active p) eqn:Ha; [|done].
  case_decide; simpl; [|done]. split; [|done].
  unfold active in Ha. by destruct (alive p).
Qed.

(** The numbers of the [results] event. *)
Lemma processAnswers_results gn r wd w w' out :
  processAnswers gn r wd w = Some (w', out) →
  results_eliminated (results out) =
    Z.of_nat (length (round_eliminated out)) + ghostsEliminated out ∧
  results_remaining (results out) = remaining w' ∧
  results_totalPlayers (results out) = totalParticipants (gameState w).
Proof.
  intros H. unfold processAnswers in H.
  destruct (if currentQuestion (gameState w) <? 0 then None else _) as [q|]; [|done].
  cbv zeta in H.
  set (ci := indexOf (correct q) (answers q)) in *.
  set (t := fold_left (tally_player ci) _ tally0) in *.
  set (ps1 := map (judge ci) _) in *.
  set (new := Math_floor _) in *.
  set (w1 := with_gameState _ w) in *.
  set (w2 := fold_left (save_elimination _ gn) (eliminated t) w1) in *.
  set (w3 := fold_left save_survivor (survivors t) w2) in *.
  assert (gameState w3 = gameState w2) as H32 by apply fold_save_survivor_game.
  destruct (fold_save_elimination_game
              (Z.of_nat (length (List.filter active ps1)) + Z.of_nat (length (eliminated t)))
              gn (eliminated t) w1) as [Hcore Hgame].
  fold w2 in Hcore, Hgame.
  assert (count_players active (players (gameState w3)) = count_players active ps1)
    as Hcount by (rewrite H32; by apply count_active_core).
  assert (totalParticipants (gameState w3) = totalParticipants (gameState w)) as Htot
    by (by rewrite H32, Hgame).
  unfold remaining.
  destruct (_ || _); injection H as <- <-; simpl; rewrite Hcount, Htot; done.
Qed.

(** X11.  The head count of a round adds up: the number of eliminated in
    the [results] event plus the number of remaining is the number of
    participants, real and ghost, that were in the game when the round
    began; and that number is the position that every [eliminated] event of
    the round carries. *)
Theorem processAnswers_head_count gn r wd w w' out :
  processAnswers gn r wd w = Some (w', out) →
  results_eliminated (results out) + results_remaining (results out) = remaining w ∧
  results_remaining (results out) = remaining w' ∧
  Z.of_nat (length (round_eliminated out)) + Z.of_nat (length (round_survivors out))
    = count_players active (players (gameState w)) ∧
  ∀ sid res, (sid, res) ∈ eliminatedEvents out → position res = remaining w.
Proof.
  intros H. pose proof (round_positions _ _ _ _ _ _ H) as [_ Hpos]. cbv zeta in Hpos.
  pose proof H as Hinv.
  apply processAnswers_inv in Hinv
    as (q & _ & _ & Hcore & Hg & _ & He & Hs & Hgh & _). cbv zeta in *.
  set (ci := indexOf (correct q) (answers q)) in *.
  destruct (tally_lists ci (players (gameState w)) tally0) as [Hel Hsu].
  simpl in Hel, Hsu. rewrite Hel in He. rewrite Hsu in Hs.
  assert (count_players active (players (gameState w')) =
          count_players (answered_right ci) (players (gameState w))) as Hcount.
  { rewrite (count_active_core _ _ Hcore). apply count_active_judge. }
  assert (Z.of_nat (length (round_eliminated out)) =
          count_players (answered_wrong ci) (players (gameState w))) as Hne.
  { rewrite He, length_map. done. }
  assert (Z.of_nat (length (round_survivors out)) =
          count_players (answered_right ci) (players (gameState w))) as Hns.
  { rewrite Hs, length_map. done. }
  pose proof (count_active_split ci (players (gameState w))) as Hsplit.
  assert (aliveGhosts (gameState w') =
          Math_floor (inject_Z (aliveGhosts (gameState w))
                      * correctRate (currentQuestion (gameState w) + 1) r)) as Hnew.
  { by rewrite Hg. }
  destruct (processAnswers_results _ _ _ _ _ _ H) as (Hrel & Hrem & _).
  split; [|split; [done|split]].
  - rewrite Hrel, Hrem. unfold remaining. rewrite Hcount, Hne, Hgh, Hsplit. lia.
  - rewrite Hne, Hns, Hsplit. lia.
  - intros sid res Hin. rewrite (Hpos sid res Hin). unfold remaining.
    rewrite Hcount, Hne, Hsplit. lia.
Qed.

(** X12.  The total that the percentages are taken of is the number of
    participating sessions that gave an answer, whatever it is, plus the
    number of ghosts alive when the round began: every ghost votes. *)
Theorem processAnswers_vote_total gn r wd w w' out :
  0 ≤ aliveGhosts (gameState w) →
  processAnswers gn r wd w = Some (w', out) →
  round_totalAnswers out =
    count_players answered (players (gameState w)) + aliveGhosts (gameState w).
Proof.
  intros Hgh H.
  apply processAnswers_inv in H as (q & _ & _ & _ & _ & _ & _ & _ & _ & _ & Hv & _).
  cbv zeta in Hv. apply (f_equal snd) in Hv. cbn [snd] in Hv. rewrite Hv.
  destruct (correctRate_unit (currentQuestion (gameState w) + 1) r) as [H0 H1].
  pose proof (floor_share_range (aliveGhosts (gameState w)) _ Hgh H0 H1) as Hr.
  set (new := Math_floor _) in *.
  unfold ghost_votes. cbv zeta. cbn [fst snd]. rewrite tally_totalAnswers.
  destruct (Z.ltb_spec 0 (aliveGhosts (gameState w) - new)); cbn [snd tally0 totalAnswers]; lia.
Qed.

Lemma filter_right_cleared ci ps :
  List.filter (answered_right ci) (map (set_currentAnswer None) ps) = [].
Proof.
  induction ps as [|p ps IH]; simpl; [done|].
  unfold answered_right at 1. cbn [currentAnswer set_currentAnswer].
  rewrite bool_decide_eq_false_2 by done. by rewrite andb_false_r.
Qed.

Lemma count_wrong_cleared ci ps :
  count_players (answered_wrong ci) (map (set_currentAnswer None) ps)
    = count_players active ps.
Proof.
  unfold count_players. induction ps as [|p ps IH]; simpl; [done|].
  unfold answered_wrong at 1. cbn [currentAnswer set_currentAnswer].
  rewrite bool_decide_eq_false_2 by done. cbn [negb]. rewrite andb_true_r.
  change (active (set_currentAnswer None p)) with (active p).
  destruct (active p); simpl; lia.
Qed.

(** X13.  A round in which no answer comes in: when [nextQuestion] has
    put a question out and the timer runs out before any [submitAnswer],
    every participating session is eliminated and none survives. *)
Theorem unanswered_round_eliminates_all gn0 gn r wd w w' out :
  currentQuestion (gameState w) < Z.of_nat (length (questions (gameState w))) →
  processAnswers gn r wd (nextQuestion gn0 w) = Some (w', out) →
  round_survivors out = [] ∧
  Z.of_nat (length (round_eliminated out)) = count_players active (players (gameState w)) ∧
  count_players active (players (gameState w')) = 0.
Proof.
  intros Hlt H. unfold nextQuestion in H.
  destruct (Z.leb_spec (Z.of_nat (length (questions (gameState w))))
              (currentQuestion (gameState w))); [lia|].
  apply processAnswers_inv in H as (q & _ & _ & Hcore & _ & _ & He & Hs & _).
  cbv zeta in Hcore, He, Hs. simpl in Hcore, He, Hs.
  set (ci := indexOf (correct q) (answers q)) in *.
  destruct (tally_lists ci (map (set_currentAnswer None) (players (gameState w))) tally0)
    as [Hel Hsu].
  simpl in Hel, Hsu. rewrite Hel in He. rewrite Hsu in Hs.
  rewrite filter_right_cleared in Hs. split; [done|]. split.
  - rewrite He, length_map. apply count_wrong_cleared.
  - rewrite (count_active_core _ _ Hcore), count_active_judge.
    unfold count_players. by rewrite filter_right_cleared.
Qed.

(** ** The party registry *)

Lemma registry_ok_insert c party ps :
  registry_ok ps → code party = c → c ≠ EmptyString →
  (1 ≤ length (members party) ≤ 5)%nat → NoDup (map socketId (members party)) →
  registry_ok (<[c := party]> ps).
Proof.
  intros Hok Hc Hne Hlen Hnd c' party'. rewrite lookup_insert.
  case_decide as Heq; [|by apply Hok].
  intros [= <-]. by subst c'.
Qed.

Lemma registry_ok_delete c ps : registry_ok ps → registry_ok (delete c ps).
Proof.
  intros Hok c' party'. rewrite lookup_delete. case_decide; [done|]. apply Hok.
Qed.

Lemma members_update_socketIds sid f ms :
  (∀ m, socketId (f m) = socketId m) →
  map socketId (members_update sid f ms) = map socketId ms.
Proof.
  intros Hf. induction ms as [|m ms IH]; simpl; [done|].
  case_decide; simpl; [by rewrite Hf | by rewrite IH].
Qed.

Lemma members_update_length sid f ms :
  length (members_update sid f ms) = length ms.
Proof.
  induction ms as [|m ms IH]; simpl; [done|]. case_decide; simpl; by rewrite ?IH.
Qed.

Lemma mark_member_ok player f ps :
  (∀ m, socketId (f m) = socketId m) →
  registry_ok ps → registry_ok (mark_member player f ps).
Proof.
  intros Hf Hok. unfold mark_member. destruct (truthy _); [|done].
  destruct (partyCode player) as [c|]; [|done].
  destruct (ps !! c) as [party|] eqn:E; [|done].
  destruct (Hok c party E) as (Hc & Hne & Hlen & Hnd).
  apply registry_ok_insert; simpl; try done.
  - by rewrite members_update_length.
  - by rewrite members_update_socketIds.
Qed.

Lemma fold_mark_member_ok f l ps :
  (∀ m, socketId (f m) = socketId m) →
  registry_ok ps → registry_ok (fold_left (λ ps p, mark_member p f ps) l ps).
Proof.
  intros Hf. revert ps. induction l as [|p l IH]; intros ps Hok; simpl; [done|].
  apply IH. by apply mark_member_ok.
Qed.

Lemma remove_from_party_ok sid c ps :
  registry_ok ps → registry_ok (remove_from_party sid c ps).
Proof.
  intros Hok. unfold remove_from_party. destruct (ps !! c) as [party|] eqn:E; [|done].
  destruct (Hok c party E) as (Hc & Hne & Hlen & Hnd).
  destruct (Nat.eqb_spec (length (members_without sid (members party))) 0) as [|Hn].
  - by apply registry_ok_delete.
  - apply registry_ok_insert; simpl; try done.
    + pose proof (length_filter (λ m, socketId m ≠ sid) (members party)) as Hle.
      unfold members_without in *. lia.
    + apply (sublist_NoDup _ (map socketId (members party))); [done|].
      apply fmap_sublist, sublist_filter.
Qed.

Lemma is_member_false sid ms : is_member sid ms = false → sid ∉ map socketId ms.
Proof.
  unfold is_member. induction ms as [|m ms IH]; simpl.
  - intros _. apply not_elem_of_nil.
  - intros [Hm Hms]%orb_false_iff. apply not_elem_of_cons. split; [|by apply IH].
    apply bool_decide_eq_false in Hm. congruence.
Qed.

Lemma save_elimination_ok pos gn w sid :
  parties_ok w → parties_ok (save_elimination pos gn w sid).
Proof.
  unfold parties_ok, save_elimination. intros Hok.
  destruct (players_get sid _) as [player|]; [|done].
  destruct (if_truthy (persistentId player)); simpl; by apply mark_member_ok.
Qed.

Lemma save_survivor_ok w sid : parties_ok w → parties_ok (save_survivor w sid).
Proof.
  unfold parties_ok, save_survivor. intros Hok.
  destruct (players_get sid _) as [player|]; [|done]. simpl. by apply mark_member_ok.
Qed.

(** Where the registry of a round comes from. *)
Lemma processAnswers_parties gn r wd w w' out :
  processAnswers gn r wd w = Some (w', out) →
  ∃ pos g1,
    players g1 = map (judge (correctIndex (results out))) (players (gameState w)) ∧
    currentQuestion g1 = currentQuestion (gameState w) ∧
    parties w' =
      parties (fold_left save_survivor (round_survivors out)
                 (fold_left (save_elimination pos gn) (round_eliminated out)
                    (with_gameState g1 w))).
Proof.
  intros H. unfold processAnswers in H.
  destruct (if currentQuestion (gameState w) <? 0 then None else _) as [q|]; [|done].
  cbv zeta in H.
  eexists _, _. split; [|split]; cycle 2.
  - destruct (_ || _); injection H as <- <-; simpl; reflexivity.
  - destruct (_ || _); injection H as <- <-; simpl; reflexivity.
  - done.
Qed.

Lemma processAnswers_ok gn r wd w w' out :
  processAnswers gn r wd w = Some (w', out) → parties_ok w → parties_ok w'.
Proof.
  intros H Hok. apply processAnswers_parties in H as (pos & g1 & _ & _ & Hp).
  unfold parties_ok. rewrite Hp.
  generalize (round_survivors out). generalize (round_eliminated out).
  assert (parties_ok (with_gameState g1 w)) as Hok1 by done.
  revert Hok1. generalize (with_gameState g1 w). intros w0 Hok0 ids.
  revert w0 Hok0. induction ids as [|sid ids IH]; intros w0 Hok0 ids'; simpl.
  - revert w0 Hok0. induction ids' as [|sid ids' IH']; intros w0 Hok0; simpl; [done|].
    apply IH'. by apply save_survivor_ok.
  - apply IH. by apply save_elimination_ok.
Qed.

Lemma step_parties_ok e w w' : parties_ok w → step e w = Some w' → parties_ok w'.
Proof.
  intros Hok Hstep. unfold parties_ok in *.
  destruct e; simpl in Hstep; try (injection Hstep as <-).
  - done.
  - done.
  - done.
  - unfold identify. by destruct (players_get sid _).
  - unfold disconnect. simpl. destruct (players_get sid _) as [p|]; [|done].
    destruct (truthy _); [|done]. destruct (partyCode p); [|done].
    by apply remove_from_party_ok.
  - done.
  - unfold submitAnswer. destruct (players_get sid _); [|done]. by case_match.
  - unfold createParty in Hstep.
    destruct (players_get sid _); [|by injection Hstep as <-].
    destruct name_arg as [dn|]; [|by injection Hstep as <-].
    destruct (String.length (trim dn) =? 0)%nat; [by injection Hstep as <-|].
    destruct (10 <? String.length dn)%nat; [by injection Hstep as <-|].
    destruct (containsProfanity dn); [by injection Hstep as <-|].
    destruct (generatePartyCode draws (parties w)) as [c|] eqn:Hc; [|done].
    injection Hstep as <-. simpl.
    apply generatePartyCode_fresh in Hc as [_ Hne].
    apply registry_ok_insert; simpl; try done; [lia|].
    apply NoDup_singleton.
  - unfold joinParty.
    destruct (players_get sid _); [|done].
    destruct name_arg as [dn|]; [|done].
    destruct (String.length (trim dn) =? 0)%nat; [done|].
    destruct (10 <? String.length dn)%nat; [done|].
    destruct (containsProfanity dn); [done|].
    destruct code_arg as [c0|]; [|done].
    destruct (String.eqb c0 EmptyString); [done|].
    destruct (parties w !! toUpperCase c0) as [party|] eqn:E; [|done].
    destruct (Hok _ _ E) as (Hc & Hne & Hlen & Hnd).
    destruct (Nat.leb_spec 5 (length (members party))); [done|].
    destruct (is_member sid (members party)) eqn:Hm; [done|]. simpl.
    apply registry_ok_insert; simpl; try done.
    + rewrite length_app. simpl. lia.
    + rewrite map_app. simpl. apply NoDup_app. split; [done|]. split.
      * intros x Hx Hx'. apply list_elem_of_singleton in Hx' as ->.
        by apply is_member_false in Hm.
      * apply NoDup_singleton.
  - unfold leaveParty. destruct (players_get sid _) as [p|]; [|done].
    destruct (truthy _); [|done]. destruct (partyCode p); [|done]. simpl.
    by apply remove_from_party_ok.
  - unfold autoStartGame. repeat case_match; done.
  - unfold startGame_fetched. simpl. by apply fold_mark_member_ok.
  - unfold startGame_countdownDone, nextQuestion. by case_match.
  - destruct (processAnswers gn r wrongDraw w) as [[w1 out]|] eqn:E; [|done].
    injection Hstep as <-. by apply (processAnswers_ok gn r wrongDraw w w1 out).
  - unfold intermission, nextQuestion. repeat case_match; done.
  - simpl. intros c party Hc. by rewrite lookup_empty in Hc.
Qed.

(** X14.  In every state the server can reach, each party of the registry
    is filed under its own code, which is not empty, and has between one
    and five members, no session twice among them: a party that loses its
    last member is gone. *)
Theorem reachable_parties_ok w : reachable w → parties_ok w.
Proof.
  intros [es Hrun]. apply (run_invariant parties_ok es world0 w); [|done|done].
  intros e w1 w2 H1 H2. by apply (step_parties_ok e w1 w2).
Qed.

(** ** The party status of a round *)

Local Ltac refute_pair :=
  let H1 := fresh in let H2 := fresh in
  intros [H1 H2]; first [congruence | done | by apply elem_of_cons in H1 as [?|?]].

Lemma members_find_update sid sid' f ms :
  (∀ m, socketId (f m) = socketId m) →
  members_find sid' (members_update sid f ms) =
    if decide (sid = sid') then f <$> members_find sid' ms else members_find sid' ms.
Proof.
  intros Hf. induction ms as [|m ms IH]; simpl.
  - by case_decide.
  - destruct (decide (socketId m = sid)) as [Hm|Hm]; simpl.
    + rewrite Hf. repeat case_decide; simplify_eq; done.
    + rewrite IH. repeat case_decide; simplify_eq; done.
Qed.

Lemma member_of_mark sid c player f ps :
  (∀ m, socketId (f m) = socketId m) →
  member_of sid c (mark_member player f ps) =
    if decide (id player = sid ∧ if_truthy (partyCode player) = Some c)
    then f <$> member_of sid c ps else member_of sid c ps.
Proof.
  intros Hf. unfold mark_member, member_of, truthy, if_truthy.
  destruct (partyCode player) as [c0|]; [|by rewrite decide_False by refute_pair].
  destruct (String.eqb c0 EmptyString); simpl;
    [by rewrite decide_False by refute_pair|].
  destruct (ps !! c0) as [party|] eqn:E.
  - rewrite lookup_insert. destruct (decide (c0 = c)) as [->|Hne].
    + rewrite E. simpl. rewrite members_find_update by done.
      destruct (decide (id player = sid)).
      * by rewrite decide_True.
      * by rewrite decide_False by refute_pair.
    + by rewrite decide_False by refute_pair.
  - destruct (decide (c0 = c)) as [->|Hne].
    + rewrite E. by case_decide.
    + by rewrite decide_False by refute_pair.
Qed.

Lemma players_get_id sid ps p : players_get sid ps = Some p → id p = sid.
Proof.
  induction ps as [|q ps IH]; simpl; [done|]. case_decide; [|done]. congruence.
Qed.

Lemma party_of_core sid ps ps' :
  map core ps = map core ps' → party_of sid ps = party_of sid ps'.
Proof.
  intros H. apply (players_get_core sid) in H. unfold party_of.
  destruct (players_get sid ps) as [p|], (players_get sid ps') as [p'|]; try done.
  simpl in H. assert (core p = core p') as Hc by congruence.
  by rewrite <- (f_equal partyCode Hc : partyCode p = partyCode p').
Qed.

Lemma party_of_judge ci sid ps : party_of sid (map (judge ci) ps) = party_of sid ps.
Proof.
  unfold party_of. rewrite players_get_map
    by (intros p0; unfold judge; repeat case_match; done).
  destruct (players_get sid ps) as [p|]; [|done]. simpl.
  unfold judge. repeat case_match; done.
Qed.

(** A loop that, for each session of [ids], writes [f] on the roster entry
    that the session's party code leads to. *)
Lemma fold_mark_member_of (I : World → Prop) (body : World → string → World)
    (f : Member → Member) sid c :
  (∀ m, socketId (f m) = socketId m) → (∀ m, f (f m) = f m) →
  (∀ w x, I w →
     I (body w x) ∧
     map core (players (gameState (body w x))) = map core (players (gameState w)) ∧
     parties (body w x) =
       match players_get x (players (gameState w)) with
       | Some player => mark_member player f (parties w)
       | None => parties w
       end) →
  ∀ ids w, I w →
    let w' := fold_left body ids w in
    I w' ∧
    map core (players (gameState w')) = map core (players (gameState w)) ∧
    member_of sid c (parties w') =
      if decide (sid ∈ ids ∧ party_of sid (players (gameState w)) = Some c)
      then f <$> member_of sid c (parties w) else member_of sid c (parties w).
Proof.
  intros Hf Hff Hbody ids. induction ids as [|x ids IH]; intros w Hw; cbn [fold_left].
  - split; [done|]. split; [done|]. rewrite decide_False; [done|].
    intros [Hin _]. by apply not_elem_of_nil in Hin.
  - destruct (Hbody w x Hw) as (Hw1 & Hcore1 & Hp1).
    destruct (IH (body w x) Hw1) as (Hw2 & Hcore2 & Hm2). cbv zeta in *.
    split; [done|]. split; [congruence|]. rewrite Hm2.
    rewrite (party_of_core sid _ _ Hcore1), Hp1.
    assert (member_of sid c
              match players_get x (players (gameState w)) with
              | Some player => mark_member player f (parties w)
              | None => parties w
              end =
            if decide (x = sid ∧ party_of sid (players (gameState w)) = Some c)
            then f <$> member_of sid c (parties w) else member_of sid c (parties w))
      as ->.
    { destruct (players_get x (players (gameState w))) as [player|] eqn:Hget.
      - rewrite member_of_mark by done. pose proof (players_get_id _ _ _ Hget) as Hid.
        destruct (decide (x = sid)) as [->|Hne].
        + unfold party_of. rewrite Hget.
          destruct (decide (if_truthy (partyCode player) = Some c)).
          * by rewrite !decide_True.
          * by rewrite !decide_False by refute_pair.
        + by rewrite !decide_False by refute_pair.
      - rewrite decide_False; [done|]. intros [-> Hc]. unfold party_of in Hc.
        by rewrite Hget in Hc. }
    destruct (decide (party_of sid (players (gameState w)) = Some c)) as [Hc|Hc];
      [|by rewrite !decide_False by refute_pair].
    destruct (decide (x = sid)) as [->|Hne], (decide (sid ∈ ids)) as [Hin|Hin].
    + rewrite !decide_True by (split; [done || left|done]).
      destruct (member_of sid c (parties w)); simpl; by rewrite ?Hff.
    + rewrite decide_False by refute_pair.
      by rewrite !decide_True by (split; [done || left|done]).
    + rewrite decide_True by done. rewrite decide_False by refute_pair.
      by rewrite decide_True by (split; [by right|done]).
    + by rewrite !decide_False by refute_pair.
Qed.

Lemma elem_of_filter_ids (f : Player → bool) sid ps p :
  NoDup (map id ps) → players_get sid ps = Some p →
  sid ∈ map id (List.filter f ps) ↔ f p = true.
Proof.
  intros Hnd Hget. induction ps as [|q ps IH]; simpl in *; [done|].
  apply NoDup_cons in Hnd as [Hq Hnd].
  destruct (decide (id q = sid)) as [Hid|Hid].
  - injection Hget as ->. destruct (f p) eqn:E; simpl.
    + split; [done|]. intros _. rewrite Hid. left.
    + split; [|done]. intros Hin. exfalso. apply Hq.
      apply elem_of_map_id in Hin as (p' & Hin & Hp').
      apply list_elem_of_In, filter_In in Hin as [Hin _].
      apply elem_of_map_id. exists p'. split; [by apply list_elem_of_In|congruence].
  - destruct (f q); simpl; [|by apply IH].
    rewrite elem_of_cons. rewrite IH by done. split; [by intros [?|?]|by right].
Qed.

(** X15.  The party status follows the round.  For a session whose party
    code leads to a party, the roster entry of the session in that party is,
    after the round: marked alive if the session took part and gave the
    correct index; marked eliminated, with the number of the question, if it
    took part and gave another answer or none; and what it was if the
    session did not take part. *)
Theorem processAnswers_party_status gn r wd w w' out sid p c :
  NoDup (map id (players (gameState w))) →
  processAnswers gn r wd w = Some (w', out) →
  players_get sid (players (gameState w)) = Some p →
  if_truthy (partyCode p) = Some c →
  member_of sid c (parties w') =
    roster_mark (correctIndex (results out)) (currentQuestion (gameState w) + 1) p
      <$> member_of sid c (parties w).
Proof.
  intros Hnd H Hget Hc. pose proof H as Hinv.
  apply processAnswers_inv in Hinv as (q & _ & _ & _ & _ & _ & He & Hs & _ & Hci & _).
  cbv zeta in He, Hs, Hci.
  apply processAnswers_parties in H as (pos & g1 & Hps & Hcur & ->).
  rewrite Hci in *. set (ci := indexOf (correct q) (answers q)) in *.
  destruct (tally_lists ci (players (gameState w)) tally0) as [Hel Hsu].
  simpl in Hel, Hsu. rewrite Hel in He. rewrite Hsu in Hs. clear Hel Hsu.
  set (n := currentQuestion (gameState w) + 1).
  destruct (fold_mark_member_of (λ w0, currentQuestion (gameState w0) + 1 = n)
              (save_elimination pos gn) (member_set_eliminated n) sid c
              ltac:(done) ltac:(done)) with (ids := round_eliminated out)
              (w := with_gameState g1 w) as (_ & Hcore1 & Hm1).
  { intros w0 x Hw0. destruct (save_elimination_game pos gn w0 x) as [Hco Hgs].
    cbv zeta in Hco, Hgs. split; [by rewrite Hgs|]. split; [done|].
    unfold save_elimination. rewrite <- Hw0.
    destruct (players_get x _) as [player|]; [|done].
    by destruct (if_truthy (persistentId player)). }
  { simpl. by rewrite Hcur. }
  set (w2 := fold_left (save_elimination pos gn) (round_eliminated out)
               (with_gameState g1 w)) in *.
  destruct (fold_mark_member_of (λ _, True) save_survivor member_set_alive sid c
              ltac:(done) ltac:(done)) with (ids := round_survivors out) (w := w2)
    as (_ & _ & Hm2); [|done|].
  { intros w0 x _. split; [done|]. rewrite save_survivor_game. split; [done|].
    unfold save_survivor. by destruct (players_get x _). }
  cbv zeta in Hm1, Hm2, Hcore1. rewrite Hm2, Hm1.
  rewrite (party_of_core sid _ _ Hcore1). simpl. rewrite Hps, party_of_judge.
  assert (party_of sid (players (gameState w)) = Some c) as Hpc
    by (unfold party_of; by rewrite Hget).
  rewrite He, Hs, Hpc.
  pose proof (elem_of_filter_ids (answered_wrong ci) sid _ p Hnd Hget) as Hwr.
  pose proof (elem_of_filter_ids (answered_right ci) sid _ p Hnd Hget) as Hri.
  unfold roster_mark, answered_wrong, answered_right in *.
  destruct (active p); simpl in *.
  - destruct (decide (currentAnswer p = Some ci)) as [Ha|Ha].
    + rewrite bool_decide_eq_true_2 in Hwr, Hri by done. simpl in *.
      rewrite decide_True by (split; [by apply Hri|done]).
      rewrite decide_False; [done|]. intros [Hin _]. by apply Hwr in Hin.
    + rewrite bool_decide_eq_false_2 in Hwr, Hri by done. simpl in *.
      rewrite decide_False; [|intros [Hin _]; by apply Hri in Hin].
      by rewrite decide_True by (split; [by apply Hwr|done]).
  - rewrite !decide_False; [|intros [Hin _]; by apply Hwr in Hin
                             |intros [Hin _]; by apply Hri in Hin].
    by destruct (member_of sid c (parties w)).
Qed.

(** ** The end of the game *)

Lemma fold_save_winner_wins gn total ws tp x :
  (∃ p, p ∈ ws ∧ carries x p) ∨
  (∃ e, ledger tp !! x = Some e ∧ winning_entry gn total e) →
  ∃ e, ledger (fold_left (save_winner gn total) ws tp) !! x = Some e ∧
       winning_entry gn total e.
Proof.
  revert tp. induction ws as [|p ws IH]; intros tp; simpl.
  - intros [(p & Hin & _)|He]; [by apply not_elem_of_nil in Hin|done].
  - intros Hcase. apply IH.
    destruct (decide (if_truthy (persistentId p) = Some x)) as [Hp|Hp].
    + right. unfold save_winner. unfold carries in Hp. rewrite Hp. simpl.
      rewrite lookup_insert_eq. eexists. split; [done|]. done.
    + destruct Hcase as [(p' & Hin & Hp')|(e & He & Hwin)].
      * apply elem_of_cons in Hin as [->|Hin]; [done|]. left. eauto.
      * right. unfold save_winner.
        destruct (if_truthy (persistentId p)) as [pid|] eqn:E; [|eauto].
        simpl. rewrite lookup_insert_ne by (intros ->; by apply Hp). eauto.
Qed.

(** X16.  [endGame] puts the game in Finished and leaves the parties
    alone.  Every session that is still in the game at that point and has
    an identity is marked as having played today and given the result
    position 1 out of the participants of the game, and the ledger holds a
    win of that game under its identity; every other session is left as it
    was. *)
Theorem endGame_crowns_the_active gn w :
  let w' := endGame gn w in
  let total := totalParticipants (gameState w) in
  gstatus (gameState w') = finished ∧ parties w' = parties w ∧
  (∀ sid p, players_get sid (players (gameState w)) = Some p →
     ∃ p', players_get sid (players (gameState w')) = Some p' ∧
       if active p && truthy (persistentId p)
       then hasPlayedToday p' = true ∧
            todayResult p' =
              Some {| position := 1; totalPlayers := total;
                      questionsCorrect := correctAnswers p; gameNumber := gn |} ∧
            core p' = core p
       else p' = p) ∧
  (∀ p x, p ∈ players (gameState w) → active p = true → carries x p →
     ∃ e, ledger (todayPlayers w') !! x = Some e ∧ winning_entry gn total e).
Proof.
  intros w' total. unfold w', endGame. simpl. split; [done|]. split; [done|]. split.
  - intros sid p Hget. exists (crown gn total p). split.
    + rewrite players_get_map, Hget; [done|].
      intros q. unfold crown. by case_match.
    + unfold crown. by destruct (active p && truthy (persistentId p)).
  - intros p x Hin Ha Hp. apply fold_save_winner_wins. left. exists p.
    split; [|done]. apply list_elem_of_In, filter_In.
    split; [by apply list_elem_of_In|done].
Qed.

Lemma leaderboard_cmp_sorted ps :
  StronglySorted outranks (sort_by leaderboard_cmp ps).
Proof.
  apply sort_by_sorted; unfold leaderboard_cmp, outranks.
  - intros x y z. destruct (alive x), (alive y), (alive z); intros [?|[? ?]] [?|[? ?]];
      first [left; lia | right; split; [lia|auto] ].
  - intros x y. case_decide; destruct (alive x), (alive y); intros ?;
      first [left; lia | right; split; [lia|done] ].
  - intros x y. case_decide; destruct (alive x), (alive y); intros ?;
      first [left; lia | right; split; [lia|done] ].
Qed.


(** X17.  The leaderboard of the [gameOver] event holds the sessions that
    were enrolled in the game, ten of them at most, numbered from 1, each
    with its name, its number of correct answers and whether it is alive.
    They come by falling number of correct answers, among equals the alive
    before the others.  An enrolled session that is not on a board of ten
    ranks before none of those that are. *)
Theorem gameOver_leaderboard_top_ten gn w :
  let ps := players (gameState w) in
  let lb := over_leaderboard (gameOverData gn w) in
  length lb = (length (List.filter participatedInGame ps) `min` 10)%nat ∧
  (∀ i e, lb !! i = Some e →
     entry_position e = Z.of_nat i + 1 ∧
     ∃ p, p ∈ ps ∧ participatedInGame p = true ∧ shows e p) ∧
  (∀ i j a b, (i < j)%nat → lb !! i = Some a → lb !! j = Some b → ranks_before a b) ∧
  (∀ p, p ∈ ps → participatedInGame p = true →
     (∃ e, e ∈ lb ∧ shows e p) ∨
     (length lb = 10%nat ∧ ∀ e, e ∈ lb → ∃ q, shows e q ∧ outranks q p)).
Proof.
  intros ps lb. unfold lb, gameOverData. cbn [over_leaderboard]. fold ps.
  unfold leaderboard.
  set (s := sort_by leaderboard_cmp (List.filter participatedInGame ps)).
  assert (s ≡ₚ List.filter participatedInGame ps) as Hperm
    by apply sort_by_Permutation.
  assert (StronglySorted outranks s) as Hsorted by apply leaderboard_cmp_sorted.
  assert (∀ p, p ∈ s ↔ p ∈ ps ∧ participatedInGame p = true) as Hin.
  { intros p. rewrite Hperm, !list_elem_of_In. apply filter_In. }
  split; [|split; [|split]].
  - rewrite length_imap, length_take, Hperm. lia.
  - intros i e He. apply list_lookup_imap_Some in He as (p & Hp & ->).
    split; [done|]. exists p. apply lookup_take_Some in Hp as [Hp _].
    apply list_elem_of_lookup_2, Hin in Hp as [? ?]. done.
  - intros i j a b Hij Ha Hb.
    apply list_lookup_imap_Some in Ha as (p & Hp & ->).
    apply list_lookup_imap_Some in Hb as (q & Hq & ->).
    apply lookup_take_Some in Hp as [Hp _]. apply lookup_take_Some in Hq as [Hq _].
    exact (StronglySorted_lookup outranks s i j p q Hsorted Hij Hp Hq).
  - intros p Hp Hpart.
    assert (p ∈ s) as Hps by (by apply Hin).
    apply list_elem_of_lookup_1 in Hps as [k Hk].
    destruct (decide (k < 10)%nat) as [Hlt|Hge].
    + left.
      exists {| entry_position := Z.of_nat k + 1; entry_name := name p;
                entry_correct := correctAnswers p; entry_alive := alive p |}.
      split; [|done].
      eapply list_elem_of_lookup_2, list_lookup_imap_Some.
      exists p. split; [|done]. apply lookup_take_Some. split; [exact Hk|exact Hlt].
    + right. pose proof (lookup_lt_Some _ _ _ Hk) as Hlen. split.
      * rewrite length_imap, length_take. lia.
      * intros e He. apply list_elem_of_lookup_1 in He as [i Hi].
        apply list_lookup_imap_Some in Hi as (q & Hq & ->).
        apply lookup_take_Some in Hq as [Hq Hi].
        exists q. split; [done|].
        apply (StronglySorted_lookup outranks s i k q p Hsorted); [lia|done|done].
Qed.

(** ** Identification and the record of the day *)

Lemma identify_eq sid pid today w p :
  players_get sid (players (gameState w)) = Some p →
  let tp := if decide (date (todayPlayers w) = Some today) then todayPlayers w
            else {| date := Some today; ledger := ∅ |} in
  let todayData := pid ≫= (λ k, ledger tp !! k) in
  let ps := players_update sid (λ p, restore todayData (set_persistentId pid p))
              (players (gameState w)) in
  let w1 := identify sid pid today w in
  todayPlayers w1 = tp ∧ parties w1 = parties w ∧
  players (gameState w1) = ps ∧
  gstatus (gameState w1) = gstatus (gameState w) ∧
  ghostPlayers (gameState w1) = ghostPlayers (gameState w) ∧
  waitingCount (gameState w1) =
    if negb (from_option hasPlayed false todayData)
       && bool_decide (gstatus (gameState w) = waiting)
    then realWaiting ps + ghostPlayers (gameState w)
    else waitingCount (gameState w).
Proof.
  intros Hget. cbv zeta. unfold identify. rewrite Hget.
  destruct (decide (date (todayPlayers w) = Some today)) as [Hd|Hd];
    destruct pid as [k|]; simpl;
    try destruct (ledger (todayPlayers w) !! k) as [d|]; simpl;
    try destruct (hasPlayed d); simpl;
    destruct (bool_decide (gstatus (gameState w) = waiting)); done.
Qed.

(** X18.  [identify] takes the played-today flag and the result of a
    session from the ledger of the day, whatever they were before: from the
    entry of the identity if the ledger has one, and otherwise, or when the
    ledger is of another day (it is emptied and dated today then), the flag
    is false and the result is null.  It touches no other session and no
    party.  A session that comes out with the flag set is passed over by
    the next [startGame]. *)
Theorem identify_reads_ledger sid pid today w p :
  players_get sid (players (gameState w)) = Some p →
  let w1 := identify sid pid today w in
  let entry :=
    if decide (date (todayPlayers w) = Some today)
    then pid ≫= (λ k, ledger (todayPlayers w) !! k) else None in
  date (todayPlayers w1) = Some today ∧
  (date (todayPlayers w) = Some today → todayPlayers w1 = todayPlayers w) ∧
  (date (todayPlayers w) ≠ Some today → ledger (todayPlayers w1) = ∅) ∧
  parties w1 = parties w ∧
  (∀ sid', sid' ≠ sid →
     players_get sid' (players (gameState w1)) = players_get sid' (players (gameState w))) ∧
  ∃ p1, players_get sid (players (gameState w1)) = Some p1 ∧
    persistentId p1 = pid ∧
    hasPlayedToday p1 = from_option hasPlayed false entry ∧
    todayResult p1 = result <$> entry ∧
    (hasPlayedToday p1 = true →
     ∀ qs, players_get sid (players (gameState (startGame_fetched qs w1))) = Some p1).
Proof.
  intros Hget w1 entry.
  destruct (identify_eq sid pid today w p Hget) as (Htp & Hpa & Hps & _).
  cbv zeta in Htp, Hps. fold w1 in Htp, Hpa, Hps.
  assert (∀ d q, id (restore d (set_persistentId pid q)) = id q) as Hid
    by (intros [d|] q; done).
  assert (pid ≫= (λ k, ledger (if decide (date (todayPlayers w) = Some today)
                               then todayPlayers w
                               else {| date := Some today; ledger := ∅ |}) !! k)
          = entry) as Hentry.
  { unfold entry. case_decide; [done|]. destruct pid as [k|]; [|done]. simpl.
    apply lookup_empty. }
  rewrite Hentry in Hps. rewrite Htp, Hpa, Hps.
  split; [by case_decide|]. split; [intros Hd; by rewrite decide_True|].
  split; [intros Hd; by rewrite decide_False|]. split; [done|]. split.
  - intros sid' Hne. rewrite players_get_update by apply Hid.
    by rewrite decide_False.
  - exists (restore entry (set_persistentId pid p)).
    split; [by rewrite players_get_update, decide_True, Hget by (done || apply Hid)|].
    split; [by destruct entry|]. split; [by destruct entry|].
    split; [by destruct entry|].
    intros Hplayed qs. unfold startGame_fetched. simpl. rewrite Hps.
    rewrite players_get_map
      by (intros q; unfold enrol;
          by destruct (negb (hasPlayedToday q) && negb (leftGame q))).
    rewrite players_get_update, decide_True, Hget by (done || apply Hid).
    simpl. unfold enrol. by rewrite Hplayed.
Qed.

(** X19.  [loadTodayPlayers] leaves the ledger dated today.  It takes over
    what today-players.json holds only when the ledger in memory is dated
    today already and the file is too; a ledger of another day is replaced
    by an empty one without a look at the file.  So the server starts every
    time with an empty ledger, whatever the file holds. *)
Theorem loadTodayPlayers_reads_file_only_on_same_day today saved tp :
  let tp' := loadTodayPlayers today saved tp in
  date tp' = Some today ∧
  (date tp ≠ Some today → ledger tp' = ∅) ∧
  (date tp = Some today →
     match saved with
     | Some data => if decide (date data = Some today) then tp' = data
                    else ledger tp' = ∅
     | None => tp' = tp
     end) ∧
  ∀ r, todayPlayers (listen r today saved world0) = {| date := Some today; ledger := ∅ |}.
Proof.
  cbv zeta. unfold loadTodayPlayers. split; [|split; [|split]].
  - case_decide; [|done]. destruct saved as [data|]; [|done]. by case_decide.
  - intros Hd. by rewrite decide_False.
  - intros Hd. rewrite decide_True by done. destruct saved as [data|]; [|done].
    by case_decide.
  - done.
Qed.

(** ** The waiting count *)

Lemma realWaiting_delete sid ps :
  count_players (λ q, negb (hasPlayedToday q) && negb (bool_decide (id q = sid))) ps
    = realWaiting (players_delete sid ps).
Proof.
  unfold realWaiting, count_players, players_delete.
  induction ps as [|q ps IH]; simpl; [done|]. rewrite filter_cons.
  destruct (decide (id q ≠ sid)) as [Hq|Hq].
  - rewrite bool_decide_eq_false_2 by done. simpl. rewrite andb_true_r.
    destruct (negb (hasPlayedToday q)); simpl; lia.
  - apply dec_stable in Hq. rewrite bool_decide_eq_true_2 by done. simpl.
    rewrite andb_false_r. exact IH.
Qed.

(** When the three handlers that count anew do so. *)
Lemma recount_cases w :
  (∀ sid pid today p1,
     gstatus (gameState w) = waiting →
     players_get sid (players (gameState (identify sid pid today w))) = Some p1 →
     hasPlayedToday p1 = false →
     recounted (identify sid pid today w)) ∧
  (∀ sid p,
     gstatus (gameState w) = waiting →
     players_get sid (players (gameState w)) = Some p →
     hasPlayedToday p = false →
     recounted (disconnect sid w)) ∧
  (∀ r, recounted (resetGame r w)).
Proof.
  unfold recounted. split; [|split].
  - intros sid pid today p1 Hs Hget1 Hp1.
    destruct (players_get sid (players (gameState w))) as [p|] eqn:Hget.
    2: { unfold identify in Hget1. rewrite Hget in Hget1. congruence. }
    destruct (identify_eq sid pid today w p Hget) as (_ & _ & Hps & _ & Hgh & Hwc).
    cbv zeta in Hps, Hwc. rewrite Hwc, Hgh, Hps. rewrite Hps in Hget1.
    assert (∀ d q, id (restore d (set_persistentId pid q)) = id q) as Hid
      by (intros [d|] q; done).
    rewrite players_get_update, decide_True, Hget in Hget1 by (done || apply Hid).
    apply (inj Some) in Hget1. subst p1.
    rewrite bool_decide_eq_true_2 by done.
    destruct (pid ≫= _) as [d|]; simpl in *; [by rewrite Hp1|done].
  - intros sid p Hs Hget Hp. unfold disconnect. rewrite Hget, Hp. simpl.
    rewrite bool_decide_eq_true_2 by done. simpl. by rewrite realWaiting_delete.
  - intros r. done.
Qed.

(** What a handler does to the waiting count, if anything. *)
Lemma step_waitingCount e w w' :
  step e w = Some w' →
  waitingCount (gameState w') = waitingCount (gameState w) ∨
  (e = AutoStart ∧ waitingCount (gameState w') = 0) ∨
  (recounts e = true ∧ recounted w').
Proof.
  intros Hstep.
  destruct e; simpl in Hstep; try (injection Hstep as <-).
  - by left.
  - by left.
  - by left.
  - destruct (players_get sid (players (gameState w))) as [p|] eqn:Hget.
    + destruct (identify_eq sid pid today w p Hget) as (_ & _ & Hps & _ & Hgh & Hwc).
      cbv zeta in Hps, Hwc.
      destruct (negb _ && bool_decide _); [|by left].
      right. right. split; [done|]. unfold recounted. by rewrite Hwc, Hps, Hgh.
    + left. unfold identify. by rewrite Hget.
  - unfold disconnect.
    destruct (players_get sid (players (gameState w))) as [p|]; [|by left].
    destruct (negb (hasPlayedToday p) && bool_decide (gstatus (gameState w) = waiting));
      [|by left].
    right. right. split; [done|]. unfold recounted. simpl.
    by rewrite realWaiting_delete.
  - by left.
  - left. unfold submitAnswer. destruct (players_get sid _); [|done]. by case_match.
  - left. unfold createParty in Hstep.
    destruct (players_get sid _); [|by injection Hstep as <-].
    destruct name_arg as [dn|]; [|by injection Hstep as <-].
    destruct (String.length (trim dn) =? 0)%nat; [by injection Hstep as <-|].
    destruct (10 <? String.length dn)%nat; [by injection Hstep as <-|].
    destruct (containsProfanity dn); [by injection Hstep as <-|].
    destruct (generatePartyCode draws (parties w)) as [c|]; [|done].
    by injection Hstep as <-.
  - left. unfold joinParty. repeat case_match; done.
  - left. unfold leaveParty. repeat case_match; done.
  - unfold autoStartGame. destruct (bool_decide _); [|by left].
    destruct (_ =? _)%nat; [by left|]. right. left. done.
  - by left.
  - left. unfold startGame_countdownDone, nextQuestion. by case_match.
  - left. destruct (processAnswers gn r wrongDraw w) as [[w1 out]|] eqn:E; [|done].
    injection Hstep as <-. simpl.
    apply processAnswers_inv in E as (q & _ & _ & _ & Hg & _). cbv zeta in Hg.
    by rewrite Hg.
  - left. unfold intermission, nextQuestion. repeat case_match; done.
  - right. right. done.
Qed.

(** X20.  What the handlers do to the waiting count.  Every handler leaves
    it as it was, sets it to 0, or counts anew, which leaves it at the
    number of sessions of the registry that have not played today plus the
    ghost population.  It is set to 0 by [startGame] alone, when
    [autoStartGame] starts a game.  It is counted anew by [identify] of a
    session that comes out as not having played while the game is in
    Waiting, by the disconnection of such a session, which is no longer
    counted, and by [resetGame]; no other handler writes it. *)
Theorem waitingCount_kept_zeroed_or_recounted e w w' :
  step e w = Some w' →
  (waitingCount (gameState w') = waitingCount (gameState w) ∨
   (e = AutoStart ∧ waitingCount (gameState w') = 0) ∨
   (recounts e = true ∧ recounted w')) ∧
  match e with
  | Identify sid _ _ =>
      gstatus (gameState w) = waiting →
      (∃ p1, players_get sid (players (gameState w')) = Some p1 ∧
             hasPlayedToday p1 = false) →
      recounted w'
  | Disconnect sid =>
      gstatus (gameState w) = waiting →
      (∃ p, players_get sid (players (gameState w)) = Some p ∧
            hasPlayedToday p = false) →
      recounted w'
  | ResetTimeout _ => recounted w'
  | AutoStart =>
      gstatus (gameState w) = waiting → realWaiting (players (gameState w)) ≠ 0 →
      waitingCount (gameState w') = 0
  | _ => waitingCount (gameState w') = waitingCount (gameState w)
  end.
Proof.
  intros Hstep. split; [by apply step_waitingCount|].
  destruct (recount_cases w) as (Hid & Hdis & _).
  pose proof (step_waitingCount e w w' Hstep) as Hcases.
  destruct e; simpl in Hstep; try (injection Hstep as <-);
    try (destruct Hcases as [?|[[? _]|[? _]]]; [done|done|done]).
  - intros Hs (p1 & Hget & Hp1). by apply (Hid sid pid today p1).
  - intros Hs (p & Hget & Hp). by apply (Hdis sid p).
  - intros Hs Hn. unfold autoStartGame, realWaiting, count_players in *.
    rewrite bool_decide_eq_true_2 by done.
    destruct (Nat.eqb_spec (length (List.filter (λ p, negb (hasPlayedToday p))
                                      (players (gameState w)))) 0); [lia|done].
Qed.

(** ** Leaving the game *)

Lemma players_get_set sid p ps :
  players_get sid (players_set p ps) =
    if decide (id p = sid) then Some p else players_get sid ps.
Proof.
  induction ps as [|q ps IH]; simpl.
  - done.
  - destruct (decide (id q = id p)) as [Hq|Hq]; simpl.
    + repeat case_decide; simplify_eq; done.
    + rewrite IH. repeat case_decide; simplify_eq; done.
Qed.

Lemma has_left_map f sid ps : keeps_left f → has_left sid ps → has_left sid (map f ps).
Proof.
  intros Hf (p & Hget & Hl). exists (f p).
  rewrite players_get_map, Hget by apply Hf. split; [done|]. by apply Hf.
Qed.

Lemma has_left_update sid0 f sid ps :
  keeps_left f → has_left sid ps → has_left sid (players_update sid0 f ps).
Proof.
  intros Hf (p & Hget & Hl). unfold has_left. rewrite players_get_update by apply Hf.
  case_decide; [|by exists p]. exists (f p). rewrite Hget. split; [done|]. by apply Hf.
Qed.

Lemma has_left_core sid ps ps' : map core ps = map core ps' → has_left sid ps' → has_left sid ps.
Proof.
  intros H (p' & Hget & Hl). apply (players_get_core sid) in H. rewrite Hget in H.
  destruct (players_get sid ps) as [p|] eqn:E; [|done]. exists p. split; [done|].
  simpl in H. assert (core p = core p') as Hc by congruence.
  by rewrite (f_equal leftGame Hc : leftGame p = leftGame p').
Qed.

Lemma keeps_left_crown gn total : keeps_left (crown gn total).
Proof. intros q. unfold crown. by destruct (active q && truthy (persistentId q)). Qed.

Lemma has_left_endGame gn sid w :
  has_left sid (players (gameState w)) → has_left sid (players (gameState (endGame gn w))).
Proof. intros H. unfold endGame. simpl. apply has_left_map; [apply keeps_left_crown|done]. Qed.

Lemma has_left_nextQuestion gn sid w :
  has_left sid (players (gameState w)) →
  has_left sid (players (gameState (nextQuestion gn w))).
Proof.
  intros H. unfold nextQuestion.
  destruct (_ <=? _); [by apply has_left_endGame|]. simpl. by apply has_left_map.
Qed.

Lemma step_has_left sid e w w' :
  ¬ renews sid e → has_left sid (players (gameState w)) → step e w = Some w' →
  has_left sid (players (gameState w')).
Proof.
  intros He Hl Hstep.
  destruct e; simpl in Hstep; try (injection Hstep as <-).
  - done.
  - done.
  - destruct Hl as (p & Hget & Hp). exists p. simpl.
    rewrite players_get_set. rewrite decide_False; [done|].
    simpl. intros ->. apply He. by left.
  - destruct (identify_players sid0 pid today w) as [->|[d ->]]; [done|].
    apply has_left_update; [|done]. intros q. by destruct d.
  - rewrite disconnect_players. destruct Hl as (p & Hget & Hp). exists p.
    rewrite players_get_delete. rewrite decide_False; [done|].
    intros ->. apply He. by right.
  - simpl. by apply has_left_update.
  - unfold submitAnswer. destruct (players_get sid0 _); [|done].
    destruct (_ && _); [|done]. simpl. by apply has_left_update.
  - unfold createParty in Hstep.
    destruct (players_get sid0 _); [|by injection Hstep as <-].
    destruct name_arg as [dn|]; [|by injection Hstep as <-].
    destruct (String.length (trim dn) =? 0)%nat; [by injection Hstep as <-|].
    destruct (10 <? String.length dn)%nat; [by injection Hstep as <-|].
    destruct (containsProfanity dn); [by injection Hstep as <-|].
    destruct (generatePartyCode draws (parties w)) as [c|]; [|done].
    injection Hstep as <-. simpl. by apply has_left_update.
  - unfold joinParty.
    destruct (players_get sid0 _); [|done].
    destruct name_arg as [dn|]; [|done].
    destruct (String.length (trim dn) =? 0)%nat; [done|].
    destruct (10 <? String.length dn)%nat; [done|].
    destruct (containsProfanity dn); [done|].
    destruct code_arg as [c0|]; [|done].
    destruct (String.eqb c0 EmptyString); [done|].
    destruct (parties w !! toUpperCase c0) as [party|]; [|done].
    destruct (5 <=? length (members party))%nat; [done|].
    destruct (is_member sid0 (members party)); [done|]. simpl.
    by apply has_left_update.
  - unfold leaveParty. destruct (players_get sid0 _) as [p0|]; [|done].
    destruct (truthy _); [|done]. destruct (partyCode p0); [|done]. simpl.
    by apply has_left_update.
  - unfold autoStartGame. destruct (bool_decide _); [|done].
    destruct (_ =? _)%nat; [done|]. simpl. apply has_left_map; [|done].
    intros q. by destruct (negb (hasPlayedToday q)).
  - simpl. apply has_left_map; [|done].
    intros q. unfold enrol.
    destruct (negb (hasPlayedToday q)) eqn:E1, (leftGame q) eqn:E2; simpl;
      rewrite ?E2; done.
  - unfold startGame_countdownDone. by apply has_left_nextQuestion.
  - destruct (processAnswers gn r wrongDraw w) as [[w1 out]|] eqn:E; [|done].
    injection Hstep as <-. simpl.
    apply processAnswers_inv in E as (q & _ & _ & Hcore & _). cbv zeta in Hcore.
    eapply has_left_core; [exact Hcore|]. apply has_left_map; [|done].
    intros p0. unfold judge. destruct (active p0); [|done]. by case_decide.
  - destruct s; simpl; [by apply has_left_endGame|by apply has_left_nextQuestion].
  - simpl. by apply has_left_map.
Qed.

(** X21.  Leaving the game is for good.  Once a session has left, no
    handler brings it back as long as the socket stays the same (it neither
    disconnects nor connects anew): through any sequence of events, resets
    and new games included, the session keeps the mark, is enrolled in no
    game and is never among the participants of a round. *)
Theorem leftGame_is_permanent es w w' sid :
  Forall (λ e, ¬ renews sid e) es →
  has_left sid (players (gameState w)) →
  run es w = Some w' →
  ∃ p', players_get sid (players (gameState w')) = Some p' ∧
        leftGame p' = true ∧ active p' = false ∧ eligible p' = false.
Proof.
  intros Hes Hl Hrun.
  assert (has_left sid (players (gameState w'))) as (p' & Hget & Hp').
  { apply (run_invariant_on (λ e, ¬ renews sid e)
             (λ w, has_left sid (players (gameState w))) es w w'); try done.
    intros e w1 w2 He H1 H2. by apply (step_has_left sid e w1 w2). }
  exists p'. split; [done|]. split; [done|].
  unfold active, eligible. rewrite Hp'. simpl. by rewrite !andb_false_r.
Qed.

(** ** The votes on the correct answer *)

Lemma slot_bump_same i n c :
  0 ≤ i < 4 →
  slots (bump (Some i) n c) !! Z.to_nat i = (λ x, x + n) <$> slots c !! Z.to_nat i.
Proof.
  intros Hi. unfold bump.
  destruct (Z.leb_spec 0 i); [|lia]. destruct (Z.ltb_spec i 4); [|lia]. simpl.
  by rewrite list_lookup_alter, decide_True.
Qed.

Lemma slot_bump_other k i n c :
  0 ≤ i → k ≠ Some i →
  slots (bump k n c) !! Z.to_nat i = slots c !! Z.to_nat i.
Proof.
  intros Hi Hk. unfold bump. destruct k as [j|]; [|done].
  destruct (Z.leb_spec 0 j); [|done]. destruct (Z.ltb_spec j 4); [|done]. simpl.
  rewrite list_lookup_alter, decide_False; [done|].
  intros Heq. apply Hk. f_equal. lia.
Qed.

Lemma tally_player_slot ci t p v :
  0 ≤ ci < 4 →
  slots (answerCounts t) !! Z.to_nat ci = Some v →
  slots (answerCounts (tally_player ci t p)) !! Z.to_nat ci =
    Some (v + if answered_right ci p then 1 else 0).
Proof.
  intros Hci Hv. unfold tally_player, answered_right.
  destruct (active p); cbn [andb]; [|by rewrite Z.add_0_r].
  destruct (currentAnswer p) as [a|].
  - destruct (decide (a = ci)) as [->|Hne].
    + rewrite decide_True, bool_decide_eq_true_2 by done. cbn [answerCounts].
      by rewrite slot_bump_same, Hv.
    + rewrite decide_False, bool_decide_eq_false_2 by congruence. cbn [answerCounts].
      rewrite slot_bump_other, Hv, Z.add_0_r by (lia || congruence). done.
  - rewrite decide_False, bool_decide_eq_false_2 by done. cbn [answerCounts].
    by rewrite Hv, Z.add_0_r.
Qed.

Lemma tally_slot ci ps t v :
  0 ≤ ci < 4 →
  slots (answerCounts t) !! Z.to_nat ci = Some v →
  slots (answerCounts (fold_left (tally_player ci) ps t)) !! Z.to_nat ci =
    Some (v + count_players (answered_right ci) ps).
Proof.
  intros Hci. revert t v. induction ps as [|p ps IH]; intros t v Hv; simpl.
  - unfold count_players. simpl. by rewrite Z.add_0_r.
  - rewrite (IH _ _ (tally_player_slot ci t p v Hci Hv)). f_equal.
    unfold count_players. simpl. destruct (answered_right ci p); simpl; lia.
Qed.

Lemma wrongAnswers_other ci :
  Forall (λ k, k ≠ ci) (List.filter (λ i, negb (i =? ci)) [0; 1; 2; 3]).
Proof.
  cbn [List.filter].
  destruct (Z.eqb_spec 0 ci), (Z.eqb_spec 1 ci), (Z.eqb_spec 2 ci), (Z.eqb_spec 3 ci);
    cbn [negb]; repeat constructor; done.
Qed.

Lemma ghost_wrong_votes_slot n i wa draw c ci :
  0 ≤ ci → Forall (λ k, k ≠ ci) wa →
  slots (ghost_wrong_votes n i wa draw c) !! Z.to_nat ci = slots c !! Z.to_nat ci.
Proof.
  intros Hci Hwa. revert i c. induction n as [|n IH]; intros i c;
    cbn [ghost_wrong_votes]; [done|].
  rewrite IH. apply slot_bump_other; [done|].
  intros Hk. apply list_elem_of_lookup_2 in Hk.
  by apply (proj1 (Forall_forall _ _) Hwa) in Hk.
Qed.

(** X22.  On a question whose correct answer is among its four answers,
    the count of the correct option is the number of participants left in
    the game after the round, the real ones and the ghosts: no wrong ghost
    vote falls on the correct option, and that number is the [remaining] of
    the [results] event. *)
Theorem correct_option_count_is_remaining gn r wd w w' out :
  Forall well_formed (questions (gameState w)) →
  processAnswers gn r wd w = Some (w', out) →
  slots (round_answerCounts out) !! Z.to_nat (correctIndex (results out))
    = Some (remaining w') ∧
  results_remaining (results out) = remaining w'.
Proof.
  intros Hqs H. destruct (processAnswers_results _ _ _ _ _ _ H) as (_ & Hrem & _).
  split; [|done].
  apply processAnswers_inv in H
    as (q & _ & Hq & Hcore & Hg & _ & _ & _ & _ & Hix & Hv & _).
  cbv zeta in Hcore, Hg, Hv, Hix. rewrite Hix. clear Hix.
  set (ci := indexOf (correct q) (answers q)) in *.
  assert (0 ≤ ci < 4) as Hci.
  { apply indexOf_well_formed.
    eapply (proj1 (Forall_forall _ _) Hqs). by eapply list_elem_of_lookup_2. }
  set (new := Math_floor _) in *.
  assert (remaining w' =
          count_players (answered_right ci) (players (gameState w)) + new) as ->.
  { unfold remaining. rewrite (count_active_core _ _ Hcore), count_active_judge.
    by rewrite Hg. }
  apply (f_equal fst) in Hv. cbn [fst] in Hv. rewrite Hv.
  pose proof (tally_slot ci (players (gameState w)) tally0 0 Hci) as Ht.
  rewrite Z.add_0_l in Ht.
  assert (slots (answerCounts tally0) !! Z.to_nat ci = Some 0) as H0.
  { assert (ci = 0 ∨ ci = 1 ∨ ci = 2 ∨ ci = 3) as [E | [E | [E | E]]] by lia;
      rewrite E; done. }
  specialize (Ht H0). unfold ghost_votes. cbv zeta. cbn [fst snd].
  destruct (0 <? _); cbn [fst];
    rewrite ?ghost_wrong_votes_slot by (lia || apply wrongAnswers_other);
    by rewrite slot_bump_same, Ht.
Qed.

(** ** Running out of questions *)

(** X23.  The round loop with any number of questions.  A pass of the loop
    leaves the game in Finished exactly when the question just processed
    has index 9 or more, or at most one participant is left, or there is no
    further question; otherwise it moves the cursor on by one and hands out
    the next question with every answer slot cleared.  A game that is
    started on an empty list of questions is over as soon as the countdown
    is. *)
Theorem round_loop_ends_without_questions gn r wd w w' out :
  gstatus (gameState w) = playing →
  processAnswers gn r wd w = Some (w', out) →
  let w'' := intermission (scheduled out) gn w' in
  (gstatus (gameState w'') = finished ↔
     9 ≤ currentQuestion (gameState w) ∨ remaining w' ≤ 1 ∨
     Z.of_nat (length (questions (gameState w))) ≤ currentQuestion (gameState w) + 1) ∧
  (gstatus (gameState w'') ≠ finished →
     currentQuestion (gameState w'') = currentQuestion (gameState w) + 1 ∧
     Forall (λ p, currentAnswer p = None) (players (gameState w''))) ∧
  (∀ w0, gstatus (gameState (startGame_countdownDone gn (startGame_fetched [] w0)))
           = finished).
Proof.
  intros Hplaying H.
  apply processAnswers_inv in H as (q & Hcq & Hq & Hcore & Hg & Hsched & _).
  cbv zeta in Hcore, Hg, Hsched |- *.
  apply lookup_lt_Some in Hq.
  assert (remaining w' =
          count_players active
            (map (judge (indexOf (correct q) (answers q))) (players (gameState w)))
          + Math_floor (inject_Z (aliveGhosts (gameState w))
                        * correctRate (currentQuestion (gameState w) + 1) r)) as Hrem.
  { unfold remaining. rewrite (count_active_core _ _ Hcore). by rewrite Hg. }
  rewrite <- Hrem in Hg, Hsched. rewrite Hsched.
  split; [|split]; [| |done].
  - destruct (Z.leb_spec 9 (currentQuestion (gameState w)));
      destruct (Z.leb_spec (remaining w') 1); simpl;
      try (split; [intros _; lia | done]).
    unfold nextQuestion. rewrite Hg. simpl.
    destruct (Z.leb_spec (Z.of_nat (length (questions (gameState w))))
                (currentQuestion (gameState w) + 1)).
    + split; [intros _; lia | done].
    + simpl. rewrite Hg. simpl. rewrite Hplaying. split; [done|lia].
  - destruct ((9 <=? currentQuestion (gameState w)) || (remaining w' <=? 1));
      simpl; [done|].
    unfold nextQuestion. rewrite Hg. simpl.
    destruct (Z.leb_spec (Z.of_nat (length (questions (gameState w))))
                (currentQuestion (gameState w) + 1)); [done|].
    intros _. simpl. split; [by rewrite Hg|].
    apply Forall_forall. intros p Hp. apply list_elem_of_In, in_map_iff in Hp
      as (p0 & <- & _). done.
Qed.

(** ** Party requests that are granted *)

Lemma join_rejected_some sid c0 dn w :
  join_rejected sid (Some c0) (Some dn) w ↔
  (String.length (trim dn) =? 0)%nat = true ∨ (10 <? String.length dn)%nat = true
  ∨ containsProfanity dn = true ∨ String.eqb c0 EmptyString = true
  ∨ match parties w !! toUpperCase c0 with
    | None => True
    | Some party =>
        (5 <=? length (members party))%nat = true ∨ is_member sid (members party) = true
    end.
Proof.
  unfold join_rejected. rewrite name_rejected_some, String.eqb_eq.
  destruct (parties w !! toUpperCase c0) as [party|]; [|tauto].
  rewrite Nat.leb_le. tauto.
Qed.

(** X24.  The checks of [createParty] and [joinParty] are the only ways
    to be turned down.  For a session that is in the registry, [createParty]
    succeeds exactly when the display name passes the validation; the party
    is then filed under a code that was free, with the caller, under the
    trimmed name, as its only member.  [joinParty] succeeds exactly when the
    name passes, the code, read in upper case, is that of a party with fewer
    than five members and the caller is not on its roster; the caller is
    then added at the end of the roster.  In both cases the party code and
    the display name of the caller's player object are set. *)
Theorem party_requests_granted_iff sid w p :
  players_get sid (players (gameState w)) = Some p →
  (∀ name_arg now draws w' ack,
     createParty sid name_arg now draws w = Some (w', ack) →
     (success ack = true ↔ ¬ name_rejected name_arg) ∧
     (success ack = true →
      ∃ c dn,
        name_arg = Some dn ∧
        ack = AckSuccess c [new_member sid (trim dn)] ∧
        parties w !! c = None ∧
        parties w' =
          <[c := {| code := c; members := [new_member sid (trim dn)];
                    createdAt := now |}]> (parties w) ∧
        players_get sid (players (gameState w'))
          = Some (set_party (Some c) (Some (trim dn)) p))) ∧
  (∀ code_arg name_arg,
     let w' := fst (joinParty sid code_arg name_arg w) in
     let ack := snd (joinParty sid code_arg name_arg w) in
     (success ack = true ↔ ¬ join_rejected sid code_arg name_arg w) ∧
     (success ack = true →
      ∃ c0 dn party,
        code_arg = Some c0 ∧ name_arg = Some dn ∧
        parties w !! toUpperCase c0 = Some party ∧
        ack = AckSuccess (toUpperCase c0)
                (members party ++ [new_member sid (trim dn)]) ∧
        parties w' =
          <[toUpperCase c0 :=
              set_members (members party ++ [new_member sid (trim dn)]) party]>
            (parties w) ∧
        players_get sid (players (gameState w'))
          = Some (set_party (Some (toUpperCase c0)) (Some (trim dn)) p))).
Proof.
  intros Hget. split.
  - intros name_arg now draws w' ack H. unfold createParty in H. rewrite Hget in H.
    destruct name_arg as [dn|];
      [|injection H as <- <-; split; [split; [done|intros Hn; by destruct Hn]|done]].
    rewrite name_rejected_some.
    destruct (String.length (trim dn) =? 0)%nat eqn:E1;
      [injection H as <- <-; split; [split; [done|intros Hn; destruct Hn; auto]|done]|].
    destruct (10 <? String.length dn)%nat eqn:E2;
      [injection H as <- <-; split; [split; [done|intros Hn; destruct Hn; auto]|done]|].
    destruct (containsProfanity dn) eqn:E3;
      [injection H as <- <-; split; [split; [done|intros Hn; destruct Hn; auto]|done]|].
    destruct (generatePartyCode draws (parties w)) as [c|] eqn:Hc; [|done].
    injection H as <- <-. split.
    + split; [intros _ [?|[?|?]]; done|done].
    + intros _. exists c, dn. apply generatePartyCode_fresh in Hc as [Hfree _].
      repeat (split; [done|]). simpl.
      by rewrite players_get_update, decide_True, Hget by done.
  - intros code_arg name_arg. cbv zeta. unfold joinParty. rewrite Hget.
    destruct name_arg as [dn|];
      [|split; [split; [done|intros Hn; exfalso; apply Hn; by left]|done]].
    destruct code_arg as [c0|].
    2: { split; [|by repeat case_match].
         split; [by repeat case_match|]. intros Hn. exfalso. apply Hn. by right. }
    rewrite join_rejected_some.
    destruct (String.length (trim dn) =? 0)%nat eqn:E1;
      [split; [split; [done|intros Hn; destruct Hn; auto]|done]|].
    destruct (10 <? String.length dn)%nat eqn:E2;
      [split; [split; [done|intros Hn; destruct Hn; auto]|done]|].
    destruct (containsProfanity dn) eqn:E3;
      [split; [split; [done|intros Hn; destruct Hn; auto]|done]|].
    destruct (String.eqb c0 EmptyString) eqn:E4;
      [split; [split; [done|intros Hn; destruct Hn; auto 6]|done]|].
    destruct (parties w !! toUpperCase c0) as [party|] eqn:E5;
      [|split; [split; [done|intros Hn; destruct Hn; auto 6]|done]].
    destruct (5 <=? length (members party))%nat eqn:E6;
      [split; [split; [done|intros Hn; destruct Hn; auto 7]|done]|].
    destruct (is_member sid (members party)) eqn:E7;
      [split; [split; [done|intros Hn; destruct Hn; auto 7]|done]|].
    simpl. split.
    + split; [intros _ [?|[?|[?|[?|[?|?]]]]]; done|done].
    + intros _. exists c0, dn, party. repeat (split; [done|]).
      by rewrite players_get_update, decide_True, Hget by done.
Qed.

(** ** The questions of the day across a restart *)

(** X25.  The questions of the day outlive a restart of the server: when
    daily-questions.json holds questions dated today, [initializeDailyQuestions]
    takes them over without a request to the API, and every
    [fetchDailyQuestions] of that day returns them and writes nothing. *)
Theorem daily_questions_survive_restart today saved response write_ok backup
    draws emergencyDraws dq response' write_ok' backup' draws' emergencyDraws' :
  dq_date saved = Some today →
  let dq0 := initializeDailyQuestions today (Some saved) response write_ok backup
               draws emergencyDraws dq in
  dq0 = saved ∧
  fetchDailyQuestions today response' write_ok' backup' draws' emergencyDraws' dq0 =
    {| fetched := dq_questions saved; cache := saved; written := None |}.
Proof.
  intros Hd dq0. unfold dq0, initializeDailyQuestions. rewrite decide_True by done.
  split; [done|]. unfold fetchDailyQuestions. by rewrite decide_True.
Qed.

End Server.

(** * Instances on sample data *)

Example trim_blanks : trim "  Ann " = "Ann".
Proof. reflexivity. Qed.

Example toUpperCase_code : toUpperCase "ab2cde" = "AB2CDE".
Proof. reflexivity. Qed.

(** The draw 0.5 picks the character of index 16 each time. *)
Example code_of_half : code_chars 6 0 (λ _, draw_half) = "SSSSSS".
Proof. reflexivity. Qed.

Example indexOf_missing : indexOf "Pluto" ["Mars"; "Venus"] = -1.
Proof. reflexivity. Qed.

(** [Math.round(12.5)] is 13 and [Math.round(-0.5)] is 0. *)
Example Math_round_ties : Math_round (25 # 2) = 13 ∧ Math_round (-1 # 2) = 0.
Proof. split; reflexivity. Qed.

(** An answer index outside the array leaves the four slots as they are. *)
Example bump_outside :
  bump (Some 7) 1 answerCounts0 = {| slots := [0; 0; 0; 0]; stray := [Some 7] |}.
Proof. reflexivity. Qed.

(** 100 ghosts on the first question with the draw 0.5: the rate is 0.925
    and 92 ghosts pass. *)
Example ghosts_first_question :
  Math_floor (inject_Z 100 * correctRate 1 draw_half) = 92.
Proof. reflexivity. Qed.

(** C9 on the sample game: the session keeps its result of the day. *)
Lemma resetGame_resets_but_keeps_daily_record_witness :
  parties (resetGame draw_half game_over) = ∅ ∧
  ∃ p', players_get "s1" (players (gameState (resetGame draw_half game_over))) = Some p' ∧
        ready p' = false ∧ alive p' = true ∧ correctAnswers p' = 0 ∧
        participatedInGame p' = false ∧
        hasPlayedToday p' = true ∧ todayResult p' = Some sample_result.
Proof.
  apply (resetGame_resets_but_keeps_daily_record draw_half game_over "s1" eliminated_ann).
  reflexivity.
Defined.

(** C8 on sample data: a blank name at [createParty], an unknown code at
    [joinParty], and a sixth session at the door of a party of five. *)
Lemma party_validation_failure_is_soft_witness :
  (∃ ack msg, createParty no_filter "s6" (Some "   ") 0 [λ _, draw0] full_house
              = Some (full_house, ack) ∧ success ack = false ∧ ack = AckError msg) ∧
  (∃ ack msg, joinParty no_filter "s6" (Some "zzzzzz") (Some "Zed") full_house
              = (full_house, ack) ∧ success ack = false ∧ ack = AckError msg) ∧
  joinParty no_filter "s6" (Some "aaaaaa") (Some "Zed") full_house
    = (full_house, AckError "Party is full (max 5 members)") ∧
  length (members five_party) = 5%nat ∧
  parties (fst (joinParty no_filter "s6" (Some "aaaaaa") (Some "Zed") full_house))
    !! toUpperCase "aaaaaa" = Some five_party.
Proof.
  destruct (party_validation_failure_is_soft no_filter "s6" full_house)
    as (Hcreate & Hjoin & Hfull).
  split; [|split].
  - apply Hcreate. left. reflexivity.
  - apply Hjoin. right. right. reflexivity.
  - apply Hfull.
    + eexists. reflexivity.
    + intros [H|[H|H]]; [discriminate H | vm_compute in H; lia | discriminate H].
    + discriminate.
    + reflexivity.
    + reflexivity.
Defined.

Lemma ann_in_party_one_party_each : one_party_each ann_in_party.
Proof.
  split; [done|]. intros sid c party Hc Hmem.
  unfold ann_in_party, lobby in Hc. cbn [parties] in Hc.
  apply lookup_singleton_Some in Hc as [<- <-].
  simpl in Hmem. rewrite orb_false_r in Hmem.
  apply bool_decide_eq_true in Hmem as <-. eexists. split; reflexivity.
Qed.

(** C7 fails as stated: a session that is in party AAAAAA creates a second
    party.  The handler does not take it off the first roster, so it is on
    two rosters and the invariant is gone. *)
Lemma createParty_twice_is_on_two_rosters :
  run no_filter [Connect "s1"; CreateParty "s1" (Some "Ann") 0 [λ _, draw0]] world0
    = Some ann_in_party ∧
  one_party_each ann_in_party ∧
  ∃ w' p1 p2,
    step no_filter (CreateParty "s1" (Some "Ann") 1 [λ _, draw0; λ _, draw_half])
      ann_in_party = Some w' ∧
    parties w' !! "AAAAAA" = Some p1 ∧ is_member "s1" (members p1) = true ∧
    parties w' !! "SSSSSS" = Some p2 ∧ is_member "s1" (members p2) = true ∧
    ¬ one_party_each w'.
Proof.
  split; [by vm_compute|]. split; [apply ann_in_party_one_party_each|].
  - eexists _, _, _. split; [by vm_compute|].
    split; [by vm_compute|]. split; [done|].
    split; [by vm_compute|]. split; [done|].
    intros [_ Hroster].
    destruct (Hroster "s1" "AAAAAA" ann_party) as (p & Hget & Hcode).
    + by vm_compute.
    + done.
    + vm_compute in Hget. injection Hget as <-. discriminate Hcode.
Qed.

(** C7, amended, on sample data: the same session leaves its party first
    and creates the second one then. *)
Lemma membership_ops_keep_one_party_each_witness :
  ∃ w1 w2,
    step no_filter (party_event "s1" OpLeave) ann_in_party = Some w1 ∧
    one_party_each w1 ∧
    step no_filter (party_event "s1" (OpCreate (Some "Ann") 1 [λ _, draw0])) w1
      = Some w2 ∧
    one_party_each w2.
Proof.
  pose proof ann_in_party_one_party_each as Hinv.
  eexists _, _. split; [reflexivity|].
  assert (one_party_each (leaveParty "s1" ann_in_party)) as Hinv1.
  { apply (membership_ops_keep_one_party_each no_filter "s1" OpLeave ann_in_party);
      [exact Hinv | discriminate | reflexivity]. }
  split; [exact Hinv1|].
  split; [by vm_compute|].
  eapply (membership_ops_keep_one_party_each no_filter "s1"
            (OpCreate (Some "Ann") 1 [λ _, draw0]) (leaveParty "s1" ann_in_party)).
  - exact Hinv1.
  - intros _ c party Hc. vm_compute in Hc. discriminate Hc.
  - by vm_compute.
Defined.

Lemma emergency_questions_well_formed : Forall well_formed emergency_questions.
Proof.
  repeat (apply Forall_cons_2; [split; [reflexivity | set_solver] |]).
  apply Forall_nil_2.
Qed.

(** C1 fails as stated.  The tenth question has index 9; two real
    participants answer it correctly and no ghost survives it.  The game
    goes to Finished with the question index at 9, not 10, and with two
    participants left. *)
Lemma tenth_question_finishes_at_index_9 :
  ∃ w' out,
    processAnswers 15 draw_half (λ _, draw0) two_survivors = Some (w', out) ∧
    gstatus (gameState (intermission (scheduled out) 15 w')) = finished ∧
    currentQuestion (gameState (intermission (scheduled out) 15 w')) = 9 ∧
    remaining w' = 2 ∧
    ¬ (currentQuestion (gameState (intermission (scheduled out) 15 w')) = 10
       ∨ remaining w' ≤ 1).
Proof.
  eexists _, _. split; [vm_compute; reflexivity|].
  split; [reflexivity|]. split; [reflexivity|]. split; [reflexivity|].
  vm_compute. intros [H|H]; [discriminate H | apply H; reflexivity].
Qed.

(** C1, amended, on the same round. *)
Lemma round_finishes_iff_witness :
  ∃ w' out,
    processAnswers 15 draw_half (λ _, draw0) two_survivors = Some (w', out) ∧
    let w'' := intermission (scheduled out) 15 w' in
    (gstatus (gameState w'') = finished ↔
       9 ≤ currentQuestion (gameState two_survivors) ∨ remaining w' ≤ 1) ∧
    (count_players active (players (gameState w')) = 1 →
     aliveGhosts (gameState w') = 0 → gstatus (gameState w'') = finished) ∧
    currentQuestion (gameState w'') ≤ 9.
Proof.
  eexists _, _. split; [vm_compute; reflexivity|].
  apply (round_finishes_iff 15 draw_half (λ _, draw0) two_survivors).
  - reflexivity.
  - reflexivity.
  - vm_compute. reflexivity.
Defined.

(** C2 fails on the code.  In the first round of a game with 100 ghosts,
    sa survives and sb is eliminated: the ledger files sb at position 2
    (one survivor plus one eliminated, ghosts left out) and the
    [eliminated] event tells sb position 102 (ghosts counted in). *)
Theorem ledger_and_event_positions_disagree :
  ∃ w w' out e res,
    run no_filter first_round_events world0 = Some w ∧
    aliveGhosts (gameState w) = 100 ∧
    processAnswers 15 draw_half (λ _, draw0) w = Some (w', out) ∧
    round_eliminated out = ["sb"] ∧
    ledger (todayPlayers w') !! "B" = Some e ∧ position (result e) = 2 ∧
    eliminatedEvents out = [("sb", res)] ∧ position res = 102.
Proof.
  eexists _, _, _, _, _. split; [vm_compute; reflexivity|].
  split; [reflexivity|]. split; [vm_compute; reflexivity|].
  split; [reflexivity|]. split; [vm_compute; reflexivity|].
  split; [reflexivity|]. split; reflexivity.
Qed.

(** C3 fails as stated.  Eight votes, one each for three options and five
    for the fourth, give 12.5 %, 12.5 %, 12.5 % and 62.5 %; each is rounded
    up and the four percentages add up to 102. *)
Lemma percentages_add_up_to_102 :
  ∃ w' out,
    processAnswers 15 draw_half (λ _, draw0) eight_votes = Some (w', out) ∧
    round_totalAnswers out = 8 ∧
    slots (round_answerCounts out) = [1; 5; 1; 1] ∧
    answerPercentages (results out) = [13; 63; 13; 13] ∧
    sum_list (answerPercentages (results out)) = 102 ∧
    ¬ (99 ≤ sum_list (answerPercentages (results out)) ≤ 101).
Proof.
  eexists _, _. split; [vm_compute; reflexivity|].
  split; [reflexivity|]. split; [reflexivity|]. split; [reflexivity|].
  split; [reflexivity|]. vm_compute. intros [_ H]. apply H. reflexivity.
Qed.

(** C3, amended, on the same round. *)
Lemma answerPercentages_rounded_witness :
  ∃ w' out,
    processAnswers 15 draw_half (λ _, draw0) eight_votes = Some (w', out) ∧
    let total := round_totalAnswers out in
    ∃ a b c d,
      slots (round_answerCounts out) = [a; b; c; d] ∧ a + b + c + d = total ∧
      (0 < total →
         answerPercentages (results out) =
           [Math_round (share total a); Math_round (share total b);
            Math_round (share total c); Math_round (share total d)] ∧
         Forall (λ v, (inject_Z v / inject_Z total * 100 - (1 # 10000000000000)
                         <= share total v)%Q ∧
                      (share total v
                         <= inject_Z v / inject_Z total * 100 + (1 # 10000000000000))%Q)
                [a; b; c; d] ∧
         98 ≤ sum_list (answerPercentages (results out)) ≤ 102) ∧
      (total = 0 → answerPercentages (results out) = [0; 0; 0; 0]).
Proof.
  eexists _, _. split; [vm_compute; reflexivity|].
  eapply (answerPercentages_rounded 15 draw_half (λ _, draw0) eight_votes).
  - vm_compute. reflexivity.
  - intros p Hp _.
    repeat (apply elem_of_cons in Hp as [->|Hp]; [simpl; lia|]).
    by apply not_elem_of_nil in Hp.
  - apply emergency_questions_well_formed.
  - simpl. lia.
Defined.

(** The doubles at work.  23 votes of 40 are 57.5 % exactly; the double
    23 / 40 is a little less than 0.575, its product with 100 rounds to
    the double below 57.5, and [Math.round] gives 57.  With 29, 113, 29
    and 29 votes of 200 the four percentages add up to 98. *)
Example percentage_below_a_tie :
  Math_round (inject_Z 23 / inject_Z 40 * 100) = 58 ∧ percentage 40 23 = 57 ∧
  (share 40 23 == (8092405580431359 # 140737488355328))%Q.
Proof. split; [reflexivity|]. split; vm_compute; reflexivity. Qed.

Example percentages_add_up_to_98 :
  map (percentage 200) [29; 113; 29; 29] = [14; 56; 14; 14] ∧
  sum_list (map (percentage 200) [29; 113; 29; 29]) = 98.
Proof. split; vm_compute; reflexivity. Qed.

(** C4 fails as stated.  Two sessions give the same identity A before the
    game.  When the first one is eliminated the ledger files A at position
    2 with no correct answer; when the second one is eliminated a round
    later, on the same day, that record is replaced. *)
Lemma shared_identity_record_is_rewritten :
  ∃ w1 w2 e1 e2,
    run no_filter shared_identity_round1 world0 = Some w1 ∧
    ledger (todayPlayers w1) !! "A" = Some e1 ∧
    run no_filter shared_identity_round2 w1 = Some w2 ∧
    date (todayPlayers w2) = date (todayPlayers w1) ∧
    ledger (todayPlayers w2) !! "A" = Some e2 ∧
    questionsCorrect (result e1) = 0 ∧ questionsCorrect (result e2) = 1 ∧
    e1 ≠ e2.
Proof.
  eexists _, _, _, _. split; [vm_compute; reflexivity|].
  split; [vm_compute; reflexivity|]. split; [vm_compute; reflexivity|].
  split; [reflexivity|]. split; [vm_compute; reflexivity|].
  split; [reflexivity|]. split; [reflexivity|]. discriminate.
Qed.

(** C4, amended, on the first round of the sample game. *)
Lemma ledger_record_rewritten_only_for_active_carrier_witness :
  ∃ w w',
    run no_filter first_round_events world0 = Some w ∧
    step no_filter (RoundTimeout 15 draw_half (λ _, draw0)) w = Some w' ∧
    date (todayPlayers w') = date (todayPlayers w) ∧
    (ledger (todayPlayers w') !! "B" ≠ ledger (todayPlayers w) !! "B" →
     files_results (RoundTimeout 15 draw_half (λ _, draw0)) = true ∧
     ∃ p, p ∈ players (gameState w) ∧ active p = true ∧ carries "B" p).
Proof.
  eexists _, _. split; [vm_compute; reflexivity|].
  split; [vm_compute; reflexivity|].
  apply (ledger_record_rewritten_only_for_active_carrier no_filter
           (RoundTimeout 15 draw_half (λ _, draw0))).
  - exists first_round_events. vm_compute. reflexivity.
  - exact I.
  - vm_compute. reflexivity.
Defined.


(** C6 on the state in which the first round of the sample game begins. *)
Lemma aliveGhosts_bounded_and_non_increasing_witness :
  ∃ w,
    run no_filter first_round_events world0 = Some w ∧
    0 ≤ aliveGhosts (gameState w) ≤ ghostPlayers (gameState w) ∧
    ∀ e w', step no_filter e w = Some w' → resamples_ghosts e = false →
            aliveGhosts (gameState w') ≤ aliveGhosts (gameState w).
Proof.
  eexists. split; [vm_compute; reflexivity|].
  apply (aliveGhosts_bounded_and_non_increasing no_filter).
  exists first_round_events. vm_compute. reflexivity.
Defined.

(** C10 fails as stated.  sb sends the answer index 7 during the first
    question; the handler stores it, and [processAnswers] counts it under
    key 7, outside the four-element array. *)
Lemma out_of_range_answer_reaches_the_count :
  ∃ w sb w' out,
    run no_filter stray_answer_events world0 = Some w ∧
    players_get "sb" (players (gameState w)) = Some sb ∧
    currentAnswer sb = Some 7 ∧ active sb = true ∧
    processAnswers 15 draw_half (λ _, draw0) w = Some (w', out) ∧
    stray (round_answerCounts out) = [Some 7] ∧
    ¬ (0 ≤ 7 < 4).
Proof.
  eexists _, _, _, _. split; [vm_compute; reflexivity|].
  split; [vm_compute; reflexivity|]. split; [reflexivity|]. split; [reflexivity|].
  split; [vm_compute; reflexivity|]. split; [reflexivity|]. lia.
Qed.

(** C10, amended, on the first round of the sample game. *)
Lemma in_range_answers_stay_in_range_witness :
  ∃ w,
    run no_filter first_round_events world0 = Some w ∧
    answers_ok w ∧
    ∀ gn r wd w' out,
      Forall well_formed (questions (gameState w)) →
      processAnswers gn r wd w = Some (w', out) →
      stray (round_answerCounts out) = [].
Proof.
  eexists. split; [vm_compute; reflexivity|].
  apply (in_range_answers_stay_in_range no_filter first_round_events).
  - repeat (apply Forall_cons_2; [simpl; try exact I; lia|]). apply Forall_nil_2.
  - vm_compute. reflexivity.
Defined.

(** * Further instances on sample data *)

(** X4 on a day that begins with an answer of the API: a second call, with
    the API down and the file unreadable, returns the same questions. *)
Lemma fetchDailyQuestions_same_day_witness :
  let first :=
    fetchDailyQuestions sample_day (Some sample_response) true None
      (λ _ _, draw0) (λ _ _, draw0) no_questions in
  fetchDailyQuestions sample_day None false None (λ _ _, draw_half) (λ _ _, draw_half)
    (cache first) =
    {| fetched := fetched first; cache := cache first; written := None |}.
Proof.
  apply (fetchDailyQuestions_same_day sample_day (Some sample_response) None
           (λ _ _, draw0) (λ _ _, draw0) no_questions
           None false None (λ _ _, draw_half) (λ _ _, draw_half)).
  reflexivity.
Defined.

(** X5 with a first candidate, SSSSSS, that is taken. *)
Lemma generatePartyCode_six_fresh_witness :
  generatePartyCode [λ _, draw_half; λ _, draw0] taken_code = Some "AAAAAA" ∧
  String.length "AAAAAA" = 6%nat ∧ in_alphabet "AAAAAA" ∧
  taken_code !! "AAAAAA" = None.
Proof.
  split; [reflexivity|].
  apply (generatePartyCode_six_fresh [λ _, draw_half; λ _, draw0] taken_code "AAAAAA").
  reflexivity.
Defined.

(** X7 on the lobby with six sessions. *)
Lemma startGame_snapshot_witness :
  let w' := startGame_fetched emergency_questions full_house in
  questions (gameState w') = emergency_questions ∧
  currentQuestion (gameState w') = 0 ∧
  totalParticipants (gameState w') =
    count_players eligible (players (gameState full_house))
    + ghostPlayers (gameState full_house) ∧
  aliveGhosts (gameState w') = aliveGhosts (gameState full_house) ∧
  ∃ p', players_get "s6" (players (gameState w')) = Some p' ∧
        if eligible (new_player "s6")
        then active p' = true ∧ correctAnswers p' = 0 ∧ currentAnswer p' = None ∧
             hasPlayedToday p' = true ∧ persistentId p' = persistentId (new_player "s6")
        else p' = new_player "s6".
Proof.
  apply (startGame_snapshot emergency_questions full_house "s6" (new_player "s6")).
  reflexivity.
Defined.

(** X10 on the tenth question with two participants who give the correct
    index. *)
Lemma processAnswers_judges_each_session_witness :
  ∃ w' out q p',
    processAnswers 15 draw_half (λ _, draw0) two_survivors = Some (w', out) ∧
    questions (gameState two_survivors)
      !! Z.to_nat (currentQuestion (gameState two_survivors)) = Some q ∧
    players_get "sa" (players (gameState w')) = Some p' ∧
    alive p' = true ∧ correctAnswers p' = 10.
Proof.
  eexists _, _.
  destruct (processAnswers_judges_each_session 15 draw_half (λ _, draw0) two_survivors
              _ _ "sa" (contestant "sa" 9 (Some 1)) eq_refl eq_refl)
    as (q & p' & Hq & Hget & _ & Hp').
  exists q, p'. split; [reflexivity|]. split; [exact Hq|]. split; [exact Hget|].
  assert (q = make_question "Capital of Kazakhstan?" "Astana"
                ["Almaty"; "Astana"; "Bishkek"; "Tashkent"] "HARD" "Geography") as ->
    by (apply (inj Some); rewrite <- Hq; reflexivity).
  exact Hp'.
Defined.

(** X11 on the tenth question with eight participants, three of whom give
    a wrong index. *)
Lemma processAnswers_head_count_witness :
  ∃ w' out,
    processAnswers 15 draw_half (λ _, draw0) eight_votes = Some (w', out) ∧
    results_eliminated (results out) + results_remaining (results out)
      = remaining eight_votes ∧
    results_remaining (results out) = remaining w' ∧
    Z.of_nat (length (round_eliminated out)) + Z.of_nat (length (round_survivors out))
      = count_players active (players (gameState eight_votes)) ∧
    ∀ sid res, (sid, res) ∈ eliminatedEvents out → position res = remaining eight_votes.
Proof.
  eexists _, _. split; [vm_compute; reflexivity|].
  eapply (processAnswers_head_count 15 draw_half (λ _, draw0) eight_votes).
  vm_compute. reflexivity.
Defined.

(** X12 on the tenth question with two participants and two ghosts. *)
Lemma processAnswers_vote_total_witness :
  ∃ w' out,
    processAnswers 15 draw_half (λ _, draw0) two_survivors = Some (w', out) ∧
    round_totalAnswers out =
      count_players answered (players (gameState two_survivors))
      + aliveGhosts (gameState two_survivors).
Proof.
  eexists _, _. split; [vm_compute; reflexivity|].
  eapply (processAnswers_vote_total 15 draw_half (λ _, draw0) two_survivors).
  - vm_compute. discriminate.
  - vm_compute. reflexivity.
Defined.

(** X13 on the tenth question, put out again with nobody answering. *)
Lemma unanswered_round_eliminates_all_witness :
  ∃ w' out,
    processAnswers 15 draw_half (λ _, draw0) (nextQuestion 15 two_survivors)
      = Some (w', out) ∧
    round_survivors out = [] ∧
    Z.of_nat (length (round_eliminated out))
      = count_players active (players (gameState two_survivors)) ∧
    count_players active (players (gameState w')) = 0.
Proof.
  eexists _, _. split; [vm_compute; reflexivity|].
  eapply (unanswered_round_eliminates_all 15 15 draw_half (λ _, draw0) two_survivors).
  - vm_compute. reflexivity.
  - vm_compute. reflexivity.
Defined.

(** X14 on the sample game with a party. *)
Lemma reachable_parties_ok_witness :
  ∃ w, run no_filter party_round_events world0 = Some w ∧ parties_ok w.
Proof.
  eexists. split; [vm_compute; reflexivity|].
  apply (reachable_parties_ok no_filter).
  exists party_round_events. vm_compute. reflexivity.
Defined.

(** X15 on the first round of the sample game with a party: sb, who gave
    the index 1, is marked eliminated on question 1 in the party SSSSSS. *)
Lemma processAnswers_party_status_witness :
  ∃ w w' out p,
    run no_filter party_round_events world0 = Some w ∧
    processAnswers 15 draw_half (λ _, draw0) w = Some (w', out) ∧
    players_get "sb" (players (gameState w)) = Some p ∧
    status <$> member_of "sb" "SSSSSS" (parties w') = Some member_eliminated ∧
    member_of "sb" "SSSSSS" (parties w') =
      roster_mark (correctIndex (results out)) (currentQuestion (gameState w) + 1) p
        <$> member_of "sb" "SSSSSS" (parties w).
Proof.
  eexists _, _, _, _. split; [vm_compute; reflexivity|].
  split; [vm_compute; reflexivity|]. split; [vm_compute; reflexivity|].
  split; [vm_compute; reflexivity|].
  eapply (processAnswers_party_status 15 draw_half (λ _, draw0) _ _ _ "sb" _ "SSSSSS").
  - apply (bool_decide_unpack _). vm_compute. exact I.
  - vm_compute. reflexivity.
  - vm_compute. reflexivity.
  - vm_compute. reflexivity.
Defined.

(** X18 on the sample game when it is over: a second socket of the
    identity that was eliminated comes with the record of that game. *)
Lemma identify_reads_ledger_witness :
  let w1 := identify "s1" (Some "ann") sample_day game_over in
  ∃ p1, players_get "s1" (players (gameState w1)) = Some p1 ∧
        hasPlayedToday p1 = true ∧ todayResult p1 = Some sample_result ∧
        ∀ qs, players_get "s1" (players (gameState (startGame_fetched qs w1)))
              = Some p1.
Proof.
  destruct (identify_reads_ledger "s1" (Some "ann") sample_day game_over eliminated_ann
              eq_refl) as (_ & _ & _ & _ & _ & p1 & Hget & _ & Hplayed & Hres & Hnext).
  exists p1. split; [exact Hget|]. split; [exact Hplayed|]. split; [exact Hres|].
  apply Hnext. exact Hplayed.
Defined.

(** X21 on the session of the sample game, which leaves when the game is
    over: through the reset, the next day and the next game it stays out. *)
Lemma leftGame_is_permanent_witness :
  ∃ w',
    run no_filter next_game_events (leaveGame "s1" game_over) = Some w' ∧
    ∃ p', players_get "s1" (players (gameState w')) = Some p' ∧
          leftGame p' = true ∧ active p' = false ∧ eligible p' = false.
Proof.
  eexists. split; [vm_compute; reflexivity|].
  eapply (leftGame_is_permanent no_filter next_game_events (leaveGame "s1" game_over)).
  - repeat (apply Forall_cons_2; [intros [H|H]; discriminate H|]). apply Forall_nil_2.
  - eexists. split; reflexivity.
  - vm_compute. reflexivity.
Defined.

(** X22 on the tenth question with eight participants, five of whom give
    the correct index 1. *)
Lemma correct_option_count_is_remaining_witness :
  ∃ w' out,
    processAnswers 15 draw_half (λ _, draw0) eight_votes = Some (w', out) ∧
    slots (round_answerCounts out) !! Z.to_nat (correctIndex (results out))
      = Some (remaining w') ∧
    results_remaining (results out) = remaining w'.
Proof.
  eexists _, _. split; [vm_compute; reflexivity|].
  eapply (correct_option_count_is_remaining 15 draw_half (λ _, draw0) eight_votes).
  - apply emergency_questions_well_formed.
  - vm_compute. reflexivity.
Defined.

(** X23 on the tenth question with two participants and two ghosts. *)
Lemma round_loop_ends_without_questions_witness :
  ∃ w' out,
    processAnswers 15 draw_half (λ _, draw0) two_survivors = Some (w', out) ∧
    let w'' := intermission (scheduled out) 15 w' in
    (gstatus (gameState w'') = finished ↔
       9 ≤ currentQuestion (gameState two_survivors) ∨ remaining w' ≤ 1 ∨
       Z.of_nat (length (questions (gameState two_survivors)))
         ≤ currentQuestion (gameState two_survivors) + 1) ∧
    (gstatus (gameState w'') ≠ finished →
       currentQuestion (gameState w'') = currentQuestion (gameState two_survivors) + 1 ∧
       Forall (λ p, currentAnswer p = None) (players (gameState w''))) ∧
    (∀ w0, gstatus (gameState (startGame_countdownDone 15 (startGame_fetched [] w0)))
             = finished).
Proof.
  eexists _, _. split; [vm_compute; reflexivity|].
  eapply (round_loop_ends_without_questions 15 draw_half (λ _, draw0) two_survivors).
  - reflexivity.
  - vm_compute. reflexivity.
Defined.

(** X24 on the lobby with six sessions: the sixth asks for a party of its
    own. *)
Lemma party_requests_granted_iff_witness :
  ∃ w' ack,
    createParty no_filter "s6" (Some " Zed ") 7 [λ _, draw_half] full_house
      = Some (w', ack) ∧
    ack = AckSuccess "SSSSSS" [new_member "s6" "Zed"] ∧
    players_get "s6" (players (gameState w'))
      = Some (set_party (Some "SSSSSS") (Some "Zed") (new_player "s6")).
Proof.
  eexists _, _. split; [reflexivity|].
  destruct (party_requests_granted_iff no_filter "s6" full_house (new_player "s6")
              eq_refl) as [Hcreate _].
  destruct (Hcreate (Some " Zed ") 7 [λ _, draw_half] _ _ eq_refl) as [_ Hgranted].
  destruct (Hgranted eq_refl) as (c & dn & Hdn & Hack & _ & _ & Hget).
  injection Hdn as <-. injection Hack as <-. split; [reflexivity|exact Hget].
Defined.

(** X25 with the emergency questions on file. *)
Lemma daily_questions_survive_restart_witness :
  let dq0 := initializeDailyQuestions sample_day (Some saved_questions) None false None
               (λ _ _, draw0) (λ _ _, draw0) no_questions in
  dq0 = saved_questions ∧
  fetchDailyQuestions sample_day (Some sample_response) true None
    (λ _ _, draw0) (λ _ _, draw0) dq0 =
    {| fetched := emergency_questions; cache := saved_questions; written := None |}.
Proof.
  apply (daily_questions_survive_restart sample_day saved_questions None false None
           (λ _ _, draw0) (λ _ _, draw0) no_questions
           (Some sample_response) true None (λ _ _, draw0) (λ _ _, draw0)).
  reflexivity.
Defined.

(** X2 on the first start of the server, with the API down and no file. *)
Lemma getEmergencyQuestions_ten_well_formed_witness :
  fetchDailyQuestions sample_day None false None (λ _ _, draw_half) (λ _ _, draw0)
    no_questions =
    {| fetched := getEmergencyQuestions (λ _ _, draw0); cache := no_questions;
       written := None |}.
Proof.
  destruct (getEmergencyQuestions_ten_well_formed (λ _ _, draw0)) as (_ & _ & _ & H).
  apply (H sample_day false (λ _ _, draw_half) no_questions). discriminate.
Defined.

(** X3 on the sample response: the easy question comes first. *)
Lemma format_questions_by_index_witness :
  ∃ q a,
    format_questions (λ _ _, draw0) sample_response !! 0%nat = Some q ∧
    a ∈ sample_response ∧ difficulty q = "EASY" ∧ question q = api_text a ∧
    api_difficulty a = easy ∧ correct q ∈ answers q.
Proof.
  destruct (format_questions_by_index (λ _ _, draw0) sample_response)
    as (_ & sorted & _ & _ & H).
  destruct (H 0%nat _ eq_refl) as (a & _ & Ha & Hd & Hq & _ & _ & _ & Hc).
  eexists _, a. split; [reflexivity|]. split; [exact Ha|]. split; [exact Hd|].
  split; [exact Hq|]. split; [|exact Hc].
  repeat (apply elem_of_cons in Ha as [->|Ha]; [simpl in Hq; first [reflexivity | discriminate Hq]|]).
  by apply not_elem_of_nil in Ha.
Defined.

(** X6 on the lobby with six sessions. *)
Lemma autoStartGame_guard_witness :
  gstatus (gameState (autoStartGame full_house)) = starting ∧
  waitingCount (gameState (autoStartGame full_house)) = 0 ∧
  parties (autoStartGame full_house) = parties full_house ∧
  todayPlayers (autoStartGame full_house) = todayPlayers full_house ∧
  ∀ sid p, players_get sid (players (gameState full_house)) = Some p →
    players_get sid (players (gameState (autoStartGame full_house))) =
      Some (if hasPlayedToday p then p else set_ready true p).
Proof.
  destruct (autoStartGame_guard full_house) as [_ H].
  apply H; [reflexivity | discriminate].
Defined.

(** X8 on the sample game when it is over. *)
Lemma submitAnswer_guard_witness : submitAnswer "s1" (Some 2) game_over = game_over.
Proof.
  destruct (submitAnswer_guard "s1" (Some 2) game_over) as [H _].
  apply H. right. left. discriminate.
Defined.

(** X9 on the tenth question: an answer of sa leaves sb as it was. *)
Lemma submitAnswer_last_wins_witness :
  players_get "sb" (players (gameState (submitAnswer "sa" (Some 3) two_survivors)))
    = players_get "sb" (players (gameState two_survivors)).
Proof.
  destruct (submitAnswer_last_wins "sa" (Some 3) None two_survivors) as [_ H].
  apply H. discriminate.
Defined.

(** X16 on a game that ends with one identified participant. *)
Lemma endGame_crowns_the_active_witness :
  ∃ e, ledger (todayPlayers (endGame 15 last_one_standing)) !! "A" = Some e ∧
       winning_entry 15 (totalParticipants (gameState last_one_standing)) e.
Proof.
  destruct (endGame_crowns_the_active 15 last_one_standing) as (_ & _ & _ & H).
  apply (H finalist "A"); [left | reflexivity | reflexivity].
Defined.

(** X17 on the tenth question with eight participants. *)
Lemma gameOver_leaderboard_top_ten_witness :
  ∃ e, over_leaderboard (gameOverData 15 eight_votes) !! 0%nat = Some e ∧
       entry_position e = 1 ∧
       ∃ p, p ∈ players (gameState eight_votes) ∧ participatedInGame p = true ∧
            shows e p.
Proof.
  eexists. split; [reflexivity|].
  destruct (gameOver_leaderboard_top_ten 15 eight_votes) as (_ & H & _).
  apply (H 0%nat). reflexivity.
Defined.

(** X19 when the ledger in memory and the file are both of the sample day. *)
Lemma loadTodayPlayers_reads_file_only_on_same_day_witness :
  loadTodayPlayers sample_day (Some fresh_file) (todayPlayers game_over) = fresh_file.
Proof.
  destruct (loadTodayPlayers_reads_file_only_on_same_day sample_day (Some fresh_file)
              (todayPlayers game_over)) as (_ & _ & H & _).
  exact (H eq_refl).
Defined.

(** X20 when the sixth session of the lobby disconnects. *)
Lemma waitingCount_kept_zeroed_or_recounted_witness :
  step no_filter (Disconnect "s6") full_house = Some (disconnect "s6" full_house) ∧
  recounted (disconnect "s6" full_house) ∧
  waitingCount (gameState (disconnect "s6" full_house)) = 5.
Proof.
  split; [reflexivity|].
  destruct (waitingCount_kept_zeroed_or_recounted no_filter (Disconnect "s6") full_house
              (disconnect "s6" full_house) eq_refl) as [_ H].
  split; [|reflexivity].
  apply H; [reflexivity|]. exists (new_player "s6"). split; reflexivity.
Defined.

(** [share] against the floating-point unit: for every total up to 60 and
    every count up to the total, and for the shares below a tie, the double
    that [share] computes is the one that the division and the
    multiplication of the machine give. *)
Example share_is_the_double_of_the_machine :
  forallb (λ t, shares_agree (Z.of_nat t)) (seq 1 60) = true ∧
  forallb (λ '(c, t), Qeq_bool (share t c) (share_float t c)) shares_below_a_tie = true ∧
  forallb (λ '(c, t), negb (percentage t c =? Math_round (inject_Z c / inject_Z t * 100)))
          shares_below_a_tie = true.
Proof. split; [|split]; vm_compute; reflexivity. Qed.
